(** * WorkflowForge package publisher: a shallow embedding of
    [scripts/publish-packages.py] and the properties of its pipeline.

    The script is sequential Python that shells out to external tools.  It is
    modelled as a state-and-exit monad over an abstract outside world: the
    world answers subprocess invocations, directory listings and archive
    reads; the monad threads the world, the chronological trace of observable
    actions and the [results] list that [main] builds and mutates. *)

From Stdlib Require Import String Ascii List ZArith Lia Bool.
From stdpp Require Import gmap strings pretty sorting list.
Import ListNotations.

Local Open Scope Z_scope.
Local Open Scope nat_scope.

(** ** Python string operations used by the script *)

Module PyStr.

(** The newline character of ["\n..."] literals. *)
Definition nl : string := String (ascii_of_nat 10) EmptyString.

(** [s * n] *)
Fixpoint repeat (s : string) (n : nat) : string :=
  match n with
  | O => ""
  | S n' => s +:+ repeat s n'
  end.

(** [sep.join(l)] *)
Fixpoint join (sep : string) (l : list string) : string :=
  match l with
  | [] => ""
  | [x] => x
  | x :: l' => x +:+ sep +:+ join sep l'
  end.

(** [s.startswith(p)] *)
Definition startswith (s p : string) : bool := String.prefix p s.

(** [sub in s] *)
Fixpoint contains (sub s : string) : bool :=
  String.prefix sub s ||
  match s with
  | EmptyString => false
  | String _ s' => contains sub s'
  end.

(** [s.split(c)] for a one-character separator. *)
Fixpoint split (c : ascii) (s : string) : list string :=
  match s with
  | EmptyString => [""]
  | String a s' =>
      if Ascii.eqb a c then "" :: split c s'
      else match split c s' with
           | x :: xs => String a x :: xs
           | [] => [String a ""]
           end
  end.

(** [s.rfind(c)], [None] standing for [-1]. *)
Fixpoint rfind (c : ascii) (s : string) : option nat :=
  match s with
  | EmptyString => None
  | String a s' =>
      match rfind c s' with
      | Some i => Some (S i)
      | None => if Ascii.eqb a c then Some 0 else None
      end
  end.

(** Whitespace of [str.strip()] in the ASCII range: space, tab, newline,
    vertical tab, form feed, carriage return and the separators 28..31. *)
Definition is_space (a : ascii) : bool :=
  let n := nat_of_ascii a in
  (n =? 32) || ((9 <=? n) && (n <=? 13)) || ((28 <=? n) && (n <=? 31)).

Fixpoint lstrip (s : string) : string :=
  match s with
  | EmptyString => ""
  | String a s' => if is_space a then lstrip s' else s
  end.

Fixpoint rstrip (s : string) : string :=
  match s with
  | EmptyString => ""
  | String a s' =>
      match rstrip s' with
      | EmptyString => if is_space a then "" else String a ""
      | t => String a t
      end
  end.

(** [s.strip()] *)
Definition strip (s : string) : string := rstrip (lstrip s).

(** [f"{s:<w}"] and [f"{s:>w}"] *)
Definition ljust (w : nat) (s : string) : string :=
  s +:+ repeat " " (w - String.length s).
Definition rjust (w : nat) (s : string) : string :=
  repeat " " (w - String.length s) +:+ s.

(** [fnmatch.fnmatchcase(s, pat)] for patterns built from literal
    characters, [*] and [?] (the script's patterns use [*] only). *)
Fixpoint fnmatch (pat s : string) {struct pat} : bool :=
  match pat with
  | EmptyString => match s with EmptyString => true | _ => false end
  | String p pat' =>
      if Ascii.eqb p "*" then
        (fix star (t : string) : bool :=
           fnmatch pat' t ||
           match t with
           | EmptyString => false
           | String _ t' => star t'
           end) s
      else
        match s with
        | EmptyString => false
        | String a s' =>
            (Ascii.eqb p "?" || Ascii.eqb p a) && fnmatch pat' s'
        end
  end.

(** [sorted(l)] on strings: Python compares by code point, which on the
    byte strings used here is [String.le]; the order is total and
    antisymmetric, so the sorted list does not depend on the algorithm. *)
Definition sorted (l : list string) : list string := merge_sort String.le l.

End PyStr.

(** ** [pathlib.PurePosixPath] *)

Module PyPath.
Import PyStr.

Record Path := mkPath { anchor : string; parts : list string }.

Definition parse_anchor (s : string) : string :=
  if String.prefix "///" s then "/"
  else if String.prefix "//" s then "//"
  else if String.prefix "/" s then "/"
  else "".

Definition parse_parts (s : string) : list string :=
  List.filter (fun c => negb (String.eqb c "" || String.eqb c "."))
              (split "/" s).

(** [Path(s)] *)
Definition of_string (s : string) : Path :=
  {| anchor := parse_anchor s; parts := parse_parts s |}.

(** [p / s]: an absolute right operand replaces the left one. *)
Definition joinpath (p : Path) (s : string) : Path :=
  let q := of_string s in
  if String.eqb (anchor q) "" then
    {| anchor := anchor p; parts := parts p ++ parts q |}
  else q.

(** [p.name] *)
Definition name (p : Path) : string := List.last (parts p) "".

(** [p.stem]: the name without its last suffix; a leading or a trailing
    dot does not start a suffix. *)
Definition stem (p : Path) : string :=
  let n := name p in
  match rfind "." n with
  | Some i =>
      if (0 <? i) && (i <? String.length n - 1) then substring 0 i n else n
  | None => n
  end.

(** [str(p)] *)
Definition to_string (p : Path) : string :=
  match anchor p, parts p with
  | EmptyString, [] => "."
  | a, ps => a +:+ join "/" ps
  end.

(** [str(d / entry)] for a directory entry [entry] of a directory [d] that
    has at least one component. *)
Definition child_string (d : Path) (entry : string) : string :=
  to_string d +:+ "/" +:+ entry.

End PyPath.

Abbreviation Path := PyPath.Path.
Infix "</>" := PyPath.joinpath (at level 40, left associativity).

(** ** Data model *)

(** The [PACKAGES] list of the script. *)
Definition PACKAGES : list string :=
  [ "src/core/WorkflowForge/WorkflowForge.csproj";
    "src/core/WorkflowForge.Testing/WorkflowForge.Testing.csproj";
    "src/extensions/WorkflowForge.Extensions.DependencyInjection/WorkflowForge.Extensions.DependencyInjection.csproj";
    "src/extensions/WorkflowForge.Extensions.Logging.Serilog/WorkflowForge.Extensions.Logging.Serilog.csproj";
    "src/extensions/WorkflowForge.Extensions.Resilience/WorkflowForge.Extensions.Resilience.csproj";
    "src/extensions/WorkflowForge.Extensions.Resilience.Polly/WorkflowForge.Extensions.Resilience.Polly.csproj";
    "src/extensions/WorkflowForge.Extensions.Validation/WorkflowForge.Extensions.Validation.csproj";
    "src/extensions/WorkflowForge.Extensions.Audit/WorkflowForge.Extensions.Audit.csproj";
    "src/extensions/WorkflowForge.Extensions.Persistence/WorkflowForge.Extensions.Persistence.csproj";
    "src/extensions/WorkflowForge.Extensions.Persistence.Recovery/WorkflowForge.Extensions.Persistence.Recovery.csproj";
    "src/extensions/WorkflowForge.Extensions.Observability.Performance/WorkflowForge.Extensions.Observability.Performance.csproj";
    "src/extensions/WorkflowForge.Extensions.Observability.HealthChecks/WorkflowForge.Extensions.Observability.HealthChecks.csproj";
    "src/extensions/WorkflowForge.Extensions.Observability.OpenTelemetry/WorkflowForge.Extensions.Observability.OpenTelemetry.csproj" ].

(** The namespace returned by [parser.parse_args()]; an option that was not
    given is [None] and a flag that was not given is [false]. *)
Record Args := mkArgs {
  version : string;
  api_key : option string;
  publish : bool;
  sign : bool;
  cert_path : option string;
  cert_password : option string
}.

(** Truth value of an optional string: [None] and [""] are falsy. *)
Definition truthy (o : option string) : bool :=
  match o with
  | Some s => negb (String.eqb s "")
  | None => false
  end.

(** The string an optional argument contributes to a command line. *)
Definition arg_value (o : option string) : string := default "" o.

(** One dictionary of the [results] list:
    [{"name": ..., "packed": ..., "signed": ..., "published": ...}]. *)
Record Result := mkResult {
  name : string;
  packed : bool;
  signed : bool;
  published : bool
}.

(** The boolean keys of a [Result]. *)
Inductive Key := k_packed | k_signed | k_published.

(** [r[k] = True] *)
Definition set_true (k : Key) (r : Result) : Result :=
  match k with
  | k_packed => mkResult (name r) true (signed r) (published r)
  | k_signed => mkResult (name r) (packed r) true (published r)
  | k_published => mkResult (name r) (packed r) (signed r) true
  end.

(** [archive.startswith(r["name"] + ".")] *)
Definition name_matches (r : Result) (archive : string) : bool :=
  PyStr.startswith archive (name r +:+ ".").

(** The loop
    [for r in results: if nupkg.name.startswith(r["name"] + "."): r[k] = True]
    as a function of the list it mutates in place. *)
Definition match_and_mark (k : Key) (archive : string) (rs : list Result)
  : list Result :=
  List.map (fun r => if name_matches r archive then set_true k r else r) rs.

(** The record appended after a successful pack. *)
Definition packed_result (n : string) : Result := mkResult n true false false.

(** ** The outside world and the execution monad *)

Inductive Cmd :=
| CmdStr (s : string)
| CmdList (argv : list string).

(** [subprocess.CompletedProcess] with captured text output. *)
Record CompletedProcess := mkCompleted {
  returncode : Z;
  stdout : string;
  stderr : string
}.

(** What the script asks of its environment.  [subprocess_run] spawns a
    process and waits for it ([None]: the process could not be started and
    Python raises); [mkdir] is [Path.mkdir(exist_ok=True)] ([None]: it
    raises); [listdir] is the set of entry names of a directory; [namelist]
    is [zipfile.ZipFile(p).namelist()] ([None]: the file is not a readable
    archive and Python raises). *)
Record Env (W : Type) := mkEnv {
  subprocess_run : Cmd -> option Path -> W -> option CompletedProcess * W;
  mkdir : Path -> W -> option W;
  listdir : Path -> W -> gset string;
  namelist : string -> W -> option (list string)
}.
Arguments subprocess_run {W}.
Arguments mkdir {W}.
Arguments listdir {W}.
Arguments namelist {W}.

(** Observable actions, in the order they happen; a subprocess invocation
    is recorded with what it returned ([None] when it could not start). *)
Inductive Event :=
| EPrint (line : string)
| ERun (cmd : Cmd) (cwd : option Path) (result : option CompletedProcess)
| EMkdir (p : Path)
| EZipOpen (p : string).

(** How a computation ends: it returns, [sys.exit(code)] was called, or an
    exception escaped. *)
Inductive Outcome (A : Type) :=
| Returned (a : A)
| Exited (code : Z)
| Raised (exc : string).
Arguments Returned {A}.
Arguments Exited {A}.
Arguments Raised {A}.

Section Monad.
Context {W : Type}.

Record State := mkState {
  world : W;
  trace : list Event;
  results : list Result
}.

Definition M (A : Type) : Type := State -> Outcome A * State.

Definition ret {A} (a : A) : M A := fun st => (Returned a, st).

Definition bind {A B} (m : M A) (k : A -> M B) : M B :=
  fun st =>
    match m st with
    | (Returned a, st') => k a st'
    | (Exited c, st') => (Exited c, st')
    | (Raised e, st') => (Raised e, st')
    end.

(** [sys.exit(code)] *)
Definition sys_exit {A} (code : Z) : M A := fun st => (Exited code, st).

Definition emit (e : Event) : M unit :=
  fun st => (Returned tt, mkState (world st) (trace st ++ [e]) (results st)).

(** [print(line)] *)
Definition print (line : string) : M unit := emit (EPrint line).

(** Assignment to, and in-place mutation of, [results]. *)
Definition modify_results (f : list Result -> list Result) : M unit :=
  fun st => (Returned tt, mkState (world st) (trace st) (f (results st))).

(** [for x in l: body(x)] *)
Fixpoint for_each {A} (l : list A) (body : A -> M unit) : M unit :=
  match l with
  | [] => ret tt
  | x :: l' => bind (body x) (fun _ => for_each l' body)
  end.

End Monad.
Arguments State : clear implicits.
Arguments M : clear implicits.

Declare Scope py_scope.
Delimit Scope py_scope with py.
Notation "x <- m ;; k" := (bind m (fun x => k))
  (at level 100, m at next level, right associativity) : py_scope.
Notation "m ;; k" := (bind m (fun _ => k))
  (at level 100, right associativity) : py_scope.

(** ** The script *)

Section Pipeline.
Context {W : Type} (env : Env W).

(** [root = Path(__file__).parent.parent] and the list the pack loop
    iterates over ([PACKAGES] in the script). *)
Variable root : Path.
Variable projects : list string.

Local Open Scope py_scope.

(** *** Environment primitives *)

Definition subprocess (cmd : Cmd) (cwd : option Path) : M W CompletedProcess :=
  fun st =>
    let st' r w := mkState w (trace st ++ [ERun cmd cwd r]) (results st) in
    match subprocess_run env cmd cwd (world st) with
    | (Some r, w) => (Returned r, st' (Some r) w)
    | (None, w) => (Raised "OSError", st' None w)
    end.

Definition path_mkdir (p : Path) : M W unit :=
  fun st =>
    let tr := trace st ++ [EMkdir p] in
    match mkdir env p (world st) with
    | Some w => (Returned tt, mkState w tr (results st))
    | None => (Raised "OSError", mkState (world st) tr (results st))
    end.

(** [d.glob(pat)]: the entry names of [d] that match [pat], in the
    arbitrary order of the directory listing.  The script sorts the paths
    it gets; paths of one directory are ordered by their names, so the loops
    below run over the sorted names, and [PyPath.child_string] gives
    [str(nupkg)] where the name itself is [nupkg.name]. *)
Definition glob (d : Path) (pat : string) : M W (list string) :=
  fun st =>
    (Returned (List.filter (PyStr.fnmatch pat) (elements (listdir env d (world st)))),
     st).

(** [with zipfile.ZipFile(p) as zf: zf.namelist()] *)
Definition zip_namelist (p : string) : M W (list string) :=
  fun st =>
    let st' := mkState (world st) (trace st ++ [EZipOpen p]) (results st) in
    match namelist env p (world st) with
    | Some names => (Returned names, st')
    | None => (Raised "BadZipFile", st')
    end.

(** *** [run] *)

Definition cmd_text (cmd : Cmd) : string :=
  match cmd with
  | CmdList argv => PyStr.join " " argv
  | CmdStr s => s
  end.

Definition run (cmd : Cmd) (cwd : option Path) (check : bool)
  : M W CompletedProcess :=
  print ("  > " +:+ cmd_text cmd) ;;
  result <- subprocess cmd cwd ;;
  if check && negb (returncode result =? 0)%Z then
    print ("  ERROR: " +:+ PyStr.strip (stderr result)) ;;
    sys_exit 1%Z
  else
    ret result.

(** *** [main], step by step *)

Definition output_dir : Path := root </> "packages".

Definition rule : string := PyStr.repeat "=" 60.

Definition banner (args : Args) : M W unit :=
  print (PyStr.nl +:+ rule) ;;
  print ("WorkflowForge Package Publisher v" +:+ version args) ;;
  print ("Mode: " +:+ (if publish args then "PUBLISH" else "DRY RUN")) ;;
  print ("Sign: " +:+ (if sign args then "Yes" else "No")) ;;
  print (rule +:+ PyStr.nl).

Definition restore_cmd : Cmd :=
  CmdList ["dotnet"; "restore"; "WorkflowForge.sln"].

(** Step 1 *)
Definition stage_restore : M W unit :=
  print "[1/5] Restoring dependencies..." ;;
  run restore_cmd (Some root) true ;;
  ret tt.

Definition build_cmd : Cmd :=
  CmdList ["dotnet"; "build"; "WorkflowForge.sln";
           "--configuration"; "Release"; "--no-restore"].

(** Step 2 *)
Definition stage_build : M W unit :=
  print (PyStr.nl +:+ "[2/5] Building solution...") ;;
  run build_cmd (Some root) true ;;
  ret tt.

Definition pack_cmd (args : Args) (project : string) : Cmd :=
  CmdList ["dotnet"; "pack"; PyPath.to_string (root </> project);
           "--configuration"; "Release";
           "--no-build";
           "-p:PackageVersion=" +:+ version args;
           "--output"; PyPath.to_string output_dir].

Definition project_name (project : string) : string :=
  PyPath.stem (root </> project).

(** The body of the pack loop. *)
Definition pack_project (args : Args) (project : string) : M W unit :=
  print ("  Packing " +:+ project_name project +:+ "...") ;;
  run (pack_cmd args project) (Some root) true ;;
  modify_results (fun rs => rs ++ [packed_result (project_name project)]).

(** Step 3 *)
Definition stage_pack (args : Args) : M W unit :=
  print (PyStr.nl +:+ "[3/5] Packing NuGet packages...") ;;
  modify_results (fun _ => []) ;;
  for_each projects (pack_project args).

Definition has_readme (names : list string) : bool :=
  existsb (PyStr.contains "README") names.

Definition verify_line (nupkg : string) (names : list string) : string :=
  "  " +:+ nupkg +:+ ": " +:+
  (if has_readme names then "OK" else "WARNING: no README") +:+
  " (" +:+ pretty (length names) +:+ " files)".

(** The body of the verify loop; [nupkg] is the entry name. *)
Definition verify_archive (nupkg : string) : M W unit :=
  names <- zip_namelist (PyPath.child_string output_dir nupkg) ;;
  print (verify_line nupkg names).

(** Step 4 *)
Definition stage_verify : M W unit :=
  print (PyStr.nl +:+ "[4/5] Verifying packages...") ;;
  found <- glob output_dir "*.nupkg" ;;
  for_each (PyStr.sorted found) verify_archive.

Definition sign_cmd (args : Args) (nupkg : string) : Cmd :=
  CmdList (["dotnet"; "nuget"; "sign"; PyPath.child_string output_dir nupkg;
            "--certificate-path"; arg_value (cert_path args);
            "--timestamper"; "http://timestamp.digicert.com"]
           ++ (if truthy (cert_password args)
               then ["--certificate-password"; arg_value (cert_password args)]
               else [])).

(** The body of the sign loop. *)
Definition sign_archive (args : Args) (nupkg : string) : M W unit :=
  run (sign_cmd args nupkg) (Some root) true ;;
  modify_results (match_and_mark k_signed nupkg).

(** Step 5 (optional) *)
Definition stage_sign (args : Args) : M W unit :=
  if sign args then
    print (PyStr.nl +:+ "[4.5/5] Signing packages...") ;;
    (if negb (truthy (cert_path args)) then
       print "  ERROR: --cert-path required for signing" ;;
       sys_exit 1%Z
     else ret tt) ;;
    found <- glob output_dir "*.*nupkg" ;;
    for_each (PyStr.sorted found) (sign_archive args)
  else ret tt.

Definition push_cmd (args : Args) (nupkg : string) : Cmd :=
  CmdList ["dotnet"; "nuget"; "push"; PyPath.child_string output_dir nupkg;
           "--api-key"; arg_value (api_key args);
           "--source"; "https://api.nuget.org/v3/index.json";
           "--skip-duplicate"].

(** The body of the publish loop. *)
Definition publish_archive (args : Args) (nupkg : string) : M W unit :=
  print ("  Publishing " +:+ nupkg +:+ "...") ;;
  run (push_cmd args nupkg) (Some root) true ;;
  modify_results (match_and_mark k_published nupkg).

(** Step 6 (optional) *)
Definition stage_publish (args : Args) : M W unit :=
  if publish args then
    print (PyStr.nl +:+ "[5/5] Publishing to NuGet...") ;;
    (if negb (truthy (api_key args)) then
       print "  ERROR: --api-key required for publishing" ;;
       sys_exit 1%Z
     else ret tt) ;;
    found <- glob output_dir "*.*nupkg" ;;
    for_each (PyStr.sorted found) (publish_archive args)
  else
    print (PyStr.nl +:+
           "[5/5] Skipping publish (dry-run mode). Use --publish to push to NuGet.").

Definition flag_text (b : bool) : string := if b then "OK" else "-".

Definition summary_row (r : Result) : string :=
  PyStr.ljust 55 (name r) +:+ " " +:+
  PyStr.rjust 5 (flag_text (packed r)) +:+ " " +:+
  PyStr.rjust 5 (flag_text (signed r)) +:+ " " +:+
  PyStr.rjust 5 (flag_text (published r)).

Definition summary : M W unit :=
  print (PyStr.nl +:+ rule) ;;
  print "SUMMARY" ;;
  print rule ;;
  print (PyStr.ljust 55 "Package" +:+ " " +:+ PyStr.rjust 5 "Pack" +:+ " " +:+
         PyStr.rjust 5 "Sign" +:+ " " +:+ PyStr.rjust 5 "Push") ;;
  print (PyStr.repeat "-" 75) ;;
  (fun st => for_each (results st) (fun r => print (summary_row r)) st) ;;
  print "".

(** Everything [main] does after the [results] list is complete. *)
Definition after_pack (args : Args) : M W unit :=
  stage_verify ;;
  stage_sign args ;;
  stage_publish args ;;
  summary.

Definition main (args : Args) : M W unit :=
  path_mkdir output_dir ;;
  banner args ;;
  stage_restore ;;
  stage_build ;;
  stage_pack args ;;
  after_pack args.

End Pipeline.

(** The state in which the script starts. *)
Definition initial_state {W : Type} (w : W) : State W := mkState w [] [].

(** The script as it is: [main] over its own [PACKAGES]. *)
Definition publish_packages {W : Type} (env : Env W) (root : Path) (args : Args)
  : M W unit :=
  main env root PACKAGES args.

(** ** A concrete world for examples

    The world lists the entry names of the output directory.  A pack
    command adds [<stem>.<version>.nupkg] and [<stem>.<version>.snupkg]; a
    command fails (exit code 1, with a message on stderr) when [fails] says
    so; archives contain a README when [readme] says so. *)

Module Sim.

Definition World := list string.

Definition packed_stem (argv : list string) : string :=
  PyPath.stem (PyPath.of_string (nth 2 argv "")).

Definition packed_version (argv : list string) : string :=
  let a := nth 6 argv "" in
  substring 18 (String.length a - 18) a.

Definition effect (cmd : Cmd) (w : World) : World :=
  match cmd with
  | CmdList argv =>
      if String.eqb (nth 1 argv "") "pack" then
        let base := packed_stem argv +:+ "." +:+ packed_version argv in
        (base +:+ ".nupkg") :: (base +:+ ".snupkg") :: w
      else w
  | CmdStr _ => w
  end.

Definition env (fails : Cmd -> bool) (readme : string -> bool) : Env World :=
  {| subprocess_run cmd _ w :=
       if fails cmd
       then (Some (mkCompleted 1 "" (" error: tool failed" +:+ PyStr.nl)), w)
       else (Some (mkCompleted 0 "" ""), effect cmd w);
     mkdir _ w := Some w;
     listdir _ w := list_to_set w;
     namelist p _ :=
       Some (if readme p then ["pkg.nuspec"; "README.md"] else ["pkg.nuspec"]) |}.

Definition never {A} (_ : A) : bool := false.
Definition always {A} (_ : A) : bool := true.

Definition repo : Path := PyPath.of_string "/repo".

Definition dry_run : Args := mkArgs "1.0.0" None false false None None.

Definition release : Args :=
  mkArgs "1.0.0" (Some "KEY") true true (Some "cert.pfx") (Some "pass word").

(** Fails exactly the pack command of project [p]. *)
Definition fails_pack_of (p : string) (cmd : Cmd) : bool :=
  match cmd with
  | CmdList argv =>
      String.eqb (nth 1 argv "") "pack" &&
      String.eqb (nth 2 argv "") (PyPath.to_string (repo </> p))
  | CmdStr _ => false
  end.

End Sim.

(** ** Vocabulary of the properties *)

Section Relations.
Context {W : Type}.

(** A relation between the state before and the state after that holds
    however the computation ends. *)
Definition respects (R : State W -> State W -> Prop) {A} (m : M W A) : Prop :=
  forall st, R st (snd (m st)).

(** Computations that cannot return normally. *)
Definition never_returns {A} (m : M W A) : Prop :=
  forall st a, fst (m st) <> Returned a.

End Relations.

(** The commands handed to [subprocess.run], in order. *)
Fixpoint commands (tr : list Event) : list Cmd :=
  match tr with
  | [] => []
  | ERun c _ _ :: tr' => c :: commands tr'
  | _ :: tr' => commands tr'
  end.

(** The archives opened by the verifier, in order. *)
Fixpoint zip_opens (tr : list Event) : list string :=
  match tr with
  | [] => []
  | EZipOpen p :: tr' => p :: zip_opens tr'
  | _ :: tr' => zip_opens tr'
  end.

Fixpoint starts_with_words (pre argv : list string) : bool :=
  match pre, argv with
  | [], _ => true
  | x :: pre', y :: argv' => String.eqb x y && starts_with_words pre' argv'
  | _ :: _, [] => false
  end.

Definition argv_starts (pre : list string) (cmd : Cmd) : bool :=
  match cmd with
  | CmdList argv => starts_with_words pre argv
  | CmdStr _ => false
  end.

Definition is_pack_cmd : Cmd -> bool := argv_starts ["dotnet"; "pack"].
Definition is_sign_cmd : Cmd -> bool := argv_starts ["dotnet"; "nuget"; "sign"].
Definition is_push_cmd : Cmd -> bool := argv_starts ["dotnet"; "nuget"; "push"].

(** The commands of a trace that satisfy [P]. *)
Definition invoked (P : Cmd -> bool) (tr : list Event) : list Cmd :=
  List.filter P (commands tr).

(** An event filter: prints and [mkdir] always pass, a subprocess passes
    when its command satisfies [okc], an archive read when [okz] holds. *)
Definition event_ok (okc : Cmd -> bool) (okz : bool) (e : Event) : Prop :=
  match e with
  | ERun c _ _ => okc c = true
  | EZipOpen _ => okz = true
  | EPrint _ | EMkdir _ => True
  end.

(** [tr'] is [tr] followed by events that all satisfy [ok]. *)
Definition extends (ok : Event -> Prop) (tr tr' : list Event) : Prop :=
  exists d, tr' = tr ++ d /\ Forall ok d.

(** An event of the verify, sign or publish stage. *)
Definition post_pack_event (e : Event) : bool :=
  match e with
  | EZipOpen _ => true
  | ERun c _ _ => is_sign_cmd c || is_push_cmd c
  | EPrint _ | EMkdir _ => false
  end.

Definition not_sign_or_push (c : Cmd) : bool :=
  negb (is_sign_cmd c || is_push_cmd c).

Definition not_push (c : Cmd) : bool := negb (is_push_cmd c).
Definition not_sign (c : Cmd) : bool := negb (is_sign_cmd c).
Definition not_pack (c : Cmd) : bool := negb (is_pack_cmd c).

Definition unpublished (r : Result) : Prop := published r = false.
Definition unsigned (r : Result) : Prop := signed r = false.

Definition any_cmd (c : Cmd) : bool := true.

(** A pattern character that stands for itself. *)
Definition plain (c : ascii) : bool := negb (Ascii.eqb c "*" || Ascii.eqb c "?").

(** [r'] is [r] with the same name and no flag lowered. *)
Definition rec_le (r r' : Result) : Prop :=
  name r' = name r /\
  (packed r = true -> packed r' = true) /\
  (signed r = true -> signed r' = true) /\
  (published r = true -> published r' = true).

(** [rs'] keeps every record of [rs], in place and no flag lowered, and may
    have further records after them. *)
Definition reg_le (rs rs' : list Result) : Prop :=
  exists kept added, rs' = kept ++ added /\ Forall2 rec_le rs kept.

Definition registry_grows {W : Type} (st st' : State W) : Prop :=
  reg_le (results st) (results st').

Definition keeps (P : Result -> Prop) (rs rs' : list Result) : Prop :=
  Forall P rs -> Forall P rs'.

Definition any_registry (rs rs' : list Result) : Prop := True.

Section FrameDefs.
Context {W : Type}.
Variable okc : Cmd -> bool.
Variable okz : bool.
Variable RR : list Result -> list Result -> Prop.

(** The trace grew by events that pass the filter and the registry moved
    along [RR]. *)
Definition framed (st st' : State W) : Prop :=
  extends (event_ok okc okz) (trace st) (trace st') /\
  RR (results st) (results st').

Definition frames {A} (m : M W A) : Prop := respects framed m.

End FrameDefs.

Section StageDefs.
Context {W : Type} (env : Env W) (root : Path) (projects : list string).

(** The record the pack loop appends for a project. *)
Definition fresh_result (project : string) : Result :=
  mkResult (project_name root project) true false false.

(** The names a stage iterates over when it globs [pat] in world [w]. *)
Definition archives (pat : string) (w : W) : list string :=
  PyStr.sorted
    (List.filter (PyStr.fnmatch pat) (elements (listdir env (output_dir root) w))).

Definition archive_path (n : string) : string :=
  PyPath.child_string (output_dir root) n.

(** What verifying archive [n] adds to the trace when it can be read. *)
Definition verify_report (w : W) (n : string) : list Event :=
  [EZipOpen (archive_path n);
   EPrint (verify_line n (default [] (namelist env (archive_path n) w)))].

(** The registry after marking for each archive of a list in turn. *)
Definition marked_all (k : Key) (l : list string) (rs : list Result) : list Result :=
  fold_left (fun acc n => match_and_mark k n acc) l rs.

(** The state of a run once the output directory [w1] is there and the
    banner is printed. *)
Definition started (args : Args) (w1 : W) : State W :=
  mkState w1
    (EMkdir (output_dir root) ::
     List.map EPrint
       [PyStr.nl +:+ PyStr.repeat "=" 60;
        "WorkflowForge Package Publisher v" +:+ version args;
        "Mode: " +:+ (if publish args then "PUBLISH" else "DRY RUN");
        "Sign: " +:+ (if sign args then "Yes" else "No");
        PyStr.repeat "=" 60 +:+ PyStr.nl])
    [].

(** [main] up to and including the pack stage, followed by [k]. *)
Definition through_pack {A} (args : Args) (k : M W A) : M W A :=
  bind (path_mkdir env (output_dir root)) (fun _ =>
  bind (banner args) (fun _ =>
  bind (stage_restore env root) (fun _ =>
  bind (stage_build env root) (fun _ =>
  bind (stage_pack env root projects args) (fun _ => k))))).

End StageDefs.

(** A subprocess that completed with a non-zero exit code. *)
Definition run_failed (e : Event) : bool :=
  match e with
  | ERun _ _ (Some r) => negb (returncode r =? 0)%Z
  | _ => false
  end.

(** The line [run] prints for a failed command. *)
Definition error_line (r : CompletedProcess) : Event :=
  EPrint ("  ERROR: " +:+ PyStr.strip (stderr r)).

Definition no_failure (d : list Event) : Prop :=
  Forall (fun e => run_failed e = false) d.

(** [d] is failure-free up to its last two events, which are a command that
    exited non-zero and the error line printed for it. *)
Definition ends_in_failure (d : list Event) : Prop :=
  exists (d0 : list Event) c cwd r,
    d = d0 ++ [ERun c cwd (Some r); error_line r] /\
    no_failure d0 /\ returncode r <> 0%Z.

Definition is_print (e : Event) : bool :=
  match e with
  | EPrint _ => true
  | _ => false
  end.

(** A trace without its printed lines. *)
Definition actions (tr : list Event) : list Event :=
  List.filter (fun e => negb (is_print e)) tr.

(** The environment [env] with other archive contents. *)
Definition with_namelist {W : Type} (env : Env W)
    (nl : string -> W -> option (list string)) : Env W :=
  {| subprocess_run := subprocess_run env;
     mkdir := mkdir env;
     listdir := listdir env;
     namelist := nl |}.

Section RunRelations.
Context {W : Type}.

(** A computation whose added events contain a failed command only as the
    last thing before the program exits with status 1. *)
Definition fail_stop {A} (m : M W A) : Prop :=
  forall st, exists d : list Event,
    trace (snd (m st)) = trace st ++ d /\
    match fst (m st) with
    | Exited c => no_failure d \/ (c = 1%Z /\ ends_in_failure d)
    | _ => no_failure d
    end.

(** Two states that agree on everything but the printed lines. *)
Definition twin (st st' : State W) : Prop :=
  world st = world st' /\ results st = results st' /\
  actions (trace st) = actions (trace st').

(** Two computations that, from twin states, end the same way in twin
    states. *)
Definition alike {A} (m m' : M W A) : Prop :=
  forall st st', twin st st' ->
    fst (m st) = fst (m' st') /\ twin (snd (m st)) (snd (m' st')).

End RunRelations.

(** ** Vocabulary of the further properties *)

(** An environment in which nothing goes wrong: directories can be made,
    every command starts and exits zero, every archive can be read. *)
Definition env_succeeds {W : Type} (env : Env W) : Prop :=
  (forall p w, mkdir env p w <> None) /\
  (forall cmd cwd w, exists r w',
      subprocess_run env cmd cwd w = (Some r, w') /\ returncode r = 0%Z) /\
  (forall p w, namelist env p w <> None).

(** The options each requested stage needs are there. *)
Definition well_configured (args : Args) : Prop :=
  (sign args = true -> truthy (cert_path args) = true) /\
  (publish args = true -> truthy (api_key args) = true).

(** [rs'] has the records of [rs], with the same names and [packed] flags. *)
Definition same_rows (rs rs' : list Result) : Prop :=
  List.map name rs' = List.map name rs /\
  List.map packed rs' = List.map packed rs.

(** What marking for every archive of [l] does to one record. *)
Definition marked_by (k : Key) (l : list string) (r : Result) : Result :=
  if existsb (name_matches r) l then set_true k r else r.

(** The lines of the summary table for a registry. *)
Definition summary_lines (rs : list Result) : list string :=
  [PyStr.nl +:+ PyStr.repeat "=" 60;
   "SUMMARY";
   PyStr.repeat "=" 60;
   PyStr.ljust 55 "Package" +:+ " " +:+ PyStr.rjust 5 "Pack" +:+ " " +:+
   PyStr.rjust 5 "Sign" +:+ " " +:+ PyStr.rjust 5 "Push";
   PyStr.repeat "-" 75]
  ++ List.map summary_row rs ++ [""].

Section Endings.
Context {W : Type}.

(** A computation that returns from every state. *)
Definition completes {A} (m : M W A) : Prop :=
  forall st, exists a st', m st = (Returned a, st').


(** A computation that leaves the world and the registry alone and runs no
    command. *)
Definition read_only {A} (m : M W A) : Prop :=
  forall st,
    world (snd (m st)) = world st /\
    results (snd (m st)) = results st /\
    commands (trace (snd (m st))) = commands (trace st).

End Endings.

(** The three flag cells of a row, with the blanks before them. *)
Definition flag_cells (r : Result) : string :=
  " " +:+ PyStr.rjust 5 (flag_text (packed r)) +:+ " " +:+
  PyStr.rjust 5 (flag_text (signed r)) +:+ " " +:+
  PyStr.rjust 5 (flag_text (published r)).

Definition no_cmd (c : Cmd) : bool := false.

Section CommandOrder.
Context {W : Type}.

(** A computation whose added events carry commands that satisfy [P]. *)
Definition adds {A} (P : list Cmd -> Prop) (m : M W A) : Prop :=
  forall st, exists d : list Event,
    trace (snd (m st)) = trace st ++ d /\ P (commands d).

End CommandOrder.

(** Commands that satisfy [P] followed by commands that satisfy [Q]. *)
Definition in_turn (P Q : list Cmd -> Prop) (cs : list Cmd) : Prop :=
  exists c1 c2 : list Cmd, cs = c1 ++ c2 /\ P c1 /\ Q c2.

(** No command, or the one command [c]. *)
Definition at_most (c : Cmd) (cs : list Cmd) : Prop := cs = [] \/ cs = [c].

(** The first few of the commands [l], in order. *)
Definition first_of (l : list Cmd) (cs : list Cmd) : Prop :=
  exists n : nat, cs = firstn n l.

Definition all_of (P : Cmd -> bool) (cs : list Cmd) : Prop :=
  Forall (fun c => P c = true) cs.

(** The line [run] prints before it starts [cmd]. *)
Definition echo (cmd : Cmd) : Event := EPrint ("  > " +:+ cmd_text cmd).

(** Events among which every command comes right after the line that echoes
    it. *)
Definition echoed (d : list Event) : Prop :=
  forall pre c cwd r post,
    d = pre ++ ERun c cwd r :: post -> exists pre', pre = pre' ++ [echo c].

Definition is_run (e : Event) : bool :=
  match e with
  | ERun _ _ _ => true
  | _ => false
  end.

Section EchoDefs.
Context {W : Type}.

(** A computation whose added events are [echoed]. *)
Definition echoes {A} (m : M W A) : Prop :=
  forall st, exists d : list Event,
    trace (snd (m st)) = trace st ++ d /\ echoed d.

End EchoDefs.

(** ** Inputs of the concrete runs *)

Module Runs.
Import Sim.

Definition ok_env : Env World := env never always.
Definition bare_env : Env World := env never never.
Definition broken_env : Env World := env always always.
Definition b_fails_env : Env World := env (fails_pack_of "src/B/B.csproj") always.

Definition two : list string := ["src/A/A.csproj"; "src/B/B.csproj"].
Definition foo : list string := ["src/Foo/Foo.csproj"].

Definition start : State World := initial_state [].

(** Signing and publishing requested with neither certificate nor key. *)
Definition unconfigured : Args := mkArgs "1.0.0" None true true None None.

Definition failure : CompletedProcess :=
  mkCompleted 1 "" (" error: tool failed" +:+ PyStr.nl).

Definition after_a : State World :=
  snd (stage_pack b_fails_env repo ["src/A/A.csproj"] dry_run start).

Definition packed_foo : State World :=
  mkState ["Foo.1.0.0.nupkg"; "Foo.1.0.0.snupkg"] []
          [mkResult "Foo" true false false].

(** Fails [dotnet build] and nothing else. *)
Definition build_fails_env : Env World := env (argv_starts ["dotnet"; "build"]) always.

(** The output directory cannot be made. *)
Definition no_dir_env : Env World :=
  {| subprocess_run := subprocess_run ok_env;
     mkdir _ _ := None;
     listdir := listdir ok_env;
     namelist := namelist ok_env |}.

(** The package of [B] cannot be read; every other archive can. *)
Definition unreadable_env : Env World :=
  with_namelist ok_env
    (fun p w => if String.eqb p "/repo/packages/B.1.0.0.nupkg" then None
                else namelist ok_env p w).

(** Two projects packed, nothing signed or published yet. *)
Definition packed_two : State World :=
  mkState ["A.1.0.0.nupkg"; "A.1.0.0.snupkg"; "B.1.0.0.nupkg"; "B.1.0.0.snupkg";
           "C.1.0.0.nupkg"]
          []
          [packed_result "A"; packed_result "B"; packed_result "C"].

(** Fails every command whose fourth word is the symbols package of [Foo]. *)
Definition on_foo_symbols (cmd : Cmd) : bool :=
  match cmd with
  | CmdList argv => String.eqb (nth 3 argv "") "/repo/packages/Foo.1.0.0.snupkg"
  | CmdStr _ => false
  end.

Definition symbols_fail_env : Env World := env on_foo_symbols always.

(** [packed_foo] once the heading of the sign, or of the publish, stage is
    printed. *)
Definition signing_foo : State World :=
  mkState (world packed_foo)
          [EPrint (PyStr.nl +:+ "[4.5/5] Signing packages...")]
          (results packed_foo).

Definition publishing_foo : State World :=
  mkState (world packed_foo)
          [EPrint (PyStr.nl +:+ "[5/5] Publishing to NuGet...")]
          (results packed_foo).

End Runs.

(** * Properties *)

(** ** Strings *)

Example stem_csproj :
  PyPath.stem (PyPath.of_string "/repo" </> "src/core/WorkflowForge.Testing/WorkflowForge.Testing.csproj")
  = "WorkflowForge.Testing".
Proof. reflexivity. Qed.

Example to_string_joined :
  PyPath.to_string (PyPath.of_string "/repo/" </> "./packages")
  = "/repo/packages".
Proof. reflexivity. Qed.

Example fnmatch_examples :
  PyStr.fnmatch "*.nupkg" "Foo.1.0.0.nupkg" = true /\
  PyStr.fnmatch "*.nupkg" "Foo.1.0.0.snupkg" = false /\
  PyStr.fnmatch "*.*nupkg" "Foo.1.0.0.snupkg" = true /\
  PyStr.fnmatch "*.*nupkg" "nupkg" = false.
Proof. repeat split; reflexivity. Qed.

Example sorted_names :
  PyStr.sorted ["b.nupkg"; "a.snupkg"; "a.nupkg"] = ["a.nupkg"; "a.snupkg"; "b.nupkg"].
Proof. vm_compute. reflexivity. Qed.

Example strip_stderr :
  PyStr.strip (" error: boom " +:+ PyStr.nl) = "error: boom".
Proof. reflexivity. Qed.

Lemma append_nil (t : string) : "" +:+ t = t.
Proof. reflexivity. Qed.

Lemma append_String (a : ascii) (s t : string) :
  String a s +:+ t = String a (s +:+ t).
Proof. reflexivity. Qed.

Lemma prefix_iff_app (p s : string) :
  String.prefix p s = true <-> exists t, s = p +:+ t.
Proof.
  revert s. induction p as [|a p IH]; intros s.
  - split; [intros _; exists s; reflexivity | intros _; destruct s; reflexivity].
  - destruct s as [|b s]; simpl.
    + split; [discriminate | intros [t Ht]; discriminate].
    + destruct (ascii_dec a b) as [->|Hne].
      * rewrite IH. split; intros [t Ht]; exists t; rewrite append_String in *;
          congruence.
      * split; [discriminate |].
        intros [t Ht]. rewrite append_String in Ht. congruence.
Qed.

Lemma startswith_iff (s p : string) :
  PyStr.startswith s p = true <-> exists t, s = p +:+ t.
Proof. apply prefix_iff_app. Qed.

Lemma string_app_assoc (a b c : string) : (a +:+ b) +:+ c = a +:+ (b +:+ c).
Proof.
  induction a as [|x a IH]; [reflexivity |].
  rewrite !append_String, IH. reflexivity.
Qed.

(** ** Name matching and marking *)

Lemma name_set_true k r : name (set_true k r) = name r.
Proof. destruct k; reflexivity. Qed.

Lemma name_matches_set_true k r a :
  name_matches (set_true k r) a = name_matches r a.
Proof. unfold name_matches. rewrite name_set_true. reflexivity. Qed.

Lemma set_true_idem k r : set_true k (set_true k r) = set_true k r.
Proof. destruct k; reflexivity. Qed.

(** C2: a record matches an archive filename exactly when the record's name
    followed by a dot is a prefix of the filename; so a record named [Foo]
    matches [Foo.1.2.3.archive] and [Foo.1.2.3.symbols.archive] and does not
    match [FooBar.1.0.0.archive]. *)
Theorem name_matching_is_dotted_prefix :
  (forall (r : Result) (archive : string),
      name_matches r archive = true <->
      exists rest, archive = name r +:+ "." +:+ rest) /\
  (forall (p s q : bool),
      let foo := mkResult "Foo" p s q in
      name_matches foo "Foo.1.2.3.archive" = true /\
      name_matches foo "Foo.1.2.3.symbols.archive" = true /\
      name_matches foo "FooBar.1.0.0.archive" = false).
Proof.
  split.
  - intros r archive. unfold name_matches. rewrite startswith_iff.
    split; intros [t Ht]; exists t; rewrite Ht;
      [apply string_app_assoc | symmetry; apply string_app_assoc].
  - intros p s q. repeat split; reflexivity.
Qed.

(** C9: marking is idempotent: applying [match_and_mark] twice with the same
    archive and key gives the same list as applying it once. *)
Theorem match_and_mark_idempotent (k : Key) (archive : string) (rs : list Result) :
  match_and_mark k archive (match_and_mark k archive rs)
  = match_and_mark k archive rs.
Proof.
  unfold match_and_mark. rewrite List.map_map.
  apply List.map_ext. intros r.
  destruct (name_matches r archive) eqn:Hm.
  - rewrite name_matches_set_true, Hm. apply set_true_idem.
  - rewrite Hm. reflexivity.
Qed.

(** ** The execution monad *)

Section MonadFacts.
Context {W : Type}.
Implicit Types st : State W.

Lemma bind_returned {A B} (m : M W A) (k : A -> M W B) st a st1 :
  m st = (Returned a, st1) -> bind m k st = k a st1.
Proof. intros H. unfold bind. rewrite H. reflexivity. Qed.

Lemma bind_exited {A B} (m : M W A) (k : A -> M W B) st c st1 :
  m st = (Exited c, st1) -> bind m k st = (Exited c, st1).
Proof. intros H. unfold bind. rewrite H. reflexivity. Qed.

Lemma bind_raised {A B} (m : M W A) (k : A -> M W B) st e st1 :
  m st = (Raised e, st1) -> bind m k st = (Raised e, st1).
Proof. intros H. unfold bind. rewrite H. reflexivity. Qed.

Lemma bind_returned_inv {A B} (m : M W A) (k : A -> M W B) st b st2 :
  bind m k st = (Returned b, st2) ->
  exists a st1, m st = (Returned a, st1) /\ k a st1 = (Returned b, st2).
Proof.
  unfold bind. destruct (m st) as [[a|c|e] st1]; intros H;
    [exists a, st1; auto | discriminate | discriminate].
Qed.

Lemma bind_assoc {A B C} (m : M W A) (k : A -> M W B) (h : B -> M W C) st :
  bind (bind m k) h st = bind m (fun a => bind (k a) h) st.
Proof. unfold bind. destruct (m st) as [[a|c|e] st1]; reflexivity. Qed.

Lemma for_each_app {A} (l1 l2 : list A) (body : A -> M W unit) st :
  for_each (l1 ++ l2) body st
  = bind (for_each l1 body) (fun _ => for_each l2 body) st.
Proof.
  revert st. induction l1 as [|x l1 IH]; intros st; [reflexivity |].
  simpl. rewrite bind_assoc.
  destruct (body x st) as [[[]|c|e] st1] eqn:Hx.
  - rewrite !(bind_returned _ _ _ _ _ Hx). apply IH.
  - rewrite !(bind_exited _ _ _ _ _ Hx). reflexivity.
  - rewrite !(bind_raised _ _ _ _ _ Hx). reflexivity.
Qed.

Section Respects.
Variable R : State W -> State W -> Prop.
Hypothesis R_refl : forall st, R st st.
Hypothesis R_trans : forall s1 s2 s3, R s1 s2 -> R s2 s3 -> R s1 s3.

Lemma respects_ret {A} (a : A) : respects R (ret a).
Proof. intros st. apply R_refl. Qed.

Lemma respects_sys_exit {A} c : respects R (@sys_exit W A c).
Proof. intros st. apply R_refl. Qed.

Lemma respects_bind {A B} (m : M W A) (k : A -> M W B) :
  respects R m -> (forall a, respects R (k a)) -> respects R (bind m k).
Proof.
  intros Hm Hk st. unfold bind. specialize (Hm st).
  destruct (m st) as [[a|c|e] st1]; simpl in *; [|assumption|assumption].
  eapply R_trans; [exact Hm | apply Hk].
Qed.

Lemma respects_for_each {A} (l : list A) (body : A -> M W unit) :
  (forall x, In x l -> respects R (body x)) -> respects R (for_each l body).
Proof.
  induction l as [|x l IH]; intros Hb; simpl.
  - apply respects_ret.
  - apply respects_bind; [apply Hb; left; reflexivity |].
    intros _. apply IH. intros y Hy. apply Hb. right. exact Hy.
Qed.

Lemma respects_if {A} (b : bool) (m1 m2 : M W A) :
  respects R m1 -> respects R m2 -> respects R (if b then m1 else m2).
Proof. destruct b; auto. Qed.
End Respects.

Lemma never_returns_bind_l {A B} (m : M W A) (k : A -> M W B) :
  never_returns m -> never_returns (bind m k).
Proof.
  intros Hm st b. unfold bind. specialize (Hm st).
  destruct (m st) as [[a|c|e] st1]; simpl in *; [|discriminate|discriminate].
  exfalso. apply (Hm a). reflexivity.
Qed.

Lemma never_returns_bind_r {A B} (m : M W A) (k : A -> M W B) :
  (forall a, never_returns (k a)) -> never_returns (bind m k).
Proof.
  intros Hk st b. unfold bind.
  destruct (m st) as [[a|c|e] st1]; simpl; [apply Hk|discriminate|discriminate].
Qed.

End MonadFacts.

(** ** The command runner *)

Section RunFacts.
Context {W : Type} (env : Env W).
Implicit Types st : State W.

Lemma run_unfold cmd cwd check st :
  run env cmd cwd check st =
  let shown := EPrint ("  > " +:+ cmd_text cmd) in
  match subprocess_run env cmd cwd (world st) with
  | (Some r, w) =>
      if check && negb (returncode r =? 0)%Z then
        (Exited 1%Z,
         mkState w (trace st ++ [shown; ERun cmd cwd (Some r);
                                 EPrint ("  ERROR: " +:+ PyStr.strip (stderr r))])
                 (results st))
      else
        (Returned r,
         mkState w (trace st ++ [shown; ERun cmd cwd (Some r)]) (results st))
  | (None, w) =>
      (Raised "OSError",
       mkState w (trace st ++ [shown; ERun cmd cwd None]) (results st))
  end.
Proof.
  unfold run, bind, print, emit, subprocess, sys_exit, ret. simpl.
  destruct (subprocess_run env cmd cwd (world st)) as [[r|] w]; simpl.
  - destruct (check && negb (returncode r =? 0)%Z); simpl;
      rewrite <- ?app_assoc; reflexivity.
  - rewrite <- app_assoc. reflexivity.
Qed.

End RunFacts.

(** What [run] with [check] true does, by the exit code of its command. *)
Lemma run_check_outcomes {W : Type} (env : Env W)
    (cmd : Cmd) (cwd : option Path) (st : State W)
    (r : CompletedProcess) (w : W) :
  subprocess_run env cmd cwd (world st) = (Some r, w) ->
  let shown := EPrint ("  > " +:+ cmd_text cmd) in
  (returncode r <> 0%Z ->
   let halted :=
     mkState w (trace st ++ [shown; ERun cmd cwd (Some r);
                             EPrint ("  ERROR: " +:+ PyStr.strip (stderr r))])
             (results st) in
   run env cmd cwd true st = (Exited 1%Z, halted) /\
   forall (B : Type) (k : CompletedProcess -> M W B),
     bind (run env cmd cwd true) k st = (Exited 1%Z, halted)) /\
  (returncode r = 0%Z ->
   let after := mkState w (trace st ++ [shown; ERun cmd cwd (Some r)]) (results st) in
   run env cmd cwd true st = (Returned r, after) /\
   forall (B : Type) (k : CompletedProcess -> M W B),
     bind (run env cmd cwd true) k st = k r after).
Proof.
  intros Hsub shown. split; intros Hrc.
  - assert (Hrun : run env cmd cwd true st =
                   (Exited 1%Z,
                    mkState w (trace st ++ [shown; ERun cmd cwd (Some r);
                       EPrint ("  ERROR: " +:+ PyStr.strip (stderr r))]) (results st))).
    { rewrite run_unfold, Hsub. simpl.
      destruct (Z.eqb_spec (returncode r) 0) as [E|E]; [contradiction | reflexivity]. }
    split; [exact Hrun |]. intros B k. apply bind_exited. exact Hrun.
  - assert (Hrun : run env cmd cwd true st =
                   (Returned r,
                    mkState w (trace st ++ [shown; ERun cmd cwd (Some r)]) (results st))).
    { rewrite run_unfold, Hsub. simpl. rewrite Hrc. reflexivity. }
    split; [exact Hrun |]. intros B k. apply bind_returned. exact Hrun.
Qed.

(** ** The pack stage *)

Section PackFacts.
Context {W : Type} (env : Env W) (root : Path).
Implicit Types st : State W.

Lemma pack_project_unfold args p st :
  pack_project env root args p st =
  let cmd := pack_cmd root args p in
  let said := [EPrint ("  Packing " +:+ project_name root p +:+ "...");
               EPrint ("  > " +:+ cmd_text cmd)] in
  match subprocess_run env cmd (Some root) (world st) with
  | (Some r, w) =>
      if negb (returncode r =? 0)%Z then
        (Exited 1%Z,
         mkState w (trace st ++ said ++
                      [ERun cmd (Some root) (Some r);
                       EPrint ("  ERROR: " +:+ PyStr.strip (stderr r))])
                 (results st))
      else
        (Returned tt,
         mkState w (trace st ++ said ++ [ERun cmd (Some root) (Some r)])
                 (results st ++ [fresh_result root p]))
  | (None, w) =>
      (Raised "OSError",
       mkState w (trace st ++ said ++ [ERun cmd (Some root) None]) (results st))
  end.
Proof.
  unfold pack_project. unfold bind at 1. unfold print at 1, emit.
  unfold bind. rewrite run_unfold. simpl.
  destruct (subprocess_run env (pack_cmd root args p) (Some root) (world st))
    as [[r|] w]; simpl.
  - destruct (negb (returncode r =? 0)%Z); simpl;
      rewrite <- ?app_assoc; reflexivity.
  - rewrite <- app_assoc. reflexivity.
Qed.

Lemma pack_project_returned args p st st1 :
  pack_project env root args p st = (Returned tt, st1) ->
  results st1 = results st ++ [fresh_result root p].
Proof.
  rewrite pack_project_unfold. simpl.
  destruct (subprocess_run env (pack_cmd root args p) (Some root) (world st))
    as [[r|] w]; [|discriminate].
  destruct (negb (returncode r =? 0)%Z); [discriminate |].
  intros H. injection H as <-. reflexivity.
Qed.

Lemma pack_loop_returned args l st st1 :
  for_each l (pack_project env root args) st = (Returned tt, st1) ->
  results st1 = results st ++ List.map (fresh_result root) l.
Proof.
  revert st. induction l as [|p l IH]; intros st H; simpl in *.
  - injection H as <-. rewrite app_nil_r. reflexivity.
  - apply bind_returned_inv in H as ([] & st0 & Hp & Hl).
    apply IH in Hl. apply pack_project_returned in Hp.
    rewrite Hl, Hp, <- app_assoc. reflexivity.
Qed.

Lemma stage_pack_unfold projects args st :
  stage_pack env root projects args st =
  for_each projects (pack_project env root args)
    (mkState (world st)
             (trace st ++ [EPrint (PyStr.nl +:+ "[3/5] Packing NuGet packages...")])
             []).
Proof. reflexivity. Qed.

Lemma stage_pack_returned projects args st st1 :
  stage_pack env root projects args st = (Returned tt, st1) ->
  results st1 = List.map (fresh_result root) projects.
Proof.
  rewrite stage_pack_unfold. intros H.
  apply pack_loop_returned in H. exact H.
Qed.

End PackFacts.

(** C1: when the pack stage completes, the registry holds exactly one record
    per project, in the order of the project list, each with [packed] true
    and [signed] and [published] false. *)
Theorem pack_stage_registry {W : Type} (env : Env W) (root : Path)
    (projects : list string) (args : Args) (st st1 : State W) :
  stage_pack env root projects args st = (Returned tt, st1) ->
  results st1
  = List.map (fun p => mkResult (project_name root p) true false false) projects.
Proof.
  rewrite stage_pack_unfold. intros H.
  apply pack_loop_returned in H. simpl in H. exact H.
Qed.

(** C3: when the pack commands of the first [k-1] projects succeed and the
    one of project [k] exits non-zero, the pack stage ends the program with
    exit status 1 right after that command: nothing is invoked for the
    projects after [k], nothing that follows the stage runs, and the registry
    holds the records of the first [k-1] projects only, each with [packed]
    true. *)
Theorem pack_failure_halts {W : Type} (env : Env W) (root : Path)
    (args : Args) (pre : list string) (p : string) (post : list string)
    (st st1 : State W) (r : CompletedProcess) (w : W) :
  stage_pack env root pre args st = (Returned tt, st1) ->
  subprocess_run env (pack_cmd root args p) (Some root) (world st1) = (Some r, w) ->
  returncode r <> 0%Z ->
  let halted :=
    mkState w
      (trace st1 ++
         [EPrint ("  Packing " +:+ project_name root p +:+ "...");
          EPrint ("  > " +:+ cmd_text (pack_cmd root args p));
          ERun (pack_cmd root args p) (Some root) (Some r);
          EPrint ("  ERROR: " +:+ PyStr.strip (stderr r))])
      (List.map (fun q => mkResult (project_name root q) true false false) pre) in
  stage_pack env root (pre ++ p :: post) args st = (Exited 1%Z, halted) /\
  (forall (B : Type) (k : unit -> M W B),
      bind (stage_pack env root (pre ++ p :: post) args) k st = (Exited 1%Z, halted)) /\
  Forall (fun rec => packed rec = true) (results halted).
Proof.
  intros Hpre Hsub Hrc halted.
  assert (Hres : results st1 = List.map (fresh_result root) pre)
    by (eapply stage_pack_returned; exact Hpre).
  assert (Hrun : stage_pack env root (pre ++ p :: post) args st = (Exited 1%Z, halted)).
  { rewrite stage_pack_unfold in *. rewrite for_each_app.
    rewrite (bind_returned _ _ _ _ _ Hpre). simpl.
    apply bind_exited. rewrite pack_project_unfold. simpl.
    rewrite Hsub. destruct (Z.eqb_spec (returncode r) 0) as [E|E]; [contradiction|].
    simpl. unfold halted. rewrite Hres. reflexivity. }
  split; [exact Hrun |]. split.
  - intros B k. apply bind_exited. exact Hrun.
  - unfold halted. simpl. clear. induction pre; simpl; constructor; auto.
Qed.

(** ** Observations on traces *)

Lemma commands_app tr1 tr2 : commands (tr1 ++ tr2) = commands tr1 ++ commands tr2.
Proof.
  induction tr1 as [|[] tr1 IH]; simpl; rewrite ?IH; reflexivity.
Qed.

Lemma zip_opens_app tr1 tr2 : zip_opens (tr1 ++ tr2) = zip_opens tr1 ++ zip_opens tr2.
Proof.
  induction tr1 as [|[] tr1 IH]; simpl; rewrite ?IH; reflexivity.
Qed.

Lemma invoked_app P tr1 tr2 : invoked P (tr1 ++ tr2) = invoked P tr1 ++ invoked P tr2.
Proof. unfold invoked. rewrite commands_app. apply List.filter_app. Qed.

Lemma invoked_none_of_ok (P okc : Cmd -> bool) okz d :
  (forall c, okc c = true -> P c = false) ->
  Forall (event_ok okc okz) d -> invoked P d = [].
Proof.
  intros Hex Hd. induction Hd as [|e d He Hd IH]; [reflexivity |].
  destruct e as [line|c cwd r|p|p]; try exact IH.
  unfold invoked in *. simpl. rewrite (Hex c He). exact IH.
Qed.

Lemma extends_refl ok tr : extends ok tr tr.
Proof. exists []. split; [symmetry; apply app_nil_r | constructor]. Qed.

Lemma extends_trans ok tr1 tr2 tr3 :
  extends ok tr1 tr2 -> extends ok tr2 tr3 -> extends ok tr1 tr3.
Proof.
  intros (d1 & -> & H1) (d2 & -> & H2). exists (d1 ++ d2).
  split; [symmetry; apply app_assoc | apply Forall_app; split; assumption].
Qed.

Lemma extends_one (ok : Event -> Prop) tr e : ok e -> extends ok tr (tr ++ [e]).
Proof. intros He. exists [e]. split; [reflexivity | repeat constructor; exact He]. Qed.

(** ** Framing: what a stage may add to the trace and do to the registry *)

Section Frame.
Context {W : Type} (env : Env W) (root : Path).
Variable okc : Cmd -> bool.
Variable okz : bool.
Variable RR : list Result -> list Result -> Prop.
Context `{!PreOrder RR}.
Implicit Types st : State W.

Lemma framed_refl st : framed okc okz RR st st.
Proof. split; [apply extends_refl | reflexivity]. Qed.

Lemma framed_trans (s1 s2 s3 : State W) :
  framed okc okz RR s1 s2 -> framed okc okz RR s2 s3 -> framed okc okz RR s1 s3.
Proof.
  intros [T1 R1] [T2 R2].
  split; [eapply extends_trans | etransitivity]; eassumption.
Qed.

Lemma frames_ret {A} (a : A) : frames okc okz RR (ret a : M W A).
Proof. apply respects_ret, framed_refl. Qed.

Lemma frames_sys_exit {A} c : frames okc okz RR (@sys_exit W A c).
Proof. apply respects_sys_exit, framed_refl. Qed.

Lemma frames_bind {A B} (m : M W A) (k : A -> M W B) :
  frames okc okz RR m -> (forall a, frames okc okz RR (k a)) -> frames okc okz RR (bind m k).
Proof. apply respects_bind, framed_trans. Qed.

Lemma frames_for_each {A} (l : list A) (body : A -> M W unit) :
  (forall x, frames okc okz RR (body x)) -> frames okc okz RR (for_each l body).
Proof.
  intros Hb. apply respects_for_each;
    [apply framed_refl | apply framed_trans | intros x _; apply Hb].
Qed.

Lemma frames_emit e : event_ok okc okz e -> frames okc okz RR (emit e : M W unit).
Proof.
  intros He st. split; simpl; [apply extends_one, He | reflexivity].
Qed.

Lemma frames_print line : frames okc okz RR (print line : M W unit).
Proof. apply frames_emit. exact I. Qed.

Lemma frames_modify f : (forall rs, RR rs (f rs)) ->
  frames okc okz RR (modify_results f : M W unit).
Proof. intros Hf st. split; simpl; [apply extends_refl | apply Hf]. Qed.

Lemma frames_subprocess cmd cwd :
  okc cmd = true -> frames okc okz RR (subprocess env cmd cwd).
Proof.
  intros Hc st. unfold subprocess.
  destruct (subprocess_run env cmd cwd (world st)) as [[r|] w]; simpl;
    (split; simpl; [apply extends_one, Hc | reflexivity]).
Qed.

Lemma frames_run cmd cwd check :
  okc cmd = true -> frames okc okz RR (run env cmd cwd check).
Proof.
  intros Hc. unfold run.
  apply frames_bind; [apply frames_print | intros _].
  apply frames_bind; [apply frames_subprocess, Hc | intros r].
  destruct (check && negb (returncode r =? 0)%Z); [| apply frames_ret].
  apply frames_bind; [apply frames_print | intros _; apply frames_sys_exit].
Qed.

Lemma frames_mkdir p : frames okc okz RR (path_mkdir env p).
Proof.
  intros st. unfold path_mkdir.
  destruct (mkdir env p (world st)); simpl;
    (split; simpl; [apply extends_one; exact I | reflexivity]).
Qed.

Lemma frames_glob d pat : frames okc okz RR (glob env d pat).
Proof. intros st. apply framed_refl. Qed.

Lemma frames_zip p : okz = true -> frames okc okz RR (zip_namelist env p).
Proof.
  intros Hz st. unfold zip_namelist.
  destruct (namelist env p (world st)); simpl;
    (split; simpl; [apply extends_one, Hz | reflexivity]).
Qed.

Lemma frames_banner args : frames okc okz RR (banner (W := W) args).
Proof.
  unfold banner. repeat (apply frames_bind; [apply frames_print | intros _]).
  apply frames_print.
Qed.

Lemma frames_restore : okc restore_cmd = true -> frames okc okz RR (stage_restore env root).
Proof.
  intros Hc. unfold stage_restore.
  apply frames_bind; [apply frames_print | intros _].
  apply frames_bind; [apply frames_run, Hc | intros _; apply frames_ret].
Qed.

Lemma frames_build : okc build_cmd = true -> frames okc okz RR (stage_build env root).
Proof.
  intros Hc. unfold stage_build.
  apply frames_bind; [apply frames_print | intros _].
  apply frames_bind; [apply frames_run, Hc | intros _; apply frames_ret].
Qed.

Lemma frames_pack_project args p :
  okc (pack_cmd root args p) = true ->
  (forall rs, RR rs (rs ++ [fresh_result root p])) ->
  frames okc okz RR (pack_project env root args p).
Proof.
  intros Hc Hr. unfold pack_project.
  apply frames_bind; [apply frames_print | intros _].
  apply frames_bind; [apply frames_run, Hc | intros _].
  apply frames_modify, Hr.
Qed.

Lemma frames_pack projects args :
  (forall p, okc (pack_cmd root args p) = true) ->
  (forall rs, RR rs []) ->
  (forall rs p, RR rs (rs ++ [fresh_result root p])) ->
  frames okc okz RR (stage_pack env root projects args).
Proof.
  intros Hc Hnil Hr. unfold stage_pack.
  apply frames_bind; [apply frames_print | intros _].
  apply frames_bind; [apply frames_modify, Hnil | intros _].
  apply frames_for_each. intros p. apply frames_pack_project; auto.
Qed.

Lemma frames_verify_archive n : okz = true -> frames okc okz RR (verify_archive env root n).
Proof.
  intros Hz. unfold verify_archive.
  apply frames_bind; [apply frames_zip, Hz | intros names; apply frames_print].
Qed.

Lemma frames_verify : okz = true -> frames okc okz RR (stage_verify env root).
Proof.
  intros Hz. unfold stage_verify.
  apply frames_bind; [apply frames_print | intros _].
  apply frames_bind; [apply frames_glob | intros found].
  apply frames_for_each. intros n. apply frames_verify_archive, Hz.
Qed.

Lemma frames_sign_archive args n :
  okc (sign_cmd root args n) = true ->
  (forall rs, RR rs (match_and_mark k_signed n rs)) ->
  frames okc okz RR (sign_archive env root args n).
Proof.
  intros Hc Hr. unfold sign_archive.
  apply frames_bind; [apply frames_run, Hc | intros _; apply frames_modify, Hr].
Qed.

Lemma frames_sign args :
  (forall n, okc (sign_cmd root args n) = true) ->
  (forall n rs, RR rs (match_and_mark k_signed n rs)) ->
  frames okc okz RR (stage_sign env root args).
Proof.
  intros Hc Hr. unfold stage_sign.
  destruct (sign args); [| apply frames_ret].
  apply frames_bind; [apply frames_print | intros _].
  apply frames_bind.
  - destruct (negb (truthy (cert_path args))); [| apply frames_ret].
    apply frames_bind; [apply frames_print | intros _; apply frames_sys_exit].
  - intros _. apply frames_bind; [apply frames_glob | intros found].
    apply frames_for_each. intros n. apply frames_sign_archive; auto.
Qed.

Lemma frames_publish_archive args n :
  okc (push_cmd root args n) = true ->
  (forall rs, RR rs (match_and_mark k_published n rs)) ->
  frames okc okz RR (publish_archive env root args n).
Proof.
  intros Hc Hr. unfold publish_archive.
  apply frames_bind; [apply frames_print | intros _].
  apply frames_bind; [apply frames_run, Hc | intros _; apply frames_modify, Hr].
Qed.

Lemma frames_publish args :
  (forall n, okc (push_cmd root args n) = true) ->
  (forall n rs, RR rs (match_and_mark k_published n rs)) ->
  frames okc okz RR (stage_publish env root args).
Proof.
  intros Hc Hr. unfold stage_publish.
  destruct (publish args); [| apply frames_print].
  apply frames_bind; [apply frames_print | intros _].
  apply frames_bind.
  - destruct (negb (truthy (api_key args))); [| apply frames_ret].
    apply frames_bind; [apply frames_print | intros _; apply frames_sys_exit].
  - intros _. apply frames_bind; [apply frames_glob | intros found].
    apply frames_for_each. intros n. apply frames_publish_archive; auto.
Qed.

Lemma frames_summary : frames okc okz RR (summary (W := W)).
Proof.
  unfold summary. repeat (apply frames_bind; [apply frames_print | intros _]).
  apply frames_bind; [| intros _; apply frames_print].
  intros st. apply (frames_for_each (results st)). intros r. apply frames_print.
Qed.

End Frame.

(** ** Registry order *)

Lemma rec_le_refl r : rec_le r r.
Proof. repeat split; auto. Qed.

Lemma rec_le_trans r1 r2 r3 : rec_le r1 r2 -> rec_le r2 r3 -> rec_le r1 r3.
Proof.
  intros (N1 & P1 & S1 & B1) (N2 & P2 & S2 & B2).
  repeat split; [congruence | auto | auto | auto].
Qed.

Lemma rec_le_set_true k r : rec_le r (set_true k r).
Proof. destruct k; repeat split; auto. Qed.

Lemma rec_le_list_refl rs : Forall2 rec_le rs rs.
Proof. induction rs; constructor; [apply rec_le_refl | assumption]. Qed.

Lemma rec_le_list_trans l1 l2 l3 :
  Forall2 rec_le l1 l2 -> Forall2 rec_le l2 l3 -> Forall2 rec_le l1 l3.
Proof.
  intros H12. revert l3. induction H12 as [|a b l1 l2 Hab H12 IH]; intros l3 H23.
  - inversion H23; subst. constructor.
  - inversion H23 as [|b' c l2' l3' Hbc H23']; subst.
    constructor; [eapply rec_le_trans; eassumption | apply IH; assumption].
Qed.

Lemma reg_le_refl rs : reg_le rs rs.
Proof.
  exists rs, []. split; [symmetry; apply app_nil_r | apply rec_le_list_refl].
Qed.

Lemma rec_le_list_split l1 k a :
  Forall2 rec_le (l1 ++ a) k ->
  exists k1 k2, k = k1 ++ k2 /\ Forall2 rec_le l1 k1.
Proof.
  revert k. induction l1 as [|x l1 IH]; intros k H.
  - exists [], k. split; [reflexivity | constructor].
  - simpl in H. inversion H as [|x' y l' k' Hxy Hrest]; subst.
    destruct (IH _ Hrest) as (k1 & k2 & -> & Hk).
    exists (y :: k1), k2. split; [reflexivity | constructor; assumption].
Qed.

Lemma reg_le_trans r1 r2 r3 : reg_le r1 r2 -> reg_le r2 r3 -> reg_le r1 r3.
Proof.
  intros (k1 & a1 & -> & H1) (k2 & a2 & -> & H2).
  destruct (rec_le_list_split _ _ _ H2) as (k21 & k22 & -> & H21).
  exists k21, (k22 ++ a2). split; [symmetry; apply app_assoc |].
  eapply rec_le_list_trans; eassumption.
Qed.

Lemma reg_le_append rs r : reg_le rs (rs ++ [r]).
Proof. exists rs, [r]. split; [reflexivity | apply rec_le_list_refl]. Qed.

Lemma match_and_mark_steps k a rs :
  Forall2 (fun r r' => r' = r \/ r' = set_true k r) rs (match_and_mark k a rs).
Proof.
  induction rs as [|r rs IH]; simpl; constructor; [| exact IH].
  destruct (name_matches r a); auto.
Qed.

Lemma reg_le_mark k a rs : reg_le rs (match_and_mark k a rs).
Proof.
  exists (match_and_mark k a rs), []. split; [symmetry; apply app_nil_r |].
  induction rs as [|r rs IH]; simpl; constructor; [| exact IH].
  destruct (name_matches r a); [apply rec_le_set_true | apply rec_le_refl].
Qed.

Lemma match_and_mark_keeps (P : Result -> Prop) k a rs :
  (forall r, P r -> P (set_true k r)) ->
  Forall P rs -> Forall P (match_and_mark k a rs).
Proof.
  intros Hk H. induction H as [|r rs Hr H IH]; simpl; constructor; [| exact IH].
  destruct (name_matches r a); auto.
Qed.

(** ** The optional stages when they cannot or need not run *)

Section Unconfigured.
Context {W : Type} (env : Env W) (root : Path).
Implicit Types st : State W.

Lemma stage_sign_unconfigured args st :
  sign args = true -> truthy (cert_path args) = false ->
  stage_sign env root args st =
  (Exited 1%Z,
   mkState (world st)
           (trace st ++ [EPrint (PyStr.nl +:+ "[4.5/5] Signing packages...");
                         EPrint "  ERROR: --cert-path required for signing"])
           (results st)).
Proof.
  intros Hs Hc. unfold stage_sign. rewrite Hs, Hc.
  unfold bind, print, emit, sys_exit. simpl.
  rewrite <- app_assoc. reflexivity.
Qed.

Lemma stage_publish_unconfigured args st :
  publish args = true -> truthy (api_key args) = false ->
  stage_publish env root args st =
  (Exited 1%Z,
   mkState (world st)
           (trace st ++ [EPrint (PyStr.nl +:+ "[5/5] Publishing to NuGet...");
                         EPrint "  ERROR: --api-key required for publishing"])
           (results st)).
Proof.
  intros Hp Hk. unfold stage_publish. rewrite Hp, Hk.
  unfold bind, print, emit, sys_exit. simpl.
  rewrite <- app_assoc. reflexivity.
Qed.

Lemma stage_publish_off args st :
  publish args = false ->
  stage_publish env root args st =
  (Returned tt,
   mkState (world st)
           (trace st ++
              [EPrint (PyStr.nl +:+
                 "[5/5] Skipping publish (dry-run mode). Use --publish to push to NuGet.")])
           (results st)).
Proof. intros Hp. unfold stage_publish. rewrite Hp. reflexivity. Qed.

Lemma stage_sign_off args st :
  sign args = false -> stage_sign env root args st = (Returned tt, st).
Proof. intros Hs. unfold stage_sign. rewrite Hs. reflexivity. Qed.

End Unconfigured.

(** ** Whole-run frames *)

(** Applying a frame lemma; its order instance is found by resolution. *)
Tactic Notation "frame_by" uconstr(lem) := apply lem; [exact _ | ..].
Ltac frame_bind := apply frames_bind; [exact _ | | intros ?].

Section MainFrame.
Context {W : Type} (env : Env W) (root : Path) (projects : list string).
Variable okc : Cmd -> bool.
Variable okz : bool.
Variable RR : list Result -> list Result -> Prop.
Context `{!PreOrder RR}.

Lemma framed_prints (st : State W) lines :
  framed okc okz RR st
    (mkState (world st) (trace st ++ List.map EPrint lines) (results st)).
Proof.
  split; simpl; [| reflexivity].
  exists (List.map EPrint lines). split; [reflexivity |].
  induction lines; simpl; constructor; [exact I | assumption].
Qed.

Lemma frames_sign_unconfigured args :
  sign args = true -> truthy (cert_path args) = false ->
  frames okc okz RR (stage_sign env root args).
Proof.
  intros Hs Hc st. rewrite stage_sign_unconfigured by assumption.
  apply (framed_prints st [_; _]).
Qed.

Lemma frames_publish_unconfigured args :
  publish args = true -> truthy (api_key args) = false ->
  frames okc okz RR (stage_publish env root args).
Proof.
  intros Hp Hk st. rewrite stage_publish_unconfigured by assumption.
  apply (framed_prints st [_; _]).
Qed.

Lemma frames_publish_off args :
  publish args = false -> frames okc okz RR (stage_publish env root args).
Proof.
  intros Hp st. rewrite stage_publish_off by assumption.
  apply (framed_prints st [_]).
Qed.

Lemma frames_after_pack args :
  okz = true ->
  frames okc okz RR (stage_sign env root args) ->
  frames okc okz RR (stage_publish env root args) ->
  frames okc okz RR (after_pack env root args).
Proof.
  intros Hz Hsign Hpub. unfold after_pack.
  frame_bind; [frame_by frames_verify; assumption |].
  frame_bind; [exact Hsign |].
  frame_bind; [exact Hpub |].
  frame_by frames_summary.
Qed.

Lemma frames_before_verify args :
  okc restore_cmd = true -> okc build_cmd = true ->
  (forall p, okc (pack_cmd root args p) = true) ->
  (forall rs, RR rs []) ->
  (forall rs p, RR rs (rs ++ [fresh_result root p])) ->
  forall A (k : M W A), frames okc okz RR k ->
  frames okc okz RR
    (bind (path_mkdir env (output_dir root)) (fun _ =>
     bind (banner args) (fun _ =>
     bind (stage_restore env root) (fun _ =>
     bind (stage_build env root) (fun _ =>
     bind (stage_pack env root projects args) (fun _ => k)))))).
Proof.
  intros Hr Hb Hp Hnil Happ A k Hk.
  frame_bind; [frame_by frames_mkdir |].
  frame_bind; [frame_by frames_banner |].
  frame_bind; [frame_by frames_restore; assumption |].
  frame_bind; [frame_by frames_build; assumption |].
  frame_bind; [frame_by frames_pack; assumption |].
  exact Hk.
Qed.

Lemma frames_main args :
  okz = true ->
  okc restore_cmd = true -> okc build_cmd = true ->
  (forall p, okc (pack_cmd root args p) = true) ->
  (forall rs, RR rs []) ->
  (forall rs p, RR rs (rs ++ [fresh_result root p])) ->
  frames okc okz RR (stage_sign env root args) ->
  frames okc okz RR (stage_publish env root args) ->
  frames okc okz RR (main env root projects args).
Proof.
  intros Hz Hr Hb Hp Hnil Happ Hsign Hpub. unfold main.
  apply frames_before_verify; try assumption.
  apply frames_after_pack; assumption.
Qed.

End MainFrame.

(** Registry relations used with the frames. *)

#[global] Instance keeps_preorder (P : Result -> Prop) : PreOrder (keeps P).
Proof. split; [intros rs H; exact H | intros r1 r2 r3 H12 H23 H; auto]. Qed.

#[global] Instance any_registry_preorder : PreOrder any_registry.
Proof. split; [intros rs; exact I | intros r1 r2 r3 _ _; exact I]. Qed.

#[global] Instance reg_le_preorder : PreOrder reg_le.
Proof. split; [intros rs; apply reg_le_refl | intros r1 r2 r3; apply reg_le_trans]. Qed.

Lemma keeps_nil P rs : keeps P rs [].
Proof. intros _. constructor. Qed.

Lemma keeps_fresh (P : Result -> Prop) rs r : P r -> keeps P rs (rs ++ [r]).
Proof. intros Hr H. apply Forall_app. split; [exact H | repeat constructor; exact Hr]. Qed.

Lemma framed_from_initial {W : Type} okc okz RR (w : W) (fin : State W) (P : Cmd -> bool) :
  framed okc okz RR (initial_state w) fin ->
  (forall c, okc c = true -> P c = false) ->
  invoked P (trace fin) = [] /\ RR [] (results fin).
Proof.
  intros [(d & Hd & Hok) Hr] Hex. split; [| exact Hr].
  rewrite Hd. simpl. eapply invoked_none_of_ok; eassumption.
Qed.

Lemma not_cmd_excludes (P : Cmd -> bool) c : negb (P c) = true -> P c = false.
Proof. destruct (P c); [discriminate | reflexivity]. Qed.

Lemma not_invoked (P : Cmd -> bool) tr c :
  invoked P tr = [] -> P c = true -> ~ In c (commands tr).
Proof.
  intros Hnone Hc Hin.
  assert (Hf : In c (invoked P tr)) by (apply List.filter_In; auto).
  rewrite Hnone in Hf. destruct Hf.
Qed.

Section DryRun.
Context {W : Type} (env : Env W) (root : Path) (projects : list string).

Lemma frames_sign_no_push args :
  frames not_push true (keeps unpublished) (stage_sign env root args).
Proof.
  frame_by frames_sign.
  - intros n. reflexivity.
  - intros n rs H. apply match_and_mark_keeps; [| exact H].
    intros r Hr. exact Hr.
Qed.

Lemma frames_publish_no_sign args :
  frames not_sign true (keeps unsigned) (stage_publish env root args).
Proof.
  frame_by frames_publish.
  - intros n. reflexivity.
  - intros n rs H. apply match_and_mark_keeps; [| exact H].
    intros r Hr. exact Hr.
Qed.

Lemma main_without_push args :
  frames not_push true (keeps unpublished) (stage_publish env root args) ->
  frames not_push true (keeps unpublished) (main env root projects args).
Proof.
  intros Hpub. frame_by frames_main; try reflexivity.
  - intros rs. apply keeps_nil.
  - intros rs p. apply keeps_fresh. reflexivity.
  - apply frames_sign_no_push.
  - exact Hpub.
Qed.

Lemma main_without_sign args :
  frames not_sign true (keeps unsigned) (stage_sign env root args) ->
  frames not_sign true (keeps unsigned) (main env root projects args).
Proof.
  intros Hsign. frame_by frames_main; try reflexivity.
  - intros rs. apply keeps_nil.
  - intros rs p. apply keeps_fresh. reflexivity.
  - exact Hsign.
  - apply frames_publish_no_sign.
Qed.

Lemma sign_unconfigured_never_returns args :
  sign args = true -> truthy (cert_path args) = false ->
  never_returns (main env root projects args).
Proof.
  intros Hs Hc. unfold main, after_pack.
  do 6 (apply never_returns_bind_r; intros _).
  apply never_returns_bind_l. intros st a.
  rewrite stage_sign_unconfigured by assumption. discriminate.
Qed.

Lemma publish_unconfigured_never_returns args :
  publish args = true -> truthy (api_key args) = false ->
  never_returns (main env root projects args).
Proof.
  intros Hp Hk. unfold main, after_pack.
  do 7 (apply never_returns_bind_r; intros _).
  apply never_returns_bind_l. intros st a.
  rewrite stage_publish_unconfigured by assumption. discriminate.
Qed.

End DryRun.

(** C7: with [publish] unset, whatever [sign] is, the run invokes no push
    command, and every record of the registry has [published] false in the
    state the run ends in. *)
Theorem dry_run_publishes_nothing {W : Type} (env : Env W) (root : Path)
    (projects : list string) (args : Args) (w : W) :
  publish args = false ->
  let fin := snd (main env root projects args (initial_state w)) in
  invoked is_push_cmd (trace fin) = [] /\
  (forall nupkg, ~ In (push_cmd root args nupkg) (commands (trace fin))) /\
  Forall (fun r => published r = false) (results fin).
Proof.
  intros Hp fin.
  assert (Hf : framed not_push true (keeps unpublished) (initial_state w) fin).
  { apply main_without_push. frame_by frames_publish_off. exact Hp. }
  apply (framed_from_initial _ _ _ _ _ is_push_cmd) in Hf as [Hnone Hkeep].
  - split; [exact Hnone |]. split; [| apply Hkeep; constructor].
    intros nupkg. apply (not_invoked is_push_cmd); [exact Hnone | reflexivity].
  - intros c. apply not_cmd_excludes.
Qed.

(** C5: when signing is requested without a certificate path, the sign
    stage prints the error and ends the program with exit status 1 without
    touching world or registry; the whole run never returns normally, invokes
    no sign command and leaves no record marked signed.  The same holds of
    publishing requested without an API key, for push commands and the
    published mark. *)
Theorem missing_option_is_fatal {W : Type} (env : Env W) (root : Path)
    (projects : list string) (args : Args) :
  (sign args = true -> truthy (cert_path args) = false ->
   (forall st : State W,
       stage_sign env root args st =
       (Exited 1%Z,
        mkState (world st)
          (trace st ++ [EPrint (PyStr.nl +:+ "[4.5/5] Signing packages...");
                        EPrint "  ERROR: --cert-path required for signing"])
          (results st))) /\
   (forall w : W,
       let ending := main env root projects args (initial_state w) in
       (forall a, fst ending <> Returned a) /\
       invoked is_sign_cmd (trace (snd ending)) = [] /\
       (forall nupkg,
           ~ In (sign_cmd root args nupkg) (commands (trace (snd ending)))) /\
       Forall (fun r => signed r = false) (results (snd ending)))) /\
  (publish args = true -> truthy (api_key args) = false ->
   (forall st : State W,
       stage_publish env root args st =
       (Exited 1%Z,
        mkState (world st)
          (trace st ++ [EPrint (PyStr.nl +:+ "[5/5] Publishing to NuGet...");
                        EPrint "  ERROR: --api-key required for publishing"])
          (results st))) /\
   (forall w : W,
       let ending := main env root projects args (initial_state w) in
       (forall a, fst ending <> Returned a) /\
       invoked is_push_cmd (trace (snd ending)) = [] /\
       (forall nupkg,
           ~ In (push_cmd root args nupkg) (commands (trace (snd ending)))) /\
       Forall (fun r => published r = false) (results (snd ending)))).
Proof.
  split.
  - intros Hs Hc. split; [intros st; apply stage_sign_unconfigured; assumption |].
    intros w ending. split; [apply sign_unconfigured_never_returns; assumption |].
    assert (Hf : framed not_sign true (keeps unsigned) (initial_state w) (snd ending)).
    { apply main_without_sign. frame_by frames_sign_unconfigured; assumption. }
    apply (framed_from_initial _ _ _ _ _ is_sign_cmd) in Hf as [Hnone Hkeep].
    + split; [exact Hnone |]. split; [| apply Hkeep; constructor].
      intros nupkg. apply (not_invoked is_sign_cmd); [exact Hnone | reflexivity].
    + intros c. apply not_cmd_excludes.
  - intros Hp Hk. split; [intros st; apply stage_publish_unconfigured; assumption |].
    intros w ending. split; [apply publish_unconfigured_never_returns; assumption |].
    assert (Hf : framed not_push true (keeps unpublished) (initial_state w) (snd ending)).
    { apply main_without_push. frame_by frames_publish_unconfigured; assumption. }
    apply (framed_from_initial _ _ _ _ _ is_push_cmd) in Hf as [Hnone Hkeep].
    + split; [exact Hnone |]. split; [| apply Hkeep; constructor].
      intros nupkg. apply (not_invoked is_push_cmd); [exact Hnone | reflexivity].
    + intros c. apply not_cmd_excludes.
Qed.

(** ** Monotonicity of the registry *)

Lemma framed_registry_grows {W : Type} (m : M W unit) :
  frames any_cmd true reg_le m -> respects registry_grows m.
Proof. intros H st. apply (H st). Qed.

(** C10: once a record exists, its name never changes and none of its flags
    is ever lowered.  Marking replaces each record by itself or by itself
    with the marked flag set; appending keeps the records already there; and
    across the body of each loop and across each stage after the registry is
    created, however the stage ends, the registry before is below the
    registry after in [reg_le]. *)
Theorem registry_is_monotone {W : Type} (env : Env W) (root : Path) (args : Args) :
  (forall k archive rs,
      Forall2 (fun r r' => r' = r \/ r' = set_true k r) rs
              (match_and_mark k archive rs)) /\
  (forall k r, rec_le r (set_true k r)) /\
  (forall k archive rs, reg_le rs (match_and_mark k archive rs)) /\
  (forall rs r, reg_le rs (rs ++ [r])) /\
  (forall p, respects registry_grows (pack_project env root args p)) /\
  respects registry_grows (stage_verify env root) /\
  (forall n, respects registry_grows (sign_archive env root args n)) /\
  respects registry_grows (stage_sign env root args) /\
  (forall n, respects registry_grows (publish_archive env root args n)) /\
  respects registry_grows (stage_publish env root args) /\
  respects registry_grows (summary (W := W)) /\
  respects registry_grows (after_pack env root args).
Proof.
  assert (Hsign : frames any_cmd true reg_le (stage_sign env root args)).
  { frame_by frames_sign; [reflexivity | intros n rs; apply reg_le_mark]. }
  assert (Hpub : frames any_cmd true reg_le (stage_publish env root args)).
  { frame_by frames_publish; [reflexivity | intros n rs; apply reg_le_mark]. }
  assert (Hafter : frames any_cmd true reg_le (after_pack env root args)).
  { frame_by frames_after_pack; [reflexivity | | ]; assumption. }
  refine (conj (match_and_mark_steps) (conj rec_le_set_true (conj reg_le_mark
          (conj reg_le_append (conj _ (conj _ (conj _ (conj _ (conj _
          (conj _ (conj _ _))))))))))).
  - intros p. apply framed_registry_grows.
    frame_by frames_pack_project; [reflexivity | intros rs; apply reg_le_append].
  - apply framed_registry_grows. frame_by frames_verify. reflexivity.
  - intros n. apply framed_registry_grows.
    frame_by frames_sign_archive; [reflexivity | intros rs; apply reg_le_mark].
  - apply framed_registry_grows, Hsign.
  - intros n. apply framed_registry_grows.
    frame_by frames_publish_archive; [reflexivity | intros rs; apply reg_le_mark].
  - apply framed_registry_grows, Hpub.
  - apply framed_registry_grows. frame_by frames_summary.
  - apply framed_registry_grows, Hafter.
Qed.

(** ** Globbing and sorting *)

Lemma fnmatch_nil s : PyStr.fnmatch "" s = true <-> s = "".
Proof. destruct s; simpl; split; congruence. Qed.

Lemma fnmatch_star_eq p s :
  PyStr.fnmatch (String "*" p) s =
  PyStr.fnmatch p s ||
  match s with
  | EmptyString => false
  | String _ s' => PyStr.fnmatch (String "*" p) s'
  end.
Proof. destruct s; reflexivity. Qed.

Lemma fnmatch_star p s :
  PyStr.fnmatch (String "*" p) s = true <->
  exists x y, s = x +:+ y /\ PyStr.fnmatch p y = true.
Proof.
  induction s as [|a s IH]; rewrite fnmatch_star_eq, orb_true_iff.
  - split.
    + intros [H|H]; [exists "", ""; auto | discriminate].
    + intros (x & y & Hxy & Hy). left. destruct x; [| discriminate].
      rewrite append_nil in Hxy. subst y. exact Hy.
  - rewrite IH. split.
    + intros [H|(x & y & -> & Hy)].
      * exists "", (String a s). auto.
      * exists (String a x), y. auto.
    + intros (x & y & Hxy & Hy). destruct x as [|b x].
      * left. rewrite append_nil in Hxy. subst y. exact Hy.
      * right. rewrite append_String in Hxy. injection Hxy as -> ->.
        exists x, y. auto.
Qed.

Lemma fnmatch_plain c p s :
  plain c = true ->
  PyStr.fnmatch (String c p) s = true <->
  exists s', s = String c s' /\ PyStr.fnmatch p s' = true.
Proof.
  unfold plain. intros Hc. apply negb_true_iff, orb_false_iff in Hc as [Hs Hq].
  simpl. rewrite Hs. destruct s as [|a s].
  - split; [discriminate | intros (s' & H & _); discriminate].
  - rewrite Hq. simpl. rewrite andb_true_iff, Ascii.eqb_eq. split.
    + intros [-> H]. exists s. auto.
    + intros (s' & H & Hm). injection H as -> ->. auto.
Qed.

Lemma fnmatch_plain_text p s :
  forallb plain (list_ascii_of_string p) = true ->
  PyStr.fnmatch p s = true <-> s = p.
Proof.
  revert s. induction p as [|c p IH]; intros s Hp.
  - apply fnmatch_nil.
  - simpl in Hp. apply andb_true_iff in Hp as [Hc Hp].
    rewrite (fnmatch_plain c p s Hc). split.
    + intros (s' & -> & Hm). apply IH in Hm; [subst; reflexivity | exact Hp].
    + intros ->. exists p. split; [reflexivity | apply IH; auto].
Qed.

(** [*.nupkg] matches the names that end in [.nupkg]. *)
Lemma fnmatch_nupkg s :
  PyStr.fnmatch "*.nupkg" s = true <-> exists x, s = x +:+ ".nupkg".
Proof.
  rewrite fnmatch_star. split.
  - intros (x & y & -> & Hy). apply fnmatch_plain_text in Hy; [| reflexivity].
    subst y. exists x. reflexivity.
  - intros (x & ->). exists x, ".nupkg". split; [reflexivity |].
    apply fnmatch_plain_text; reflexivity.
Qed.

(** [*.*nupkg] matches the names that have a dot and, after it, end in
    [nupkg]. *)
Lemma fnmatch_any_nupkg s :
  PyStr.fnmatch "*.*nupkg" s = true <->
  exists x y, s = x +:+ "." +:+ y +:+ "nupkg".
Proof.
  rewrite fnmatch_star. split.
  - intros (x & t & -> & Ht).
    apply fnmatch_plain in Ht as (t' & -> & Ht'); [| reflexivity].
    apply fnmatch_star in Ht' as (y & z & -> & Hz).
    apply fnmatch_plain_text in Hz; [| reflexivity]. subst z.
    exists x, y. reflexivity.
  - intros (x & y & ->). exists x, ("." +:+ y +:+ "nupkg"). split; [reflexivity |].
    apply fnmatch_plain; [reflexivity |].
    exists (y +:+ "nupkg"). split; [reflexivity |].
    apply fnmatch_star. exists y, "nupkg". split; [reflexivity |].
    apply fnmatch_plain_text; reflexivity.
Qed.

Lemma fnmatch_nupkg_any s :
  PyStr.fnmatch "*.nupkg" s = true -> PyStr.fnmatch "*.*nupkg" s = true.
Proof.
  rewrite fnmatch_nupkg, fnmatch_any_nupkg. intros (x & ->).
  exists x, "". reflexivity.
Qed.

Lemma elem_of_list_filter (f : string -> bool) (l : list string) (x : string) :
  x ∈ List.filter f l <-> f x = true /\ x ∈ l.
Proof.
  rewrite !list_elem_of_In, List.filter_In. tauto.
Qed.

Lemma NoDup_list_filter (f : string -> bool) (l : list string) :
  NoDup l -> NoDup (List.filter f l).
Proof.
  induction 1 as [|x l Hx Hl IH]; simpl; [constructor |].
  destruct (f x); [| exact IH].
  constructor; [| exact IH]. rewrite elem_of_list_filter. tauto.
Qed.

Lemma sorted_elem_of l x : x ∈ PyStr.sorted l <-> x ∈ l.
Proof. unfold PyStr.sorted. rewrite merge_sort_Permutation. reflexivity. Qed.

Lemma sorted_NoDup l : NoDup l -> NoDup (PyStr.sorted l).
Proof. unfold PyStr.sorted. rewrite merge_sort_Permutation. auto. Qed.

Lemma sorted_StronglySorted l : StronglySorted String.le (PyStr.sorted l).
Proof. apply StronglySorted_merge_sort; apply _. Qed.

(** The sorted list is the only sorted arrangement of its elements. *)
Lemma sorted_unique l l' :
  Sorted String.le l' -> l' ≡ₚ l -> l' = PyStr.sorted l.
Proof.
  intros Hs Hp. apply (Sorted_unique String.le); [exact Hs | |].
  - apply Sorted_merge_sort. apply _.
  - unfold PyStr.sorted. rewrite merge_sort_Permutation. exact Hp.
Qed.

(** ** The archive loops *)

Section Loops.
Context {W : Type} (env : Env W) (root : Path).
Implicit Types st : State W.

Lemma archives_elem_of pat w n :
  n ∈ archives env root pat w <->
  PyStr.fnmatch pat n = true /\ n ∈ listdir env (output_dir root) w.
Proof.
  unfold archives. rewrite sorted_elem_of, elem_of_list_filter, elem_of_elements.
  reflexivity.
Qed.

Lemma archives_NoDup pat w : NoDup (archives env root pat w).
Proof. apply sorted_NoDup, NoDup_list_filter, NoDup_elements. Qed.

Lemma archives_sorted pat w : StronglySorted String.le (archives env root pat w).
Proof. apply sorted_StronglySorted. Qed.

Lemma glob_unfold d pat st :
  glob env d pat st =
  (Returned (List.filter (PyStr.fnmatch pat) (elements (listdir env d (world st)))), st).
Proof. reflexivity. Qed.

Lemma verify_archive_unfold n st :
  verify_archive env root n st =
  match namelist env (archive_path root n) (world st) with
  | Some names =>
      (Returned tt,
       mkState (world st)
               (trace st ++ [EZipOpen (archive_path root n); EPrint (verify_line n names)])
               (results st))
  | None =>
      (Raised "BadZipFile",
       mkState (world st) (trace st ++ [EZipOpen (archive_path root n)]) (results st))
  end.
Proof.
  unfold verify_archive, bind, zip_namelist, print, emit, archive_path.
  destruct (namelist env _ (world st)); simpl;
    rewrite <- ?app_assoc; reflexivity.
Qed.

Lemma verify_loop_readable l st :
  (forall n, In n l -> namelist env (archive_path root n) (world st) <> None) ->
  for_each l (verify_archive env root) st =
  (Returned tt,
   mkState (world st) (trace st ++ flat_map (verify_report env root (world st)) l)
           (results st)).
Proof.
  revert st. induction l as [|n l IH]; intros st Hl.
  - simpl. unfold ret. rewrite app_nil_r. destruct st; reflexivity.
  - simpl. unfold bind. rewrite verify_archive_unfold.
    destruct (namelist env (archive_path root n) (world st)) as [names|] eqn:Hn.
    + rewrite IH.
      * cbn [world trace results flat_map].
        rewrite <- app_assoc. reflexivity.
      * intros m Hm. apply Hl. right. exact Hm.
    + exfalso. apply (Hl n); [left; reflexivity | exact Hn].
Qed.

Lemma verify_loop_returned l st st1 :
  for_each l (verify_archive env root) st = (Returned tt, st1) ->
  forall n, In n l -> namelist env (archive_path root n) (world st) <> None.
Proof.
  revert st. induction l as [|m l IH]; intros st H n Hn; [destruct Hn |].
  simpl in H. apply bind_returned_inv in H as ([] & st0 & Hm & Hrest).
  rewrite verify_archive_unfold in Hm.
  destruct (namelist env (archive_path root m) (world st)) as [names|] eqn:E;
    [| discriminate].
  injection Hm as <-. destruct Hn as [<-|Hn]; [congruence |].
  apply (IH _ Hrest n Hn).
Qed.

Lemma zip_opens_reports w l :
  zip_opens (flat_map (verify_report env root w) l) = List.map (archive_path root) l.
Proof. induction l as [|n l IH]; simpl; [reflexivity | rewrite IH; reflexivity]. Qed.

Lemma stage_verify_unfold st :
  stage_verify env root st =
  for_each (archives env root "*.nupkg" (world st)) (verify_archive env root)
    (mkState (world st)
             (trace st ++ [EPrint (PyStr.nl +:+ "[4/5] Verifying packages...")])
             (results st)).
Proof. reflexivity. Qed.

(** A loop whose body, when it returns, has run one command and updated
    the registry. *)
Lemma loop_commands {A} (body : A -> M W unit) (cmd : A -> Cmd)
      (upd : A -> list Result -> list Result) :
  (forall x st st1,
      body x st = (Returned tt, st1) ->
      commands (trace st1) = commands (trace st) ++ [cmd x] /\
      results st1 = upd x (results st)) ->
  forall l st st1,
    for_each l body st = (Returned tt, st1) ->
    commands (trace st1) = commands (trace st) ++ List.map cmd l /\
    results st1 = fold_left (fun rs x => upd x rs) l (results st).
Proof.
  intros Hbody l. induction l as [|x l IH]; intros st st1 H; simpl in *.
  - injection H as <-. rewrite app_nil_r. auto.
  - apply bind_returned_inv in H as ([] & st0 & Hx & Hl).
    apply Hbody in Hx as [Hc Hr]. apply IH in Hl as [Hc' Hr'].
    rewrite Hc', Hc, Hr', Hr, <- app_assoc. auto.
Qed.

Lemma run_returned cmd cwd check st r st1 :
  run env cmd cwd check st = (Returned r, st1) ->
  commands (trace st1) = commands (trace st) ++ [cmd] /\
  results st1 = results st.
Proof.
  rewrite run_unfold. simpl.
  destruct (subprocess_run env cmd cwd (world st)) as [[r'|] w]; [| discriminate].
  destruct (check && negb (returncode r' =? 0)%Z); [discriminate |].
  intros H. injection H as _ <-. simpl. rewrite commands_app. auto.
Qed.

Lemma print_then {A} line (k : M W A) st :
  bind (print line) (fun _ => k) st
  = k (mkState (world st) (trace st ++ [EPrint line]) (results st)).
Proof. reflexivity. Qed.

Lemma commands_print st line :
  commands (trace st ++ [EPrint line]) = commands (trace st).
Proof. rewrite commands_app. apply app_nil_r. Qed.

Lemma pack_project_commands args p st st1 :
  pack_project env root args p st = (Returned tt, st1) ->
  commands (trace st1) = commands (trace st) ++ [pack_cmd root args p] /\
  results st1 = results st ++ [fresh_result root p].
Proof.
  unfold pack_project. rewrite print_then. intros H.
  apply bind_returned_inv in H as (r & st0 & Hrun & Hmod).
  apply run_returned in Hrun as [Hc Hr]. injection Hmod as <-. simpl in *.
  rewrite Hc, Hr, commands_print. auto.
Qed.

Lemma sign_archive_commands args n st st1 :
  sign_archive env root args n st = (Returned tt, st1) ->
  commands (trace st1) = commands (trace st) ++ [sign_cmd root args n] /\
  results st1 = match_and_mark k_signed n (results st).
Proof.
  unfold sign_archive. intros H.
  apply bind_returned_inv in H as (r & st0 & Hrun & Hmod).
  apply run_returned in Hrun as [Hc Hr]. injection Hmod as <-. simpl in *.
  rewrite Hc, Hr. auto.
Qed.

Lemma publish_archive_commands args n st st1 :
  publish_archive env root args n st = (Returned tt, st1) ->
  commands (trace st1) = commands (trace st) ++ [push_cmd root args n] /\
  results st1 = match_and_mark k_published n (results st).
Proof.
  unfold publish_archive. rewrite print_then. intros H.
  apply bind_returned_inv in H as (r & st0 & Hrun & Hmod).
  apply run_returned in Hrun as [Hc Hr]. injection Hmod as <-. simpl in *.
  rewrite Hc, Hr, commands_print. auto.
Qed.

Lemma stage_verify_returned st st1 :
  stage_verify env root st = (Returned tt, st1) ->
  world st1 = world st /\ results st1 = results st /\
  zip_opens (trace st1)
  = zip_opens (trace st) ++ List.map (archive_path root) (archives env root "*.nupkg" (world st)).
Proof.
  rewrite stage_verify_unfold. intros H.
  pose proof (verify_loop_returned _ _ _ H) as Hread.
  rewrite verify_loop_readable in H by exact Hread.
  injection H as <-. simpl.
  rewrite <- app_assoc, zip_opens_app. simpl. rewrite zip_opens_reports. auto.
Qed.

Lemma stage_sign_returned args st st1 :
  sign args = true ->
  stage_sign env root args st = (Returned tt, st1) ->
  commands (trace st1)
  = commands (trace st) ++
    List.map (sign_cmd root args) (archives env root "*.*nupkg" (world st)) /\
  results st1 = marked_all k_signed (archives env root "*.*nupkg" (world st)) (results st).
Proof.
  intros Hs. unfold stage_sign. rewrite Hs, print_then.
  destruct (truthy (cert_path args)); simpl; [| discriminate].
  unfold bind at 1. unfold ret at 1. unfold bind at 1. rewrite glob_unfold.
  intros H. apply (loop_commands _ _ _ (sign_archive_commands args)) in H as [Hc Hr].
  simpl in *. rewrite commands_print in Hc. auto.
Qed.

Lemma stage_publish_returned args st st1 :
  publish args = true ->
  stage_publish env root args st = (Returned tt, st1) ->
  commands (trace st1)
  = commands (trace st) ++
    List.map (push_cmd root args) (archives env root "*.*nupkg" (world st)) /\
  results st1 = marked_all k_published (archives env root "*.*nupkg" (world st)) (results st).
Proof.
  intros Hp. unfold stage_publish. rewrite Hp, print_then.
  destruct (truthy (api_key args)); simpl; [| discriminate].
  unfold bind at 1. unfold ret at 1. unfold bind at 1. rewrite glob_unfold.
  intros H. apply (loop_commands _ _ _ (publish_archive_commands args)) in H as [Hc Hr].
  simpl in *. rewrite commands_print in Hc. auto.
Qed.

End Loops.

(** ** Stage order *)

Lemma app_split_at {A} (dA dB l1 l2 : list A) (e : A) :
  dA ++ dB = l1 ++ e :: l2 -> ~ In e dA ->
  exists l1', l1 = dA ++ l1' /\ dB = l1' ++ e :: l2.
Proof.
  revert l1. induction dA as [|a dA IH]; intros l1 H Hnot.
  - exists l1. auto.
  - destruct l1 as [|b l1]; simpl in H; injection H as -> H.
    + exfalso. apply Hnot. left. reflexivity.
    + destruct (IH l1 H) as (l1' & -> & ->).
      * intros Hin. apply Hnot. right. exact Hin.
      * exists l1'. auto.
Qed.

Lemma post_pack_event_not_ok e :
  post_pack_event e = true -> ~ event_ok not_sign_or_push false e.
Proof.
  destruct e as [line|c cwd r|p|p]; simpl; try discriminate.
  unfold not_sign_or_push. intros -> H. discriminate.
Qed.

Lemma invoked_pack_cmds root args l :
  List.filter is_pack_cmd (List.map (pack_cmd root args) l)
  = List.map (pack_cmd root args) l.
Proof. induction l as [|p l IH]; simpl; [reflexivity | rewrite IH; reflexivity]. Qed.

Section Order.
Context {W : Type} (env : Env W) (root : Path) (projects : list string).
Implicit Types st : State W.

Lemma main_through_pack args :
  main env root projects args
  = through_pack env root projects args (after_pack env root args).
Proof. reflexivity. Qed.

Lemma through_pack_split {A} args (k : M W A) st :
  through_pack env root projects args k st
  = bind (through_pack env root projects args (ret tt)) (fun _ => k) st.
Proof.
  unfold through_pack, bind.
  destruct (path_mkdir env (output_dir root) st) as [[[]|c|e] s1]; try reflexivity.
  destruct (banner args s1) as [[[]|c|e] s2]; try reflexivity.
  destruct (stage_restore env root s2) as [[[]|c|e] s3]; try reflexivity.
  destruct (stage_build env root s3) as [[[]|c|e] s4]; try reflexivity.
  destruct (stage_pack env root projects args s4) as [[[]|c|e] s5]; reflexivity.
Qed.

Lemma frames_returned okc okz RR {A} (m : M W A) st o st1 :
  frames okc okz RR m -> m st = (o, st1) -> framed okc okz RR st st1.
Proof. intros Hm E. specialize (Hm st). rewrite E in Hm. exact Hm. Qed.

Lemma stage_pack_commands args st st1 :
  stage_pack env root projects args st = (Returned tt, st1) ->
  commands (trace st1)
  = commands (trace st) ++ List.map (pack_cmd root args) projects.
Proof.
  rewrite stage_pack_unfold. intros H.
  apply (loop_commands _ (pack_cmd root args)
           (fun p rs => rs ++ [fresh_result root p])
           (pack_project_commands env root args)) in H as [Hc _].
  simpl in Hc. rewrite commands_print in Hc. exact Hc.
Qed.

Lemma through_pack_returned args w st1 :
  through_pack env root projects args (ret tt) (initial_state w) = (Returned tt, st1) ->
  invoked is_pack_cmd (trace st1) = List.map (pack_cmd root args) projects.
Proof.
  unfold through_pack. intros H.
  apply bind_returned_inv in H as ([] & s1 & H1 & H).
  apply bind_returned_inv in H as ([] & s2 & H2 & H).
  apply bind_returned_inv in H as ([] & s3 & H3 & H).
  apply bind_returned_inv in H as ([] & s4 & H4 & H).
  apply bind_returned_inv in H as ([] & s5 & H5 & H).
  injection H as <-.
  assert (F1 : framed not_pack true any_registry (initial_state w) s1).
  { eapply frames_returned; [| exact H1]. frame_by frames_mkdir. }
  assert (F2 : framed not_pack true any_registry s1 s2).
  { eapply frames_returned; [| exact H2]. frame_by frames_banner. }
  assert (F3 : framed not_pack true any_registry s2 s3).
  { eapply frames_returned; [| exact H3]. frame_by frames_restore. reflexivity. }
  assert (F4 : framed not_pack true any_registry s3 s4).
  { eapply frames_returned; [| exact H4]. frame_by frames_build. reflexivity. }
  assert (F : framed not_pack true any_registry (initial_state w) s4).
  { eapply framed_trans; [exact _ | exact F1 |].
    eapply framed_trans; [exact _ | exact F2 |].
    eapply framed_trans; [exact _ | exact F3 | exact F4]. }
  apply (framed_from_initial _ _ _ _ _ is_pack_cmd) in F as [Hnone _];
    [| intros c; apply not_cmd_excludes].
  unfold invoked in *. rewrite (stage_pack_commands _ _ _ H5), List.filter_app, Hnone.
  apply invoked_pack_cmds.
Qed.

Lemma frames_through_pack_quiet args :
  frames not_sign_or_push false any_registry
         (through_pack env root projects args (ret tt)).
Proof.
  unfold through_pack.
  frame_by frames_before_verify; try reflexivity; try (intros; exact I).
  frame_by frames_ret.
Qed.

Lemma frames_after_pack_no_pack args :
  frames not_pack true any_registry (after_pack env root args).
Proof.
  frame_by frames_after_pack; [reflexivity | |].
  - frame_by frames_sign; [reflexivity | intros; exact I].
  - frame_by frames_publish; [reflexivity | intros; exact I].
Qed.

(** In a whole run, an event of the verify, sign or publish stage has
    every pack command of the project list before it and none after. *)
Lemma packing_precedes args w l1 e l2 :
  trace (snd (main env root projects args (initial_state w))) = l1 ++ e :: l2 ->
  post_pack_event e = true ->
  invoked is_pack_cmd l1 = List.map (pack_cmd root args) projects /\
  invoked is_pack_cmd (e :: l2) = [].
Proof.
  rewrite main_through_pack, through_pack_split. intros Htr He.
  pose proof (frames_through_pack_quiet args (initial_state w)) as [(dA & HdA & HokA) _].
  unfold bind in Htr.
  destruct (through_pack env root projects args (ret tt) (initial_state w)) as [o s1] eqn:E.
  simpl in HdA.
  assert (Hnot : ~ In e dA).
  { intros Hin. apply (post_pack_event_not_ok e He).
    rewrite List.Forall_forall in HokA. apply HokA, Hin. }
  destruct o as [[]|c|x].
  - pose proof (frames_after_pack_no_pack args s1) as [(dB & HdB & HokB) _].
    rewrite HdB, HdA in Htr.
    destruct (app_split_at _ _ _ _ _ Htr Hnot) as (l1' & -> & HB).
    rewrite HB in HokB. apply Forall_app in HokB as [Hl1' Hrest].
    split.
    + rewrite invoked_app, <- HdA, (through_pack_returned _ _ _ E).
      rewrite (invoked_none_of_ok is_pack_cmd not_pack true l1');
        [apply app_nil_r | intros c; apply not_cmd_excludes | exact Hl1'].
    + apply (invoked_none_of_ok is_pack_cmd not_pack true);
        [intros c; apply not_cmd_excludes | exact Hrest].
  - exfalso. apply Hnot. simpl in Htr. rewrite <- HdA, Htr.
    apply in_or_app. right. left. reflexivity.
  - exfalso. apply Hnot. simpl in Htr. rewrite <- HdA, Htr.
    apply in_or_app. right. left. reflexivity.
Qed.

End Order.

(** C4 (as the code has it): the verify, sign and publish stages run after
    every pack command of the project list and no pack command follows them.
    A verify stage that returns has opened, once each and in sorted order,
    exactly the directory entries whose names end in [.nupkg], and leaves the
    world as it found it; a sign or publish stage that returns has invoked
    its tool, once each and in sorted order, on exactly the entries whose
    names match [*.*nupkg].  Every archive the verifier inspects is among
    those signed and published from the same directory contents; the
    converse fails for entries such as [Foo.1.0.0.snupkg]. *)
Theorem stages_follow_packing_and_sweep_archives {W : Type} (env : Env W)
    (root : Path) (projects : list string) (args : Args) :
  (forall w l1 e l2,
      trace (snd (main env root projects args (initial_state w))) = l1 ++ e :: l2 ->
      post_pack_event e = true ->
      invoked is_pack_cmd l1 = List.map (pack_cmd root args) projects /\
      invoked is_pack_cmd (e :: l2) = []) /\
  (forall st st1 : State W,
      stage_verify env root st = (Returned tt, st1) ->
      world st1 = world st /\
      zip_opens (trace st1)
      = zip_opens (trace st) ++
        List.map (archive_path root) (archives env root "*.nupkg" (world st))) /\
  (forall st st1 : State W,
      sign args = true ->
      stage_sign env root args st = (Returned tt, st1) ->
      commands (trace st1)
      = commands (trace st) ++
        List.map (sign_cmd root args) (archives env root "*.*nupkg" (world st))) /\
  (forall st st1 : State W,
      publish args = true ->
      stage_publish env root args st = (Returned tt, st1) ->
      commands (trace st1)
      = commands (trace st) ++
        List.map (push_cmd root args) (archives env root "*.*nupkg" (world st))) /\
  (forall pat w,
      NoDup (archives env root pat w) /\
      StronglySorted String.le (archives env root pat w)) /\
  (forall w n,
      n ∈ archives env root "*.nupkg" w <->
      n ∈ listdir env (output_dir root) w /\ exists x, n = x +:+ ".nupkg") /\
  (forall w n,
      n ∈ archives env root "*.*nupkg" w <->
      n ∈ listdir env (output_dir root) w /\
      exists x y, n = x +:+ "." +:+ y +:+ "nupkg") /\
  (forall w n,
      n ∈ archives env root "*.nupkg" w -> n ∈ archives env root "*.*nupkg" w).
Proof.
  split; [intros w l1 e l2; apply packing_precedes |].
  split.
  { intros st st1 H. apply stage_verify_returned in H as (Hw & _ & Hz). auto. }
  split.
  { intros st st1 Hs H. apply stage_sign_returned in H as [Hc _]; auto. }
  split.
  { intros st st1 Hp H. apply stage_publish_returned in H as [Hc _]; auto. }
  split.
  { intros pat w. split; [apply archives_NoDup | apply archives_sorted]. }
  split.
  { intros w n. rewrite archives_elem_of, fnmatch_nupkg. tauto. }
  split.
  { intros w n. rewrite archives_elem_of, fnmatch_any_nupkg. tauto. }
  intros w n. rewrite !archives_elem_of. intros [Hm Hin].
  split; [apply fnmatch_nupkg_any, Hm | exact Hin].
Qed.


(** ** Fail-stop: a failed command is the last thing a run does *)

Lemma no_failure_app d1 d2 :
  no_failure d1 -> no_failure d2 -> no_failure (d1 ++ d2).
Proof. intros H1 H2. apply Forall_app. split; assumption. Qed.

Lemma ends_in_failure_app d1 d2 :
  no_failure d1 -> ends_in_failure d2 -> ends_in_failure (d1 ++ d2).
Proof.
  intros H1 (d0 & c & cwd & r & -> & H0 & Hr).
  exists (d1 ++ d0), c, cwd, r.
  split; [apply app_assoc | split; [apply no_failure_app; assumption | exact Hr]].
Qed.

Lemma no_failure_one e : run_failed e = false -> no_failure [e].
Proof. intros He. repeat constructor. exact He. Qed.

Section FailStop.
Context {W : Type} (env : Env W) (root : Path).
Implicit Types st : State W.

Lemma fail_stop_ret {A} (a : A) : fail_stop (ret a : M W A).
Proof.
  intros st. exists []. simpl. split; [symmetry; apply app_nil_r | constructor].
Qed.

Lemma fail_stop_sys_exit {A} c : fail_stop (@sys_exit W A c).
Proof.
  intros st. exists []. simpl.
  split; [symmetry; apply app_nil_r | left; constructor].
Qed.

Lemma fail_stop_bind {A B} (m : M W A) (k : A -> M W B) :
  fail_stop m -> (forall a, fail_stop (k a)) -> fail_stop (bind m k).
Proof.
  intros Hm Hk st. unfold bind.
  destruct (Hm st) as (d1 & Ht1 & P1).
  destruct (m st) as [[a|c|e] s1]; simpl in *.
  - destruct (Hk a s1) as (d2 & Ht2 & P2). exists (d1 ++ d2).
    split; [rewrite Ht2, Ht1; symmetry; apply app_assoc |].
    destruct (fst (k a s1)) as [b|c|e].
    + apply no_failure_app; assumption.
    + destruct P2 as [P2|[Hc P2]].
      * left. apply no_failure_app; assumption.
      * right. split; [exact Hc | apply ends_in_failure_app; assumption].
    + apply no_failure_app; assumption.
  - exists d1. auto.
  - exists d1. auto.
Qed.

Lemma fail_stop_for_each {A} (l : list A) (body : A -> M W unit) :
  (forall x, fail_stop (body x)) -> fail_stop (for_each l body).
Proof.
  intros Hb. induction l as [|x l IH]; simpl.
  - apply fail_stop_ret.
  - apply fail_stop_bind; [apply Hb | intros _; exact IH].
Qed.

Lemma fail_stop_emit e : run_failed e = false -> fail_stop (emit e : M W unit).
Proof.
  intros He st. exists [e]. simpl. split; [reflexivity | apply no_failure_one, He].
Qed.

Lemma fail_stop_print line : fail_stop (print line : M W unit).
Proof. apply fail_stop_emit. reflexivity. Qed.

Lemma fail_stop_modify f : fail_stop (modify_results f : M W unit).
Proof.
  intros st. exists []. simpl. split; [symmetry; apply app_nil_r | constructor].
Qed.

Lemma fail_stop_glob d pat : fail_stop (glob env d pat).
Proof.
  intros st. exists []. simpl. split; [symmetry; apply app_nil_r | constructor].
Qed.

Lemma fail_stop_mkdir p : fail_stop (path_mkdir env p).
Proof.
  intros st. exists [EMkdir p]. unfold path_mkdir.
  destruct (mkdir env p (world st)); simpl;
    (split; [reflexivity | apply no_failure_one; reflexivity]).
Qed.

Lemma fail_stop_zip p : fail_stop (zip_namelist env p).
Proof.
  intros st. exists [EZipOpen p]. unfold zip_namelist.
  destruct (namelist env p (world st)); simpl;
    (split; [reflexivity | apply no_failure_one; reflexivity]).
Qed.

(** With [check] true, [run] is fail-stop. *)
Lemma fail_stop_run cmd cwd : fail_stop (run env cmd cwd true).
Proof.
  intros st. rewrite run_unfold. simpl.
  destruct (subprocess_run env cmd cwd (world st)) as [[r|] w].
  - destruct (Z.eqb_spec (returncode r) 0) as [E|E]; simpl.
    + exists [EPrint ("  > " +:+ cmd_text cmd); ERun cmd cwd (Some r)].
      split; [reflexivity |].
      repeat constructor. simpl. rewrite E. reflexivity.
    + exists [EPrint ("  > " +:+ cmd_text cmd); ERun cmd cwd (Some r); error_line r].
      split; [reflexivity |]. right. split; [reflexivity |].
      exists [EPrint ("  > " +:+ cmd_text cmd)], cmd, cwd, r.
      split; [reflexivity | split; [apply no_failure_one; reflexivity | exact E]].
  - exists [EPrint ("  > " +:+ cmd_text cmd); ERun cmd cwd None]. simpl.
    split; [reflexivity | repeat constructor].
Qed.

Lemma fail_stop_banner args : fail_stop (banner args : M W unit).
Proof.
  unfold banner. repeat (apply fail_stop_bind; [apply fail_stop_print | intros _]).
  apply fail_stop_print.
Qed.

Lemma fail_stop_restore : fail_stop (stage_restore env root).
Proof.
  unfold stage_restore.
  apply fail_stop_bind; [apply fail_stop_print | intros _].
  apply fail_stop_bind; [apply fail_stop_run | intros _; apply fail_stop_ret].
Qed.

Lemma fail_stop_build : fail_stop (stage_build env root).
Proof.
  unfold stage_build.
  apply fail_stop_bind; [apply fail_stop_print | intros _].
  apply fail_stop_bind; [apply fail_stop_run | intros _; apply fail_stop_ret].
Qed.

Lemma fail_stop_pack projects args : fail_stop (stage_pack env root projects args).
Proof.
  unfold stage_pack.
  apply fail_stop_bind; [apply fail_stop_print | intros _].
  apply fail_stop_bind; [apply fail_stop_modify | intros _].
  apply fail_stop_for_each. intros p. unfold pack_project.
  apply fail_stop_bind; [apply fail_stop_print | intros _].
  apply fail_stop_bind; [apply fail_stop_run | intros _; apply fail_stop_modify].
Qed.

Lemma fail_stop_verify : fail_stop (stage_verify env root).
Proof.
  unfold stage_verify.
  apply fail_stop_bind; [apply fail_stop_print | intros _].
  apply fail_stop_bind; [apply fail_stop_glob | intros found].
  apply fail_stop_for_each. intros n. unfold verify_archive.
  apply fail_stop_bind; [apply fail_stop_zip | intros names; apply fail_stop_print].
Qed.

Lemma fail_stop_sign args : fail_stop (stage_sign env root args).
Proof.
  unfold stage_sign. destruct (sign args); [| apply fail_stop_ret].
  apply fail_stop_bind; [apply fail_stop_print | intros _].
  apply fail_stop_bind.
  - destruct (negb (truthy (cert_path args))); [| apply fail_stop_ret].
    apply fail_stop_bind; [apply fail_stop_print | intros _; apply fail_stop_sys_exit].
  - intros _. apply fail_stop_bind; [apply fail_stop_glob | intros found].
    apply fail_stop_for_each. intros n. unfold sign_archive.
    apply fail_stop_bind; [apply fail_stop_run | intros _; apply fail_stop_modify].
Qed.

Lemma fail_stop_publish args : fail_stop (stage_publish env root args).
Proof.
  unfold stage_publish. destruct (publish args); [| apply fail_stop_print].
  apply fail_stop_bind; [apply fail_stop_print | intros _].
  apply fail_stop_bind.
  - destruct (negb (truthy (api_key args))); [| apply fail_stop_ret].
    apply fail_stop_bind; [apply fail_stop_print | intros _; apply fail_stop_sys_exit].
  - intros _. apply fail_stop_bind; [apply fail_stop_glob | intros found].
    apply fail_stop_for_each. intros n. unfold publish_archive.
    apply fail_stop_bind; [apply fail_stop_print | intros _].
    apply fail_stop_bind; [apply fail_stop_run | intros _; apply fail_stop_modify].
Qed.

Lemma fail_stop_summary : fail_stop (summary : M W unit).
Proof.
  unfold summary. repeat (apply fail_stop_bind; [apply fail_stop_print | intros _]).
  apply fail_stop_bind; [| intros _; apply fail_stop_print].
  intros st. apply (fail_stop_for_each (results st)). intros r. apply fail_stop_print.
Qed.

Lemma fail_stop_main projects args : fail_stop (main env root projects args).
Proof.
  unfold main, after_pack.
  apply fail_stop_bind; [apply fail_stop_mkdir | intros _].
  apply fail_stop_bind; [apply fail_stop_banner | intros _].
  apply fail_stop_bind; [apply fail_stop_restore | intros _].
  apply fail_stop_bind; [apply fail_stop_build | intros _].
  apply fail_stop_bind; [apply fail_stop_pack | intros _].
  apply fail_stop_bind; [apply fail_stop_verify | intros _].
  apply fail_stop_bind; [apply fail_stop_sign | intros _].
  apply fail_stop_bind; [apply fail_stop_publish | intros _].
  apply fail_stop_summary.
Qed.

(** In a whole run, a command that exits non-zero is followed by its error
    line and nothing else, and the run ends with exit status 1. *)
Lemma failed_command_is_last projects args w l1 c cwd r l2 :
  trace (snd (main env root projects args (initial_state w)))
  = l1 ++ ERun c cwd (Some r) :: l2 ->
  returncode r <> 0%Z ->
  fst (main env root projects args (initial_state w)) = Exited 1%Z /\
  l2 = [error_line r].
Proof.
  intros Htr Hr.
  destruct (fail_stop_main projects args (initial_state w)) as (d & Hd & P).
  simpl in Hd. rewrite Hd in Htr. clear Hd.
  assert (Hfailed : run_failed (ERun c cwd (Some r)) = true).
  { simpl. destruct (Z.eqb_spec (returncode r) 0); [contradiction | reflexivity]. }
  assert (Hdirty : ~ no_failure d).
  { intros Hn. rewrite Htr in Hn. apply Forall_app in Hn as [_ Hn].
    inversion Hn as [|? ? He _]. congruence. }
  destruct (fst (main env root projects args (initial_state w))) as [a|code|e];
    [contradiction | | contradiction].
  destruct P as [P|[-> (d0 & c' & cwd' & r' & -> & H0 & _)]]; [contradiction |].
  split; [reflexivity |].
  apply app_split_at in Htr as (l1' & _ & Hlast).
  - destruct l1' as [|x [|y l1']]; simpl in Hlast.
    + inversion Hlast; subst. reflexivity.
    + unfold error_line in Hlast. inversion Hlast.
    + destruct l1'; inversion Hlast.
  - intros Hin. unfold no_failure in H0. rewrite List.Forall_forall in H0.
    apply H0 in Hin. congruence.
Qed.

End FailStop.

(** ** Twin runs: what the archives contain shows up in printed lines only *)

Lemma actions_app tr1 tr2 : actions (tr1 ++ tr2) = actions tr1 ++ actions tr2.
Proof. apply List.filter_app. Qed.

Lemma actions_print tr line : actions (tr ++ [EPrint line]) = actions tr.
Proof. rewrite actions_app. apply app_nil_r. Qed.

Section Twins.
Context {W : Type} (env : Env W) (root : Path).
Implicit Types st : State W.

Lemma twin_event st st' e e' :
  twin st st' -> actions [e] = actions [e'] ->
  twin (mkState (world st) (trace st ++ [e]) (results st))
       (mkState (world st') (trace st' ++ [e']) (results st')).
Proof.
  intros (Hw & Hr & Ha) He. repeat split; simpl; try assumption.
  rewrite !actions_app, Ha, He. reflexivity.
Qed.

Lemma alike_ret {A} (a : A) : alike (ret a : M W A) (ret a).
Proof. intros st st' T. split; [reflexivity | exact T]. Qed.

Lemma alike_sys_exit {A} c : alike (@sys_exit W A c) (sys_exit c).
Proof. intros st st' T. split; [reflexivity | exact T]. Qed.

Lemma alike_bind {A B} (m m' : M W A) (k k' : A -> M W B) :
  alike m m' -> (forall a, alike (k a) (k' a)) -> alike (bind m k) (bind m' k').
Proof.
  intros Hm Hk st st' T. unfold bind.
  destruct (Hm st st' T) as [Ho T1].
  destruct (m st) as [[a|c|e] s1], (m' st') as [[a'|c'|e'] s1'];
    simpl in *; try discriminate; injection Ho as <-.
  - apply Hk. exact T1.
  - split; [reflexivity | exact T1].
  - split; [reflexivity | exact T1].
Qed.

Lemma alike_for_each {A} (l : list A) (body body' : A -> M W unit) :
  (forall x, alike (body x) (body' x)) ->
  alike (for_each l body) (for_each l body').
Proof.
  intros Hb. induction l as [|x l IH]; simpl.
  - apply alike_ret.
  - apply alike_bind; [apply Hb | intros _; exact IH].
Qed.

Lemma alike_emit e e' :
  actions [e] = actions [e'] -> alike (emit e : M W unit) (emit e').
Proof.
  intros He st st' T. split; [reflexivity | apply twin_event; assumption].
Qed.

Lemma alike_print line line' : alike (print line : M W unit) (print line').
Proof. apply alike_emit. reflexivity. Qed.

Lemma alike_modify f : alike (modify_results f : M W unit) (modify_results f).
Proof.
  intros st st' (Hw & Hr & Ha). split; [reflexivity |].
  repeat split; simpl; congruence.
Qed.

Lemma alike_subprocess cmd cwd :
  alike (subprocess env cmd cwd) (subprocess env cmd cwd).
Proof.
  intros st st' (Hw & Hr & Ha). unfold subprocess. rewrite <- Hw.
  destruct (subprocess_run env cmd cwd (world st)) as [[r|] w]; simpl;
    (split; [reflexivity |]); repeat split; simpl; try assumption;
    rewrite !actions_app, Ha; reflexivity.
Qed.

Lemma alike_run cmd cwd check :
  alike (run env cmd cwd check) (run env cmd cwd check).
Proof.
  unfold run.
  apply alike_bind; [apply alike_print | intros _].
  apply alike_bind; [apply alike_subprocess | intros r].
  destruct (check && negb (returncode r =? 0)%Z); [| apply alike_ret].
  apply alike_bind; [apply alike_print | intros _; apply alike_sys_exit].
Qed.

Lemma alike_mkdir p : alike (path_mkdir env p) (path_mkdir env p).
Proof.
  intros st st' (Hw & Hr & Ha). unfold path_mkdir. rewrite <- Hw.
  destruct (mkdir env p (world st)); simpl;
    (split; [reflexivity |]); repeat split; simpl; try assumption;
    rewrite !actions_app, Ha; reflexivity.
Qed.

Lemma alike_glob d pat : alike (glob env d pat) (glob env d pat).
Proof.
  intros st st' T. unfold glob. simpl.
  destruct T as (Hw & Hr & Ha). rewrite Hw.
  split; [reflexivity | repeat split; assumption].
Qed.

Lemma alike_banner args : alike (banner args : M W unit) (banner args).
Proof.
  unfold banner. repeat (apply alike_bind; [apply alike_print | intros _]).
  apply alike_print.
Qed.

Lemma alike_restore : alike (stage_restore env root) (stage_restore env root).
Proof.
  unfold stage_restore.
  apply alike_bind; [apply alike_print | intros _].
  apply alike_bind; [apply alike_run | intros _; apply alike_ret].
Qed.

Lemma alike_build : alike (stage_build env root) (stage_build env root).
Proof.
  unfold stage_build.
  apply alike_bind; [apply alike_print | intros _].
  apply alike_bind; [apply alike_run | intros _; apply alike_ret].
Qed.

Lemma alike_pack projects args :
  alike (stage_pack env root projects args) (stage_pack env root projects args).
Proof.
  unfold stage_pack.
  apply alike_bind; [apply alike_print | intros _].
  apply alike_bind; [apply alike_modify | intros _].
  apply alike_for_each. intros p. unfold pack_project.
  apply alike_bind; [apply alike_print | intros _].
  apply alike_bind; [apply alike_run | intros _; apply alike_modify].
Qed.

Lemma alike_sign args :
  alike (stage_sign env root args) (stage_sign env root args).
Proof.
  unfold stage_sign. destruct (sign args); [| apply alike_ret].
  apply alike_bind; [apply alike_print | intros _].
  apply alike_bind.
  - destruct (negb (truthy (cert_path args))); [| apply alike_ret].
    apply alike_bind; [apply alike_print | intros _; apply alike_sys_exit].
  - intros _. apply alike_bind; [apply alike_glob | intros found].
    apply alike_for_each. intros n. unfold sign_archive.
    apply alike_bind; [apply alike_run | intros _; apply alike_modify].
Qed.

Lemma alike_publish args :
  alike (stage_publish env root args) (stage_publish env root args).
Proof.
  unfold stage_publish. destruct (publish args); [| apply alike_print].
  apply alike_bind; [apply alike_print | intros _].
  apply alike_bind.
  - destruct (negb (truthy (api_key args))); [| apply alike_ret].
    apply alike_bind; [apply alike_print | intros _; apply alike_sys_exit].
  - intros _. apply alike_bind; [apply alike_glob | intros found].
    apply alike_for_each. intros n. unfold publish_archive.
    apply alike_bind; [apply alike_print | intros _].
    apply alike_bind; [apply alike_run | intros _; apply alike_modify].
Qed.

Lemma alike_summary : alike (summary : M W unit) summary.
Proof.
  unfold summary. repeat (apply alike_bind; [apply alike_print | intros _]).
  apply alike_bind; [| intros _; apply alike_print].
  intros st st' T. pose proof T as (_ & Hr & _). rewrite <- Hr.
  apply (alike_for_each (results st)); [| exact T].
  intros r. apply alike_print.
Qed.

Section OtherContents.
Variable nl : string -> W -> option (list string).
Hypothesis same_readable :
  forall p w, nl p w = None <-> namelist env p w = None.

Lemma alike_verify_archive n :
  alike (verify_archive env root n) (verify_archive (with_namelist env nl) root n).
Proof.
  intros st st' T. rewrite !verify_archive_unfold. simpl.
  pose proof T as (Hw & Hr & Ha). rewrite <- Hw.
  pose proof (same_readable (archive_path root n) (world st)) as Hsame.
  destruct (namelist env (archive_path root n) (world st)) as [names|],
           (nl (archive_path root n) (world st)) as [names'|]; simpl.
  - split; [reflexivity |]. repeat split; simpl; try assumption.
    rewrite !actions_app, Ha. reflexivity.
  - exfalso. destruct Hsame as [Hsame _]. discriminate (Hsame eq_refl).
  - exfalso. destruct Hsame as [_ Hsame]. discriminate (Hsame eq_refl).
  - split; [reflexivity |]. repeat split; simpl; try assumption.
    rewrite !actions_app, Ha. reflexivity.
Qed.

Lemma alike_verify :
  alike (stage_verify env root) (stage_verify (with_namelist env nl) root).
Proof.
  unfold stage_verify.
  apply alike_bind; [apply alike_print | intros _].
  apply alike_bind; [exact (alike_glob _ _) | intros found].
  apply alike_for_each. intros n. apply alike_verify_archive.
Qed.

Lemma alike_main projects args :
  alike (main env root projects args)
        (main (with_namelist env nl) root projects args).
Proof.
  unfold main, after_pack.
  apply alike_bind; [exact (alike_mkdir _) | intros _].
  apply alike_bind; [apply alike_banner | intros _].
  apply alike_bind; [exact alike_restore | intros _].
  apply alike_bind; [exact alike_build | intros _].
  apply alike_bind; [exact (alike_pack _ _) | intros _].
  apply alike_bind; [apply alike_verify | intros _].
  apply alike_bind; [exact (alike_sign _) | intros _].
  apply alike_bind; [exact (alike_publish _) | intros _].
  apply alike_summary.
Qed.

End OtherContents.

End Twins.

(** ** The runner and the verifier in a whole run *)

(** C6: with [check] true, a command that exits non-zero makes [run] print
    the captured stderr and end the whole program with exit status 1, so
    nothing that follows the call executes; a command that exits zero makes
    [run] return the captured result, and what follows runs on it.  In a
    whole run, a command that exited non-zero is followed by its error line
    and by nothing else, and the run ends with exit status 1. *)
Theorem run_check_fatal_on_nonzero {W : Type} (env : Env W) :
  (forall (cmd : Cmd) (cwd : option Path) (st : State W)
          (r : CompletedProcess) (w : W),
      subprocess_run env cmd cwd (world st) = (Some r, w) ->
      let shown := EPrint ("  > " +:+ cmd_text cmd) in
      (returncode r <> 0%Z ->
       let halted :=
         mkState w (trace st ++ [shown; ERun cmd cwd (Some r);
                                 EPrint ("  ERROR: " +:+ PyStr.strip (stderr r))])
                 (results st) in
       run env cmd cwd true st = (Exited 1%Z, halted) /\
       forall (B : Type) (k : CompletedProcess -> M W B),
         bind (run env cmd cwd true) k st = (Exited 1%Z, halted)) /\
      (returncode r = 0%Z ->
       let after :=
         mkState w (trace st ++ [shown; ERun cmd cwd (Some r)]) (results st) in
       run env cmd cwd true st = (Returned r, after) /\
       forall (B : Type) (k : CompletedProcess -> M W B),
         bind (run env cmd cwd true) k st = k r after)) /\
  (forall (root : Path) (projects : list string) (args : Args) (w : W)
          (l1 : list Event) (c : Cmd) (cwd : option Path)
          (r : CompletedProcess) (l2 : list Event),
      trace (snd (main env root projects args (initial_state w)))
      = l1 ++ ERun c cwd (Some r) :: l2 ->
      returncode r <> 0%Z ->
      fst (main env root projects args (initial_state w)) = Exited 1%Z /\
      l2 = [EPrint ("  ERROR: " +:+ PyStr.strip (stderr r))]).
Proof.
  split.
  - intros cmd cwd st r w Hsub. apply run_check_outcomes. exact Hsub.
  - intros root projects args w l1 c cwd r l2 Htr Hr.
    eapply failed_command_is_last; eassumption.
Qed.

(** C8: an archive that opens but holds no README entry costs one warning
    line and nothing else: verifying it returns with world and registry
    untouched.  When every [.nupkg] archive opens, whatever the archives
    contain, the verify stage returns with world and registry untouched, so
    whatever follows it, the sign and publish stages included, runs.  And a
    whole run in which the archives have other contents, the same ones being
    readable, ends the same way, in the same world and registry, after the
    same actions: only printed lines can differ. *)
Theorem missing_readme_only_warns {W : Type} (env : Env W) (root : Path) :
  (forall (st : State W) n names,
      namelist env (archive_path root n) (world st) = Some names ->
      has_readme names = false ->
      verify_archive env root n st =
      (Returned tt,
       mkState (world st)
         (trace st ++
            [EZipOpen (archive_path root n);
             EPrint ("  " +:+ n +:+ ": WARNING: no README (" +:+
                     pretty (length names) +:+ " files)")])
         (results st))) /\
  (forall st : State W,
      (forall n, n ∈ archives env root "*.nupkg" (world st) ->
                 namelist env (archive_path root n) (world st) <> None) ->
      let verified :=
        mkState (world st)
          (trace st ++
             EPrint (PyStr.nl +:+ "[4/5] Verifying packages...") ::
             flat_map (verify_report env root (world st))
                      (archives env root "*.nupkg" (world st)))
          (results st) in
      stage_verify env root st = (Returned tt, verified) /\
      (forall (B : Type) (k : unit -> M W B),
          bind (stage_verify env root) k st = k tt verified) /\
      (forall args,
          after_pack env root args st =
          bind (stage_sign env root args) (fun _ =>
          bind (stage_publish env root args) (fun _ => summary)) verified)) /\
  (forall nl : string -> W -> option (list string),
      (forall p w, nl p w = None <-> namelist env p w = None) ->
      forall projects args w,
        let here := main env root projects args (initial_state w) in
        let there :=
          main (with_namelist env nl) root projects args (initial_state w) in
        fst here = fst there /\
        world (snd here) = world (snd there) /\
        results (snd here) = results (snd there) /\
        actions (trace (snd here)) = actions (trace (snd there))).
Proof.
  split; [| split].
  - intros st n names Hn Hr. rewrite verify_archive_unfold, Hn.
    unfold verify_line. rewrite Hr. reflexivity.
  - intros st Hread verified.
    assert (Hv : stage_verify env root st = (Returned tt, verified)).
    { rewrite stage_verify_unfold, verify_loop_readable.
      - unfold verified. simpl. rewrite <- app_assoc. reflexivity.
      - intros n Hn. apply Hread. apply list_elem_of_In. exact Hn. }
    split; [exact Hv |]. split.
    + intros B k. apply bind_returned. exact Hv.
    + intros args. unfold after_pack.
      rewrite (bind_returned _ _ _ _ _ Hv). reflexivity.
  - intros nl Hsame projects args w here there.
    destruct (alike_main env root nl Hsame projects args
                (initial_state w) (initial_state w)) as (Ho & Hw & Hr & Ha).
    + repeat split; reflexivity.
    + auto.
Qed.

(** * Further properties *)

(** ** Failures before packing *)

Section Startup.
Context {W : Type} (env : Env W) (root : Path).
Implicit Types st : State W.

Lemma announced_run_unfold {A} h cmd cwd (k : M W A) st :
  bind (print h) (fun _ => bind (run env cmd cwd true) (fun _ => k)) st =
  let said := [EPrint h; EPrint ("  > " +:+ cmd_text cmd)] in
  match subprocess_run env cmd cwd (world st) with
  | (Some r, w) =>
      if negb (returncode r =? 0)%Z then
        (Exited 1%Z,
         mkState w (trace st ++ said ++ [ERun cmd cwd (Some r); error_line r])
                 (results st))
      else
        k (mkState w (trace st ++ said ++ [ERun cmd cwd (Some r)]) (results st))
  | (None, w) =>
      (Raised "OSError",
       mkState w (trace st ++ said ++ [ERun cmd cwd None]) (results st))
  end.
Proof.
  rewrite print_then. unfold bind. rewrite run_unfold. simpl.
  destruct (subprocess_run env cmd cwd (world st)) as [[r|] w]; simpl.
  - destruct (negb (returncode r =? 0)%Z); simpl;
      rewrite <- ?app_assoc; reflexivity.
  - rewrite <- app_assoc. reflexivity.
Qed.

Lemma path_mkdir_made p st w1 :
  mkdir env p (world st) = Some w1 ->
  path_mkdir env p st = (Returned tt, mkState w1 (trace st ++ [EMkdir p]) (results st)).
Proof. intros H. unfold path_mkdir. rewrite H. reflexivity. Qed.

Lemma banner_unfold args st :
  banner args st =
  (Returned tt,
   mkState (world st)
     (trace st ++
        List.map EPrint
          [PyStr.nl +:+ PyStr.repeat "=" 60;
           "WorkflowForge Package Publisher v" +:+ version args;
           "Mode: " +:+ (if publish args then "PUBLISH" else "DRY RUN");
           "Sign: " +:+ (if sign args then "Yes" else "No");
           PyStr.repeat "=" 60 +:+ PyStr.nl])
     (results st)).
Proof.
  unfold banner, bind, print, emit, rule. simpl.
  rewrite <- !app_assoc. reflexivity.
Qed.

Lemma negb_eqb_nonzero (z : Z) : z <> 0%Z -> negb (z =? 0)%Z = true.
Proof. intros H. destruct (Z.eqb_spec z 0); [contradiction | reflexivity]. Qed.

Lemma negb_eqb_zero (z : Z) : z = 0%Z -> negb (z =? 0)%Z = false.
Proof. intros ->. reflexivity. Qed.

Lemma stage_restore_failed st r w :
  subprocess_run env restore_cmd (Some root) (world st) = (Some r, w) ->
  returncode r <> 0%Z ->
  stage_restore env root st =
  (Exited 1%Z,
   mkState w
     (trace st ++
        [EPrint "[1/5] Restoring dependencies...";
         EPrint ("  > " +:+ cmd_text restore_cmd);
         ERun restore_cmd (Some root) (Some r); error_line r])
     (results st)).
Proof.
  intros Hsub Hr. unfold stage_restore. rewrite announced_run_unfold.
  cbv zeta. rewrite Hsub, (negb_eqb_nonzero _ Hr). reflexivity.
Qed.

Lemma stage_restore_passed st r w :
  subprocess_run env restore_cmd (Some root) (world st) = (Some r, w) ->
  returncode r = 0%Z ->
  stage_restore env root st =
  (Returned tt,
   mkState w
     (trace st ++
        [EPrint "[1/5] Restoring dependencies...";
         EPrint ("  > " +:+ cmd_text restore_cmd);
         ERun restore_cmd (Some root) (Some r)])
     (results st)).
Proof.
  intros Hsub Hr. unfold stage_restore. rewrite announced_run_unfold.
  cbv zeta. rewrite Hsub, (negb_eqb_zero _ Hr). reflexivity.
Qed.

Lemma stage_build_failed st r w :
  subprocess_run env build_cmd (Some root) (world st) = (Some r, w) ->
  returncode r <> 0%Z ->
  stage_build env root st =
  (Exited 1%Z,
   mkState w
     (trace st ++
        [EPrint (PyStr.nl +:+ "[2/5] Building solution...");
         EPrint ("  > " +:+ cmd_text build_cmd);
         ERun build_cmd (Some root) (Some r); error_line r])
     (results st)).
Proof.
  intros Hsub Hr. unfold stage_build. rewrite announced_run_unfold.
  cbv zeta. rewrite Hsub, (negb_eqb_nonzero _ Hr). reflexivity.
Qed.

End Startup.

Lemma last_event_app (l d : list Event) (e : Event) :
  (exists before, d = before ++ [e]) -> exists before, l ++ d = before ++ [e].
Proof. intros (b & ->). exists (l ++ b). apply app_assoc. Qed.

Lemma main_started {W : Type} (env : Env W) root projects args (w w1 : W) :
  mkdir env (output_dir root) w = Some w1 ->
  main env root projects args (initial_state w) =
  bind (stage_restore env root) (fun _ =>
  bind (stage_build env root) (fun _ =>
  bind (stage_pack env root projects args) (fun _ =>
  after_pack env root args))) (started root args w1).
Proof.
  intros Hmk. unfold main.
  rewrite (bind_returned _ _ _ _ _
             (path_mkdir_made env _ (initial_state w) _ Hmk)).
  rewrite (bind_returned _ _ _ _ _ (banner_unfold args _)).
  reflexivity.
Qed.

(** X1: when the output directory cannot be made the run dies on the spot,
    before it prints anything or starts any tool.  When [dotnet restore]
    exits non-zero the run exits with status 1 having run that command only;
    when restore succeeds and [dotnet build] exits non-zero it exits with
    status 1 having run those two only.  In all three cases no pack command
    ran and the registry is empty, and after a failed command the last thing
    printed is its error line. *)
Theorem failure_before_packing {W : Type} (env : Env W) (root : Path)
    (projects : list string) (args : Args) (w : W) :
  let ending := main env root projects args (initial_state w) in
  (mkdir env (output_dir root) w = None ->
   ending = (Raised "OSError", mkState w [EMkdir (output_dir root)] [])) /\
  (forall w1 r w2,
      mkdir env (output_dir root) w = Some w1 ->
      subprocess_run env restore_cmd (Some root) w1 = (Some r, w2) ->
      returncode r <> 0%Z ->
      fst ending = Exited 1%Z /\
      commands (trace (snd ending)) = [restore_cmd] /\
      (exists before, trace (snd ending) = before ++ [error_line r]) /\
      results (snd ending) = [] /\
      world (snd ending) = w2) /\
  (forall w1 r1 w2 r2 w3,
      mkdir env (output_dir root) w = Some w1 ->
      subprocess_run env restore_cmd (Some root) w1 = (Some r1, w2) ->
      returncode r1 = 0%Z ->
      subprocess_run env build_cmd (Some root) w2 = (Some r2, w3) ->
      returncode r2 <> 0%Z ->
      fst ending = Exited 1%Z /\
      commands (trace (snd ending)) = [restore_cmd; build_cmd] /\
      (exists before, trace (snd ending) = before ++ [error_line r2]) /\
      results (snd ending) = [] /\
      world (snd ending) = w3).
Proof.
  intros ending. split; [| split].
  - intros Hmk. unfold ending, main, bind, path_mkdir. simpl. rewrite Hmk.
    reflexivity.
  - intros w1 r w2 Hmk Hres Hr. unfold ending.
    rewrite (main_started env root projects args w w1 Hmk).
    rewrite (bind_exited _ _ _ _ _
               (stage_restore_failed env root (started root args w1) r w2 Hres Hr)).
    cbn [fst snd trace results world].
    split; [reflexivity |]. split; [reflexivity |].
    split; [| split; reflexivity].
    apply last_event_app. eexists [_; _; _]. reflexivity.
  - intros w1 r1 w2 r2 w3 Hmk Hres Hr1 Hbuild Hr2. unfold ending.
    rewrite (main_started env root projects args w w1 Hmk).
    rewrite (bind_returned _ _ _ _ _
               (stage_restore_passed env root (started root args w1) r1 w2 Hres Hr1)).
    rewrite (bind_exited _ _ _ _ _
               (stage_build_failed env root (mkState w2 _ _) r2 w3 Hbuild Hr2)).
    cbn [fst snd trace results world].
    split; [reflexivity |]. split; [reflexivity |].
    split; [| split; reflexivity].
    apply last_event_app. eexists [_; _; _]. reflexivity.
Qed.

(** ** The verify stage *)

Section VerifyFacts.
Context {W : Type} (env : Env W) (root : Path).
Implicit Types st : State W.

Lemma read_only_ret {A} (a : A) : read_only (ret a : M W A).
Proof. intros st. auto. Qed.

Lemma read_only_bind {A B} (m : M W A) (k : A -> M W B) :
  read_only m -> (forall a, read_only (k a)) -> read_only (bind m k).
Proof.
  intros Hm Hk st. unfold bind. destruct (Hm st) as (Hw & Hr & Hc).
  destruct (m st) as [[a|c|e] s1]; simpl in *; auto.
  destruct (Hk a s1) as (Hw' & Hr' & Hc'). repeat split; congruence.
Qed.

Lemma read_only_for_each {A} (l : list A) (body : A -> M W unit) :
  (forall x, read_only (body x)) -> read_only (for_each l body).
Proof.
  intros Hb. induction l as [|x l IH]; simpl.
  - apply read_only_ret.
  - apply read_only_bind; [apply Hb | intros _; exact IH].
Qed.

Lemma read_only_print line : read_only (print line : M W unit).
Proof. intros st. simpl. rewrite commands_print. auto. Qed.

Lemma read_only_verify_archive n : read_only (verify_archive env root n).
Proof.
  intros st. rewrite verify_archive_unfold.
  destruct (namelist env (archive_path root n) (world st)); simpl;
    rewrite commands_app; simpl; rewrite app_nil_r; auto.
Qed.

Lemma read_only_verify : read_only (stage_verify env root).
Proof.
  unfold stage_verify.
  apply read_only_bind; [apply read_only_print | intros _].
  apply read_only_bind; [intros st; simpl; auto | intros found].
  apply read_only_for_each. intros n. apply read_only_verify_archive.
Qed.

Lemma verify_loop_ending l st :
  fst (for_each l (verify_archive env root) st) = Returned tt \/
  fst (for_each l (verify_archive env root) st) = Raised "BadZipFile".
Proof.
  revert st. induction l as [|n l IH]; intros st; simpl; [left; reflexivity |].
  unfold bind. rewrite verify_archive_unfold.
  destruct (namelist env (archive_path root n) (world st)); [apply IH |].
  right. reflexivity.
Qed.

Lemma verify_archive_unreadable n st :
  namelist env (archive_path root n) (world st) = None ->
  verify_archive env root n st =
  (Raised "BadZipFile",
   mkState (world st) (trace st ++ [EZipOpen (archive_path root n)]) (results st)).
Proof. intros H. rewrite verify_archive_unfold, H. reflexivity. Qed.

End VerifyFacts.

(** X2: the verify stage only looks: however it ends, it leaves the world
    and the registry as they were and starts no command; and it never calls
    [sys.exit]: it returns, or dies of an archive that cannot be read. *)
Theorem verify_only_looks {W : Type} (env : Env W) (root : Path) (st : State W) :
  let ending := stage_verify env root st in
  world (snd ending) = world st /\
  results (snd ending) = results st /\
  commands (trace (snd ending)) = commands (trace st) /\
  (fst ending = Returned tt \/ fst ending = Raised "BadZipFile").
Proof.
  intros ending. destruct (read_only_verify env root st) as (Hw & Hr & Hc).
  repeat split; try assumption.
  unfold ending. rewrite stage_verify_unfold. apply verify_loop_ending.
Qed.

(** X3: an archive that cannot be read is fatal, not a warning: the verify
    stage dies at the first such archive, in sorted order, having reported
    the ones before it; it opens none of the later ones, and nothing that
    follows the stage runs, so nothing is signed or published. *)
Theorem unreadable_archive_is_fatal {W : Type} (env : Env W) (root : Path)
    (st : State W) (pre : list string) (n : string) (post : list string) :
  archives env root "*.nupkg" (world st) = pre ++ n :: post ->
  (forall m, In m pre -> namelist env (archive_path root m) (world st) <> None) ->
  namelist env (archive_path root n) (world st) = None ->
  let dead :=
    mkState (world st)
      (trace st ++
         EPrint (PyStr.nl +:+ "[4/5] Verifying packages...") ::
         flat_map (verify_report env root (world st)) pre ++
         [EZipOpen (archive_path root n)])
      (results st) in
  stage_verify env root st = (Raised "BadZipFile", dead) /\
  (forall args, after_pack env root args st = (Raised "BadZipFile", dead)) /\
  zip_opens (trace dead)
  = zip_opens (trace st) ++ List.map (archive_path root) (pre ++ [n]).
Proof.
  intros Harch Hpre Hn dead.
  assert (Hv : stage_verify env root st = (Raised "BadZipFile", dead)).
  { rewrite stage_verify_unfold, Harch, for_each_app.
    rewrite (bind_returned _ _ _ _ _
               (verify_loop_readable env root pre
                  (mkState (world st) _ (results st)) Hpre)).
    cbn [for_each world trace results]. apply bind_raised.
    rewrite verify_archive_unreadable by exact Hn.
    unfold dead. cbn [world trace results].
    rewrite <- !app_assoc. reflexivity. }
  split; [exact Hv |]. split.
  - intros args. unfold after_pack. apply bind_raised. exact Hv.
  - unfold dead. simpl. rewrite zip_opens_app. simpl.
    rewrite zip_opens_app, zip_opens_reports, List.map_app. reflexivity.
Qed.

(** ** Which records get marked *)

Lemma name_marked_by k l r : name (marked_by k l r) = name r.
Proof. unfold marked_by. destruct (existsb _ l); [apply name_set_true | reflexivity]. Qed.

Lemma existsb_pointwise {A} (f g : A -> bool) (l : list A) :
  (forall a, f a = g a) -> existsb f l = existsb g l.
Proof.
  intros H. induction l as [|a l IH]; simpl; [reflexivity | rewrite H, IH; reflexivity].
Qed.

Lemma marked_by_cons k n l r :
  marked_by k l (if name_matches r n then set_true k r else r)
  = marked_by k (n :: l) r.
Proof.
  unfold marked_by. simpl. destruct (name_matches r n) eqn:Hn; simpl; [| reflexivity].
  assert (E : existsb (name_matches (set_true k r)) l = existsb (name_matches r) l).
  { apply existsb_pointwise. intros a. apply name_matches_set_true. }
  rewrite E. destruct (existsb (name_matches r) l);
    [apply set_true_idem | reflexivity].
Qed.

Lemma marked_all_spec k l rs : marked_all k l rs = List.map (marked_by k l) rs.
Proof.
  revert rs. induction l as [|n l IH]; intros rs.
  - simpl. unfold marked_by. simpl. symmetry. apply List.map_id.
  - simpl. fold (marked_all k l (match_and_mark k n rs)). rewrite IH.
    unfold match_and_mark. rewrite List.map_map.
    apply List.map_ext. intros r. apply marked_by_cons.
Qed.

Lemma marked_by_flags k l r :
  let hit := existsb (name_matches r) l in
  packed (marked_by k l r)
  = (packed r || match k with k_packed => hit | _ => false end) /\
  signed (marked_by k l r)
  = (signed r || match k with k_signed => hit | _ => false end) /\
  published (marked_by k l r)
  = (published r || match k with k_published => hit | _ => false end).
Proof.
  unfold marked_by. destruct (existsb (name_matches r) l), k; simpl;
    rewrite ?orb_true_r, ?orb_false_r; auto.
Qed.

(** X4: a sign stage that returns has marked signed exactly the records
    with a matching archive among the [*.*nupkg] entries: afterwards a record
    is signed when it was signed before or its name followed by a dot starts
    the name of one of those entries, and its name and other flags are as
    before.  A publish stage that returns does the same for [published]. *)
Theorem marks_follow_archives {W : Type} (env : Env W) (root : Path)
    (args : Args) (st st1 : State W) :
  let found := archives env root "*.*nupkg" (world st) in
  (sign args = true ->
   stage_sign env root args st = (Returned tt, st1) ->
   results st1 = List.map (marked_by k_signed found) (results st)) /\
  (publish args = true ->
   stage_publish env root args st = (Returned tt, st1) ->
   results st1 = List.map (marked_by k_published found) (results st)) /\
  (forall r,
      signed (marked_by k_signed found r)
      = (signed r || existsb (name_matches r) found) /\
      published (marked_by k_published found r)
      = (published r || existsb (name_matches r) found) /\
      marked_by k_signed found r
      = mkResult (name r) (packed r)
                 (signed (marked_by k_signed found r)) (published r) /\
      marked_by k_published found r
      = mkResult (name r) (packed r) (signed r)
                 (published (marked_by k_published found r))).
Proof.
  intros found. split; [| split].
  - intros Hs H. apply stage_sign_returned in H as [_ Hr]; [| exact Hs].
    rewrite Hr. apply marked_all_spec.
  - intros Hp H. apply stage_publish_returned in H as [_ Hr]; [| exact Hp].
    rewrite Hr. apply marked_all_spec.
  - intros r. unfold marked_by.
    destruct (existsb (name_matches r) found), r as [n p s q]; simpl;
      rewrite ?orb_true_r, ?orb_false_r; auto.
Qed.

(** X5: the order in which archives mark the registry does not matter: two
    markings commute, whatever their keys and archives, and marking for the
    archives of a list gives the same registry for every arrangement of the
    list. *)
Theorem marking_order_is_irrelevant :
  (forall k k' a b rs,
      match_and_mark k a (match_and_mark k' b rs)
      = match_and_mark k' b (match_and_mark k a rs)) /\
  (forall k (l l' : list string) rs,
      l ≡ₚ l' -> marked_all k l rs = marked_all k l' rs).
Proof.
  split.
  - intros k k' a b rs. unfold match_and_mark. rewrite !List.map_map.
    apply List.map_ext. intros r.
    destruct (name_matches r b) eqn:Hb, (name_matches r a) eqn:Ha;
      rewrite ?name_matches_set_true, ?Ha, ?Hb; try reflexivity.
    destruct k, k'; reflexivity.
  - intros k l l' rs Hperm. rewrite !marked_all_spec.
    apply List.map_ext. intros r. unfold marked_by.
    assert (E : existsb (name_matches r) l = existsb (name_matches r) l').
    { apply eq_true_iff_eq. rewrite !existsb_exists.
      split; intros (x & Hx & Hm); exists x; split; try assumption;
        apply list_elem_of_In; apply list_elem_of_In in Hx;
        [rewrite <- Hperm | rewrite Hperm]; exact Hx. }
    rewrite E. reflexivity.
Qed.

(** X6: matching by dotted prefix is shared along names: when the name of
    one record is the name of another followed by a dot and more, every
    archive that matches the first also matches the second, so marking for
    that archive marks both. *)
Theorem longer_name_shares_its_archives (k : Key) (r1 r2 : Result)
    (archive more : string) :
  name r2 = name r1 +:+ "." +:+ more ->
  name_matches r2 archive = true ->
  name_matches r1 archive = true /\
  (forall rs, In r1 rs ->
              In (set_true k r1) (match_and_mark k archive rs)).
Proof.
  intros Hname Hm.
  assert (H1 : name_matches r1 archive = true).
  { unfold name_matches in *. rewrite startswith_iff in *.
    destruct Hm as (t & ->). rewrite Hname.
    exists (more +:+ "." +:+ t). rewrite !string_app_assoc. reflexivity. }
  split; [exact H1 |].
  intros rs Hin. unfold match_and_mark. apply List.in_map_iff.
  exists r1. rewrite H1. auto.
Qed.

(** ** Record names *)

Lemma split_nonempty c s : PyStr.split c s <> [].
Proof.
  destruct s as [|a s]; simpl; [discriminate |].
  destruct (Ascii.eqb a c); [discriminate |].
  destruct (PyStr.split c s); discriminate.
Qed.

Lemma split_app_sep c d t :
  PyStr.split c (d +:+ String c t) = PyStr.split c d ++ PyStr.split c t.
Proof.
  induction d as [|a d IH].
  - rewrite append_nil. simpl. rewrite Ascii.eqb_refl. reflexivity.
  - rewrite append_String. simpl. destruct (Ascii.eqb a c).
    + rewrite IH. reflexivity.
    + rewrite IH. pose proof (split_nonempty c d) as Hne.
      destruct (PyStr.split c d) as [|x xs]; [contradiction | reflexivity].
Qed.

Lemma split_without_sep c t :
  ~ In c (list_ascii_of_string t) -> PyStr.split c t = [t].
Proof.
  induction t as [|a t IH]; intros Hno; [reflexivity |].
  simpl in *. destruct (Ascii.eqb_spec a c) as [->|Hne].
  - exfalso. apply Hno. left. reflexivity.
  - rewrite IH; [reflexivity |]. intros Hin. apply Hno. right. exact Hin.
Qed.

Lemma rfind_without c t :
  ~ In c (list_ascii_of_string t) -> PyStr.rfind c t = None.
Proof.
  induction t as [|a t IH]; intros Hno; [reflexivity |].
  simpl in *. rewrite IH by (intros Hin; apply Hno; right; exact Hin).
  destruct (Ascii.eqb_spec a c) as [->|Hne]; [| reflexivity].
  exfalso. apply Hno. left. reflexivity.
Qed.

Lemma rfind_last_sep c b t :
  ~ In c (list_ascii_of_string t) ->
  PyStr.rfind c (b +:+ String c t) = Some (String.length b).
Proof.
  intros Hno. induction b as [|a b IH].
  - rewrite append_nil. simpl. rewrite (rfind_without c t Hno), Ascii.eqb_refl.
    reflexivity.
  - rewrite append_String. simpl. rewrite IH. reflexivity.
Qed.

Lemma substring_prefix b t : substring 0 (String.length b) (b +:+ t) = b.
Proof.
  induction b as [|a b IH]; [destruct t; reflexivity |].
  rewrite append_String. simpl. rewrite IH. reflexivity.
Qed.

Lemma length_append s t :
  String.length (s +:+ t) = String.length s + String.length t.
Proof.
  induction s as [|a s IH]; [reflexivity |].
  rewrite append_String. simpl. rewrite IH. reflexivity.
Qed.

Lemma list_ascii_append s t :
  list_ascii_of_string (s +:+ t) = list_ascii_of_string s ++ list_ascii_of_string t.
Proof.
  induction s as [|a s IH]; [reflexivity |].
  rewrite append_String. simpl. rewrite IH. reflexivity.
Qed.

Lemma last_app_nonempty {A} (l l' : list A) (d : A) :
  l' <> [] -> List.last (l ++ l') d = List.last l' d.
Proof.
  intros Hne. induction l as [|x l IH]; [reflexivity |].
  simpl. rewrite IH. destruct (l ++ l') eqn:E; [| reflexivity].
  apply app_eq_nil in E as [_ E]. contradiction.
Qed.

(** The record name depends on the project entry alone, whatever the
    checkout directory, as soon as the entry has a component. *)
Lemma project_name_rootless root p :
  PyPath.parse_parts p <> [] ->
  project_name root p = PyPath.stem (PyPath.of_string p).
Proof.
  intros Hne. unfold project_name, PyPath.stem, PyPath.name, PyPath.joinpath.
  destruct (String.eqb (PyPath.anchor (PyPath.of_string p)) ""); [| reflexivity].
  cbn [PyPath.parts PyPath.of_string].
  rewrite last_app_nonempty by exact Hne. reflexivity.
Qed.

Lemma stem_of_file_name b e :
  b <> "" -> e <> "" -> ~ In "."%char (list_ascii_of_string e) ->
  let n := b +:+ "." +:+ e in
  match PyStr.rfind "." n with
  | Some i => if (0 <? i) && (i <? String.length n - 1) then substring 0 i n else n
  | None => n
  end = b.
Proof.
  intros Hb He Hdot n. unfold n.
  change (b +:+ "." +:+ e) with (b +:+ String "." e).
  rewrite (rfind_last_sep "." b e Hdot), length_append. simpl.
  assert (Hlb : 0 < String.length b) by (destruct b; [contradiction | simpl; lia]).
  assert (Hle : 0 < String.length e) by (destruct e; [contradiction | simpl; lia]).
  destruct (Nat.ltb_spec 0 (String.length b)) as [_|Hbad]; [| lia].
  destruct (Nat.ltb_spec (String.length b)
              (String.length b + S (String.length e) - 1)) as [_|Hbad]; [| lia].
  simpl. apply substring_prefix.
Qed.

(** X7: the name of a record is the file name of its project without the
    extension, whatever directories lead to it and wherever the script is
    installed: for a project entry that ends, after its last slash if it has
    one, in [base.ext] with [base] and [ext] non-empty and free of slashes
    and [ext] free of dots, the record name is [base], dots inside [base]
    included. *)
Theorem record_name_is_file_stem (root : Path) (dir base ext : string) :
  base <> "" -> ext <> "" ->
  ~ In "/"%char (list_ascii_of_string base) ->
  ~ In "/"%char (list_ascii_of_string ext) ->
  ~ In "."%char (list_ascii_of_string ext) ->
  project_name root (base +:+ "." +:+ ext) = base /\
  project_name root (dir +:+ "/" +:+ base +:+ "." +:+ ext) = base.
Proof.
  intros Hb He Hsb Hse Hde.
  set (n := base +:+ "." +:+ ext).
  assert (Hn : ~ In "/"%char (list_ascii_of_string n)).
  { unfold n. rewrite !list_ascii_append. intros Hin.
    apply in_app_or in Hin as [Hin|Hin]; [contradiction |].
    apply in_app_or in Hin as [Hin|Hin]; [| contradiction].
    simpl in Hin. destruct Hin as [Hin|[]]. discriminate Hin. }
  assert (Hkeep : negb (String.eqb n "" || String.eqb n ".") = true).
  { assert (Hlen : 2 < String.length n).
    { unfold n. rewrite !length_append. simpl.
      destruct base; [contradiction |]. destruct ext; [contradiction |].
      simpl. lia. }
    apply negb_true_iff, orb_false_iff.
    split; apply String.eqb_neq; intros E; rewrite E in Hlen; simpl in Hlen; lia. }
  assert (Hstem : PyPath.stem (PyPath.mkPath "" [n]) = base).
  { unfold PyPath.stem, PyPath.name. cbn [PyPath.parts List.last].
    apply stem_of_file_name; assumption. }
  assert (Hparts : forall d, List.last (PyPath.parse_parts (d +:+ "/" +:+ n)) "" = n
                             /\ PyPath.parse_parts (d +:+ "/" +:+ n) <> []).
  { intros d. change (d +:+ "/" +:+ n) with (d +:+ String "/" n).
    unfold PyPath.parse_parts.
    rewrite split_app_sep, (split_without_sep "/" n Hn), List.filter_app.
    simpl. rewrite Hkeep. split.
    - apply last_app_nonempty. discriminate.
    - intros E. apply app_eq_nil in E as [_ E]. discriminate E. }
  split.
  - rewrite project_name_rootless.
    + unfold PyPath.stem, PyPath.name, PyPath.of_string, PyPath.parse_parts.
      cbn [PyPath.parts]. fold n.
      rewrite (split_without_sep "/" n Hn). simpl. rewrite Hkeep.
      apply Hstem.
    + unfold PyPath.parse_parts. fold n.
      rewrite (split_without_sep "/" n Hn). simpl. rewrite Hkeep. discriminate.
  - change (dir +:+ "/" +:+ base +:+ "." +:+ ext) with (dir +:+ "/" +:+ n).
    destruct (Hparts dir) as [Hlast Hne].
    rewrite project_name_rootless by exact Hne.
    unfold PyPath.stem, PyPath.name, PyPath.of_string. cbn [PyPath.parts].
    rewrite Hlast. apply Hstem.
Qed.

(** ** A tool that fails in the middle of signing or publishing *)

Section MidLoop.
Context {W : Type} (env : Env W) (root : Path).
Implicit Types st : State W.

Lemma stage_sign_loop args st :
  sign args = true -> truthy (cert_path args) = true ->
  stage_sign env root args st =
  for_each (archives env root "*.*nupkg" (world st)) (sign_archive env root args)
    (mkState (world st)
       (trace st ++ [EPrint (PyStr.nl +:+ "[4.5/5] Signing packages...")])
       (results st)).
Proof. intros Hs Hc. unfold stage_sign. rewrite Hs, Hc. reflexivity. Qed.

Lemma stage_publish_loop args st :
  publish args = true -> truthy (api_key args) = true ->
  stage_publish env root args st =
  for_each (archives env root "*.*nupkg" (world st)) (publish_archive env root args)
    (mkState (world st)
       (trace st ++ [EPrint (PyStr.nl +:+ "[5/5] Publishing to NuGet...")])
       (results st)).
Proof. intros Hp Hk. unfold stage_publish. rewrite Hp, Hk. reflexivity. Qed.

Lemma sign_archive_failed args n st r w :
  subprocess_run env (sign_cmd root args n) (Some root) (world st) = (Some r, w) ->
  returncode r <> 0%Z ->
  sign_archive env root args n st =
  (Exited 1%Z,
   mkState w
     (trace st ++
        [EPrint ("  > " +:+ cmd_text (sign_cmd root args n));
         ERun (sign_cmd root args n) (Some root) (Some r); error_line r])
     (results st)).
Proof.
  intros Hsub Hr. unfold sign_archive. apply bind_exited.
  rewrite run_unfold. cbv zeta. rewrite Hsub. simpl.
  rewrite (negb_eqb_nonzero _ Hr). reflexivity.
Qed.

Lemma publish_archive_failed args n st r w :
  subprocess_run env (push_cmd root args n) (Some root) (world st) = (Some r, w) ->
  returncode r <> 0%Z ->
  publish_archive env root args n st =
  (Exited 1%Z,
   mkState w
     (trace st ++
        [EPrint ("  Publishing " +:+ n +:+ "...");
         EPrint ("  > " +:+ cmd_text (push_cmd root args n));
         ERun (push_cmd root args n) (Some root) (Some r); error_line r])
     (results st)).
Proof.
  intros Hsub Hr. unfold publish_archive. rewrite announced_run_unfold.
  cbv zeta. rewrite Hsub, (negb_eqb_nonzero _ Hr). reflexivity.
Qed.

Lemma sign_loop_marks args l st st1 :
  for_each l (sign_archive env root args) st = (Returned tt, st1) ->
  results st1 = List.map (marked_by k_signed l) (results st).
Proof.
  intros H.
  apply (loop_commands _ _ _ (sign_archive_commands env root args)) in H as [_ Hr].
  rewrite Hr. apply (marked_all_spec k_signed).
Qed.

Lemma publish_loop_marks args l st st1 :
  for_each l (publish_archive env root args) st = (Returned tt, st1) ->
  results st1 = List.map (marked_by k_published l) (results st).
Proof.
  intros H.
  apply (loop_commands _ _ _ (publish_archive_commands env root args)) in H as [_ Hr].
  rewrite Hr. apply (marked_all_spec k_published).
Qed.

End MidLoop.

(** X8: a signer or a push that exits non-zero part-way stops the run with
    exit status 1 and leaves the marks made so far: the records matched by
    the archives handled before the failing one are signed (published), the
    failing archive and the later ones have marked nothing, and no command
    is started for the later ones. *)
Theorem failure_leaves_partial_marks {W : Type} (env : Env W) (root : Path)
    (args : Args) (st st1 : State W) (pre : list string) (n : string)
    (post : list string) (r : CompletedProcess) (w : W) :
  archives env root "*.*nupkg" (world st) = pre ++ n :: post ->
  returncode r <> 0%Z ->
  (sign args = true -> truthy (cert_path args) = true ->
   for_each pre (sign_archive env root args)
     (mkState (world st)
        (trace st ++ [EPrint (PyStr.nl +:+ "[4.5/5] Signing packages...")])
        (results st)) = (Returned tt, st1) ->
   subprocess_run env (sign_cmd root args n) (Some root) (world st1) = (Some r, w) ->
   stage_sign env root args st =
   (Exited 1%Z,
    mkState w
      (trace st1 ++
         [EPrint ("  > " +:+ cmd_text (sign_cmd root args n));
          ERun (sign_cmd root args n) (Some root) (Some r); error_line r])
      (List.map (marked_by k_signed pre) (results st)))) /\
  (publish args = true -> truthy (api_key args) = true ->
   for_each pre (publish_archive env root args)
     (mkState (world st)
        (trace st ++ [EPrint (PyStr.nl +:+ "[5/5] Publishing to NuGet...")])
        (results st)) = (Returned tt, st1) ->
   subprocess_run env (push_cmd root args n) (Some root) (world st1) = (Some r, w) ->
   stage_publish env root args st =
   (Exited 1%Z,
    mkState w
      (trace st1 ++
         [EPrint ("  Publishing " +:+ n +:+ "...");
          EPrint ("  > " +:+ cmd_text (push_cmd root args n));
          ERun (push_cmd root args n) (Some root) (Some r); error_line r])
      (List.map (marked_by k_published pre) (results st)))).
Proof.
  intros Harch Hr. split.
  - intros Hs Hc Hpre Hsub.
    rewrite stage_sign_loop by assumption. rewrite Harch, for_each_app.
    rewrite (bind_returned _ _ _ _ _ Hpre). cbn [for_each].
    apply bind_exited. rewrite (sign_archive_failed env root args n st1 r w Hsub Hr).
    rewrite (sign_loop_marks env root args pre _ st1 Hpre). reflexivity.
  - intros Hp Hk Hpre Hsub.
    rewrite stage_publish_loop by assumption. rewrite Harch, for_each_app.
    rewrite (bind_returned _ _ _ _ _ Hpre). cbn [for_each].
    apply bind_exited.
    rewrite (publish_archive_failed env root args n st1 r w Hsub Hr).
    rewrite (publish_loop_marks env root args pre _ st1 Hpre). reflexivity.
Qed.

(** ** The summary and a run that returns *)

#[global] Instance same_rows_preorder : PreOrder same_rows.
Proof.
  split.
  - intros rs. split; reflexivity.
  - intros r1 r2 r3 [N1 P1] [N2 P2]. split; congruence.
Qed.

Lemma same_rows_mark k n rs :
  k <> k_packed -> same_rows rs (match_and_mark k n rs).
Proof.
  intros Hk. unfold same_rows, match_and_mark. rewrite !List.map_map.
  split; apply List.map_ext; intros r;
    destruct (name_matches r n); try reflexivity;
    destruct k; try reflexivity; contradiction.
Qed.

Section Summary.
Context {W : Type} (env : Env W) (root : Path).
Implicit Types st : State W.

Lemma print_loop {A} (f : A -> string) (l : list A) st :
  for_each l (fun x => print (f x)) st =
  (Returned tt,
   mkState (world st) (trace st ++ List.map (fun x => EPrint (f x)) l) (results st)).
Proof.
  revert st. induction l as [|x l IH]; intros st.
  - simpl. unfold ret. rewrite app_nil_r. destruct st; reflexivity.
  - cbn [for_each]. rewrite print_then, IH. cbn [world trace results List.map].
    rewrite <- app_assoc. reflexivity.
Qed.

Lemma summary_unfold st :
  summary st =
  (Returned tt,
   mkState (world st) (trace st ++ List.map EPrint (summary_lines (results st)))
           (results st)).
Proof.
  unfold summary, rule. rewrite !print_then.
  unfold bind at 1. cbn [results]. rewrite print_loop.
  cbn [world trace results]. unfold print, emit. cbn [world trace results].
  unfold summary_lines. rewrite !List.map_app, List.map_map.
  cbn [List.map]. rewrite <- !app_assoc. reflexivity.
Qed.

Lemma frames_after_pack_rows args :
  frames any_cmd true same_rows
    (bind (stage_verify env root) (fun _ =>
     bind (stage_sign env root args) (fun _ => stage_publish env root args))).
Proof.
  frame_bind; [frame_by frames_verify; reflexivity |].
  frame_bind.
  - frame_by frames_sign; [reflexivity |].
    intros n rs. apply same_rows_mark. discriminate.
  - frame_by frames_publish; [reflexivity |].
    intros n rs. apply same_rows_mark. discriminate.
Qed.

(** A run that returns has one record per project, in order, all packed,
    and has just printed the summary of its registry. *)
Lemma main_returned_rows projects args (st fin : State W) :
  main env root projects args st = (Returned tt, fin) ->
  List.map name (results fin) = List.map (project_name root) projects /\
  List.map packed (results fin) = List.map (fun _ => true) projects /\
  exists before,
    trace fin = before ++ List.map EPrint (summary_lines (results fin)).
Proof.
  unfold main, after_pack. intros H.
  apply bind_returned_inv in H as ([] & s1 & _ & H).
  apply bind_returned_inv in H as ([] & s2 & _ & H).
  apply bind_returned_inv in H as ([] & s3 & _ & H).
  apply bind_returned_inv in H as ([] & s4 & _ & H).
  apply bind_returned_inv in H as ([] & s5 & Hpack & H).
  apply bind_returned_inv in H as ([] & s6 & Hv & H).
  apply bind_returned_inv in H as ([] & s7 & Hs & H).
  apply bind_returned_inv in H as ([] & s8 & Hp & H).
  rewrite summary_unfold in H. injection H as <-. cbn [results trace].
  assert (Hrows : same_rows (results s5) (results s8)).
  { pose proof (frames_after_pack_rows args s5) as [_ HR].
    unfold bind in HR. rewrite Hv, Hs, Hp in HR. exact HR. }
  apply stage_pack_returned in Hpack.
  destruct Hrows as [Hn Hk]. rewrite Hn, Hk, Hpack, !List.map_map.
  split; [reflexivity |]. split; [reflexivity |].
  exists (trace s8). reflexivity.
Qed.

End Summary.

(** X9: the summary is written from the registry and changes nothing: it
    always returns, leaves world and registry as they are, and prints the
    five heading lines, one row per record in registry order, and an empty
    line.  So a run that returns ends with the table of a registry that has
    one record per project, in the order of the project list, named after
    the project files and all packed. *)
Theorem summary_reports_every_project {W : Type} (env : Env W) (root : Path)
    (projects : list string) (args : Args) :
  (forall st : State W,
      summary st =
      (Returned tt,
       mkState (world st)
         (trace st ++ List.map EPrint (summary_lines (results st)))
         (results st))) /\
  (forall rs, length (summary_lines rs) = 6 + length rs) /\
  (forall st fin : State W,
      main env root projects args st = (Returned tt, fin) ->
      List.map name (results fin) = List.map (project_name root) projects /\
      Forall (fun r => packed r = true) (results fin) /\
      exists before,
        trace fin = before ++ List.map EPrint (summary_lines (results fin))).
Proof.
  split; [apply summary_unfold |]. split.
  - intros rs. unfold summary_lines. rewrite !length_app, length_map.
    simpl. lia.
  - intros st fin H. apply main_returned_rows in H as (Hn & Hk & Ht).
    split; [exact Hn |]. split; [| exact Ht].
    clear - Hk. revert projects Hk.
    induction (results fin) as [|r rs IH]; intros projects Hk; [constructor |].
    destruct projects as [|p projects]; [discriminate |].
    simpl in Hk. injection Hk as Hr Hk.
    constructor; [exact Hr | apply (IH projects Hk)].
Qed.

(** ** How a run can end *)

Section Ending.
Context {W : Type} (env : Env W) (root : Path).
Implicit Types st : State W.

Lemma completes_ret {A} (a : A) : completes (ret a : M W A).
Proof. intros st. exists a, st. reflexivity. Qed.

Lemma completes_bind {A B} (m : M W A) (k : A -> M W B) :
  completes m -> (forall a, completes (k a)) -> completes (bind m k).
Proof.
  intros Hm Hk st. destruct (Hm st) as (a & s1 & E).
  destruct (Hk a s1) as (b & s2 & E'). exists b, s2.
  rewrite (bind_returned _ _ _ _ _ E). exact E'.
Qed.

Lemma completes_for_each {A} (l : list A) (body : A -> M W unit) :
  (forall x, completes (body x)) -> completes (for_each l body).
Proof.
  intros Hb. induction l as [|x l IH]; simpl.
  - apply completes_ret.
  - apply completes_bind; [apply Hb | intros _; exact IH].
Qed.

Lemma completes_print line : completes (print line : M W unit).
Proof. intros st. eexists _, _. reflexivity. Qed.

Lemma completes_modify f : completes (modify_results f : M W unit).
Proof. intros st. eexists _, _. reflexivity. Qed.

Lemma completes_glob d pat : completes (glob env d pat).
Proof. intros st. eexists _, _. reflexivity. Qed.

Lemma completes_summary : completes (summary : M W unit).
Proof. intros st. eexists _, _. apply summary_unfold. Qed.

Section AllGoesWell.
Hypothesis Hgood : env_succeeds env.

Lemma completes_mkdir p : completes (path_mkdir env p).
Proof.
  intros st. destruct Hgood as (Hmk & _ & _). unfold path_mkdir.
  destruct (mkdir env p (world st)) as [w1|] eqn:E; [| destruct (Hmk _ _ E)].
  eexists _, _. reflexivity.
Qed.

Lemma completes_run cmd cwd check : completes (run env cmd cwd check).
Proof.
  intros st. destruct Hgood as (_ & Hrun & _).
  destruct (Hrun cmd cwd (world st)) as (r & w' & E & Hr).
  rewrite run_unfold. cbv zeta. rewrite E, Hr. simpl.
  rewrite andb_false_r. eexists _, _. reflexivity.
Qed.

Lemma completes_zip p : completes (zip_namelist env p).
Proof.
  intros st. destruct Hgood as (_ & _ & Hzip). unfold zip_namelist.
  destruct (namelist env p (world st)) as [names|] eqn:E; [| destruct (Hzip _ _ E)].
  eexists _, _. reflexivity.
Qed.

Lemma completes_restore : completes (stage_restore env root).
Proof.
  unfold stage_restore.
  apply completes_bind; [apply completes_print | intros _].
  apply completes_bind; [apply completes_run | intros _; apply completes_ret].
Qed.

Lemma completes_build : completes (stage_build env root).
Proof.
  unfold stage_build.
  apply completes_bind; [apply completes_print | intros _].
  apply completes_bind; [apply completes_run | intros _; apply completes_ret].
Qed.

Lemma completes_pack projects args : completes (stage_pack env root projects args).
Proof.
  unfold stage_pack.
  apply completes_bind; [apply completes_print | intros _].
  apply completes_bind; [apply completes_modify | intros _].
  apply completes_for_each. intros p. unfold pack_project.
  apply completes_bind; [apply completes_print | intros _].
  apply completes_bind; [apply completes_run | intros _; apply completes_modify].
Qed.

Lemma completes_verify : completes (stage_verify env root).
Proof.
  unfold stage_verify.
  apply completes_bind; [apply completes_print | intros _].
  apply completes_bind; [apply completes_glob | intros found].
  apply completes_for_each. intros n. unfold verify_archive.
  apply completes_bind; [apply completes_zip | intros names; apply completes_print].
Qed.

Lemma completes_sign args :
  (sign args = true -> truthy (cert_path args) = true) ->
  completes (stage_sign env root args).
Proof.
  intros Hc. unfold stage_sign. destruct (sign args); [| apply completes_ret].
  rewrite (Hc eq_refl). simpl.
  apply completes_bind; [apply completes_print | intros _].
  apply completes_bind; [apply completes_ret | intros _].
  apply completes_bind; [apply completes_glob | intros found].
  apply completes_for_each. intros n. unfold sign_archive.
  apply completes_bind; [apply completes_run | intros _; apply completes_modify].
Qed.

Lemma completes_publish args :
  (publish args = true -> truthy (api_key args) = true) ->
  completes (stage_publish env root args).
Proof.
  intros Hk. unfold stage_publish. destruct (publish args); [| apply completes_print].
  rewrite (Hk eq_refl). simpl.
  apply completes_bind; [apply completes_print | intros _].
  apply completes_bind; [apply completes_ret | intros _].
  apply completes_bind; [apply completes_glob | intros found].
  apply completes_for_each. intros n. unfold publish_archive.
  apply completes_bind; [apply completes_print | intros _].
  apply completes_bind; [apply completes_run | intros _; apply completes_modify].
Qed.

Lemma completes_main projects args :
  well_configured args -> completes (main env root projects args).
Proof.
  intros [Hc Hk]. unfold main, after_pack.
  apply completes_bind; [apply completes_mkdir | intros _].
  apply completes_bind.
  { intros st. eexists _, _. apply banner_unfold. }
  intros _.
  apply completes_bind; [apply completes_restore | intros _].
  apply completes_bind; [apply completes_build | intros _].
  apply completes_bind; [apply completes_pack | intros _].
  apply completes_bind; [apply completes_verify | intros _].
  apply completes_bind; [apply completes_sign, Hc | intros _].
  apply completes_bind; [apply completes_publish, Hk | intros _].
  apply completes_summary.
Qed.

End AllGoesWell.










End Ending.

(** X10: when nothing goes wrong the run succeeds: if the output directory
    can be made, every command starts and exits zero, every archive can be
    read, and the options of the requested stages are there, then [main]
    returns, with one record per project, in order, named after the project
    files and all packed. *)
Theorem run_succeeds_when_tools_do {W : Type} (env : Env W) (root : Path)
    (projects : list string) (args : Args) (w : W) :
  env_succeeds env ->
  well_configured args ->
  exists fin,
    main env root projects args (initial_state w) = (Returned tt, fin) /\
    List.map name (results fin) = List.map (project_name root) projects /\
    List.map packed (results fin) = List.map (fun _ => true) projects.
Proof.
  intros Hgood Hconf.
  destruct (completes_main env root Hgood projects args Hconf (initial_state w))
    as ([] & fin & E).
  exists fin. split; [exact E |].
  apply main_returned_rows in E as (Hn & Hk & _). auto.
Qed.


(** ** The rows of the summary *)

Lemma length_repeat s n : String.length (PyStr.repeat s n) = n * String.length s.
Proof.
  induction n as [|n IH]; [reflexivity |].
  simpl. rewrite length_append, IH. reflexivity.
Qed.

Lemma length_ljust w s : String.length (PyStr.ljust w s) = Nat.max w (String.length s).
Proof.
  unfold PyStr.ljust. rewrite length_append, length_repeat. simpl. lia.
Qed.

Lemma length_flag_cell b : String.length (PyStr.rjust 5 (flag_text b)) = 5.
Proof. destruct b; reflexivity. Qed.

Lemma append_inj_length a a' b b' :
  a +:+ b = a' +:+ b' -> String.length a = String.length a' -> a = a' /\ b = b'.
Proof.
  revert a'. induction a as [|x a IH]; intros [|x' a'] E L; simpl in L;
    try discriminate.
  - rewrite !append_nil in E. auto.
  - rewrite !append_String in E. injection E as -> E.
    destruct (IH a' E) as [-> ->]; [lia | auto].
Qed.

Lemma summary_row_cells r :
  summary_row r = PyStr.ljust 55 (name r) +:+ flag_cells r.
Proof. reflexivity. Qed.

Lemma length_flag_cells r : String.length (flag_cells r) = 18.
Proof. destruct r as [n [] [] []]; reflexivity. Qed.

Lemma flag_cells_inj r r' :
  flag_cells r = flag_cells r' ->
  packed r = packed r' /\ signed r = signed r' /\ published r = published r'.
Proof.
  destruct r as [n p s q], r' as [n' p' s' q']. unfold flag_cells. simpl.
  destruct p, s, q, p', s', q'; intros E; try discriminate E; auto.
Qed.

(** X12: a summary row never cuts a name and always has the same layout:
    it starts with the name, is 73 characters wide for a name of up to 55
    characters and 18 wider than a longer name, and shows the flags
    faithfully: two records with the same row have the same three flags,
    and the same name too when their names are equally long. *)
Theorem summary_row_is_faithful (r r' : Result) :
  String.prefix (name r) (summary_row r) = true /\
  String.length (summary_row r) = Nat.max 55 (String.length (name r)) + 18 /\
  (summary_row r = summary_row r' ->
   packed r = packed r' /\ signed r = signed r' /\ published r = published r' /\
   (String.length (name r) = String.length (name r') -> name r = name r')).
Proof.
  split; [| split].
  - apply prefix_iff_app. rewrite summary_row_cells. unfold PyStr.ljust.
    rewrite string_app_assoc. eexists. reflexivity.
  - rewrite summary_row_cells, length_append, length_ljust, length_flag_cells.
    reflexivity.
  - rewrite !summary_row_cells. intros E.
    assert (L : String.length (PyStr.ljust 55 (name r))
                = String.length (PyStr.ljust 55 (name r'))).
    { apply (f_equal String.length) in E.
      rewrite !length_append, !length_flag_cells in E. lia. }
    destruct (append_inj_length _ _ _ _ E L) as [Hname Hcells].
    apply flag_cells_inj in Hcells as (Hp & Hs & Hq).
    repeat split; try assumption.
    intros Hlen. unfold PyStr.ljust in Hname.
    apply (append_inj_length _ _ _ _ Hname Hlen).
Qed.

(** ** Signing is optional *)

Lemma frames_sign_off {W : Type} (env : Env W) root args :
  sign args = false ->
  frames not_sign true (keeps unsigned) (stage_sign env root args).
Proof.
  intros Hs st. rewrite stage_sign_off by exact Hs. simpl.
  split; [apply extends_refl | intros H; exact H].
Qed.

(** X13: with [sign] unset, whatever [publish] is, the run starts no sign
    command for any archive and every record of the registry is unsigned in
    the state the run ends in. *)
Theorem unsigned_without_sign_flag {W : Type} (env : Env W) (root : Path)
    (projects : list string) (args : Args) (w : W) :
  sign args = false ->
  let fin := snd (main env root projects args (initial_state w)) in
  invoked is_sign_cmd (trace fin) = [] /\
  (forall nupkg, ~ In (sign_cmd root args nupkg) (commands (trace fin))) /\
  Forall (fun r => signed r = false) (results fin).
Proof.
  intros Hs fin.
  assert (Hf : framed not_sign true (keeps unsigned) (initial_state w) fin).
  { apply main_without_sign. apply frames_sign_off. exact Hs. }
  apply (framed_from_initial _ _ _ _ _ is_sign_cmd) in Hf as [Hnone Hkeep].
  - split; [exact Hnone |]. split; [| apply Hkeep; constructor].
    intros nupkg. apply (not_invoked is_sign_cmd); [exact Hnone | reflexivity].
  - intros c. apply not_cmd_excludes.
Qed.

(** ** The commands of a run come in stage order *)

Lemma commands_of_ok okc okz d :
  Forall (event_ok okc okz) d -> all_of okc (commands d).
Proof.
  induction 1 as [|e d He Hd IH]; [constructor |].
  destruct e as [line|c cwd r|p|p]; try exact IH.
  constructor; [exact He | exact IH].
Qed.

Lemma none_of_no_cmd cs : all_of no_cmd cs -> cs = [].
Proof. intros H. destruct H as [|c cs Hc _]; [reflexivity | discriminate Hc]. Qed.

Section StageOrder.
Context {W : Type} (env : Env W) (root : Path).
Implicit Types st : State W.

Lemma adds_of_frames {A} okc okz RR (m : M W A) :
  frames okc okz RR m -> adds (all_of okc) m.
Proof.
  intros Hm st. destruct (Hm st) as [(d & Hd & Hok) _].
  exists d. split; [exact Hd | apply (commands_of_ok okc okz), Hok].
Qed.

Lemma adds_weaken {A} (P Q : list Cmd -> Prop) (m : M W A) :
  (forall cs, P cs -> Q cs) -> adds P m -> adds Q m.
Proof.
  intros HPQ Hm st. destruct (Hm st) as (d & Hd & HP). exists d. auto.
Qed.

Lemma adds_bind {A B} (P Q : list Cmd -> Prop) (m : M W A) (k : A -> M W B) :
  adds P m -> (forall a, adds Q (k a)) -> Q [] ->
  adds (in_turn P Q) (bind m k).
Proof.
  intros Hm Hk Hnil st. unfold bind.
  destruct (Hm st) as (d1 & Hd1 & HP).
  destruct (m st) as [[a|c|e] s1]; simpl in *.
  - destruct (Hk a s1) as (d2 & Hd2 & HQ). exists (d1 ++ d2).
    split; [rewrite Hd2, Hd1; symmetry; apply app_assoc |].
    exists (commands d1), (commands d2). rewrite commands_app. auto.
  - exists d1. split; [exact Hd1 |].
    exists (commands d1), []. rewrite app_nil_r. auto.
  - exists d1. split; [exact Hd1 |].
    exists (commands d1), []. rewrite app_nil_r. auto.
Qed.

Lemma adds_silent {A} (m : M W A) :
  frames no_cmd true any_registry m -> adds (eq []) m.
Proof.
  intros Hm. eapply adds_weaken; [| apply (adds_of_frames no_cmd true any_registry), Hm].
  intros cs H. symmetry. apply none_of_no_cmd, H.
Qed.

Lemma adds_announced_run h cmd cwd :
  adds (at_most cmd)
       (bind (print h) (fun _ => bind (run env cmd cwd true) (fun _ => ret tt))).
Proof.
  intros st. rewrite announced_run_unfold. cbv zeta.
  destruct (subprocess_run env cmd cwd (world st)) as [[r|] w].
  - destruct (negb (returncode r =? 0)%Z); eexists; (split; [reflexivity |]);
      right; reflexivity.
  - eexists. split; [reflexivity | right; reflexivity].
Qed.

Lemma adds_pack_loop args l :
  adds (first_of (List.map (pack_cmd root args) l))
       (for_each l (pack_project env root args)).
Proof.
  induction l as [|p l IH]; intros st.
  - exists []. simpl. split; [symmetry; apply app_nil_r | exists 0; reflexivity].
  - cbn [for_each]. unfold bind. rewrite pack_project_unfold. cbv zeta.
    destruct (subprocess_run env (pack_cmd root args p) (Some root) (world st))
      as [[r|] w].
    + destruct (negb (returncode r =? 0)%Z).
      * eexists. split; [reflexivity |]. exists 1. reflexivity.
      * match goal with
        | |- context [for_each l _ ?s] => destruct (IH s) as (d & Hd & (n & Hn))
        end.
        eexists (([_; _] ++ [_]) ++ d). cbn [snd] in *. rewrite Hd. cbn [trace].
        split; [rewrite <- !app_assoc; reflexivity |].
        exists (S n). rewrite !commands_app, Hn. reflexivity.
    + eexists. split; [reflexivity |]. exists 1. reflexivity.
Qed.

Lemma adds_pack projects args :
  adds (first_of (List.map (pack_cmd root args) projects))
       (stage_pack env root projects args).
Proof.
  intros st. rewrite stage_pack_unfold.
  match goal with
  | |- context [for_each projects _ ?s] =>
      destruct (adds_pack_loop args projects s) as (d & Hd & HP)
  end.
  cbn [trace] in Hd. eexists (_ :: d).
  split; [rewrite Hd, <- app_assoc; reflexivity | exact HP].
Qed.

Lemma adds_sign args :
  adds (fun cs => all_of is_sign_cmd cs /\ (sign args = false -> cs = []))
       (stage_sign env root args).
Proof.
  intros st. destruct (sign args) eqn:Hs.
  - assert (Hf : frames is_sign_cmd true any_registry (stage_sign env root args)).
    { frame_by frames_sign; [reflexivity | intros; exact I]. }
    destruct (adds_of_frames _ _ _ _ Hf st) as (d & Hd & Hall).
    exists d. split; [exact Hd |]. split; [exact Hall | discriminate].
  - exists []. rewrite stage_sign_off by exact Hs. simpl.
    split; [symmetry; apply app_nil_r |]. split; [constructor | reflexivity].
Qed.

Lemma adds_publish args :
  adds (fun cs => all_of is_push_cmd cs /\ (publish args = false -> cs = []))
       (stage_publish env root args).
Proof.
  intros st. destruct (publish args) eqn:Hp.
  - assert (Hf : frames is_push_cmd true any_registry (stage_publish env root args)).
    { frame_by frames_publish; [reflexivity | intros; exact I]. }
    destruct (adds_of_frames _ _ _ _ Hf st) as (d & Hd & Hall).
    exists d. split; [exact Hd |]. split; [exact Hall | discriminate].
  - eexists. rewrite stage_publish_off by exact Hp. simpl.
    split; [reflexivity |]. split; [constructor | reflexivity].
Qed.

End StageOrder.

(** X14: the commands of a run come in stage order and none is repeated out
    of turn: at most one [dotnet restore], then at most one [dotnet build],
    then the pack commands of the first few projects in the order of the
    project list, then sign commands only, then push commands only; and
    there are no sign commands when [sign] is unset and no push commands when
    [publish] is unset. *)
Theorem commands_come_in_stage_order {W : Type} (env : Env W) (root : Path)
    (projects : list string) (args : Args) (w : W) :
  exists (restored built : list Cmd) (packed_n : nat) (signs pushes : list Cmd),
    commands (trace (snd (main env root projects args (initial_state w))))
    = restored ++ built ++
      firstn packed_n (List.map (pack_cmd root args) projects) ++
      signs ++ pushes /\
    (restored = [] \/ restored = [restore_cmd]) /\
    (built = [] \/ built = [build_cmd]) /\
    Forall (fun c => is_sign_cmd c = true) signs /\
    Forall (fun c => is_push_cmd c = true) pushes /\
    (sign args = false -> signs = []) /\
    (publish args = false -> pushes = []).
Proof.
  assert (Hmain :
    adds (in_turn (eq [])
         (in_turn (eq [])
         (in_turn (at_most restore_cmd)
         (in_turn (at_most build_cmd)
         (in_turn (first_of (List.map (pack_cmd root args) projects))
         (in_turn (eq [])
         (in_turn (fun cs => all_of is_sign_cmd cs /\ (sign args = false -> cs = []))
         (in_turn (fun cs => all_of is_push_cmd cs /\ (publish args = false -> cs = []))
                  (eq [])))))))))
         (main env root projects args)).
  { unfold main, after_pack.
    assert (Hlast : forall cs : list Cmd, cs = [] -> eq [] cs) by (intros; subst; reflexivity).
    repeat (apply adds_bind; [| intros _ |]).
    - apply adds_silent. frame_by frames_mkdir.
    - apply adds_silent. frame_by frames_banner.
    - apply adds_announced_run.
    - apply adds_announced_run.
    - apply adds_pack.
    - apply adds_silent. frame_by frames_verify. reflexivity.
    - apply adds_sign.
    - apply adds_publish.
    - apply adds_silent. frame_by frames_summary.
    - reflexivity.
    - exists [], []. repeat split; auto. constructor.
    - exists [], []. repeat split; auto; try constructor.
      exists [], []. repeat split; auto. constructor.
    - exists [], []. split; [reflexivity |]. split; [reflexivity |].
      exists [], []. repeat split; auto; try constructor.
      exists [], []. repeat split; auto. constructor.
    - exists [], []. split; [reflexivity |]. split; [exists 0; reflexivity |].
      exists [], []. split; [reflexivity |]. split; [reflexivity |].
      exists [], []. repeat split; auto; try constructor.
      exists [], []. repeat split; auto. constructor.
    - exists [], []. split; [reflexivity |]. split; [left; reflexivity |].
      exists [], []. split; [reflexivity |]. split; [exists 0; reflexivity |].
      exists [], []. split; [reflexivity |]. split; [reflexivity |].
      exists [], []. repeat split; auto; try constructor.
      exists [], []. repeat split; auto. constructor.
    - exists [], []. split; [reflexivity |]. split; [left; reflexivity |].
      exists [], []. split; [reflexivity |]. split; [left; reflexivity |].
      exists [], []. split; [reflexivity |]. split; [exists 0; reflexivity |].
      exists [], []. split; [reflexivity |]. split; [reflexivity |].
      exists [], []. repeat split; auto; try constructor.
      exists [], []. repeat split; auto. constructor.
    - exists [], []. split; [reflexivity |]. split; [reflexivity |].
      exists [], []. split; [reflexivity |]. split; [left; reflexivity |].
      exists [], []. split; [reflexivity |]. split; [left; reflexivity |].
      exists [], []. split; [reflexivity |]. split; [exists 0; reflexivity |].
      exists [], []. split; [reflexivity |]. split; [reflexivity |].
      exists [], []. repeat split; auto; try constructor.
      exists [], []. repeat split; auto. constructor. }
  destruct (Hmain (initial_state w)) as (d & Hd & Hseq). simpl in Hd.
  destruct Hseq as (c0 & t0 & E0 & <- & Hseq).
  destruct Hseq as (c1 & t1 & E1 & <- & Hseq).
  destruct Hseq as (cr & t2 & E2 & Hcr & Hseq).
  destruct Hseq as (cb & t3 & E3 & Hcb & Hseq).
  destruct Hseq as (cp & t4 & E4 & (n & Hcp) & Hseq).
  destruct Hseq as (c5 & t5 & E5 & <- & Hseq).
  destruct Hseq as (cs & t6 & E6 & (Hcs & Hcs0) & Hseq).
  destruct Hseq as (cu & t7 & E7 & (Hcu & Hcu0) & <-).
  exists cr, cb, n, cs, cu. rewrite Hd.
  split.
  - rewrite E0, E1, E2, E3, E4, E5, E6, E7, Hcp. simpl.
    rewrite app_nil_r. reflexivity.
  - repeat split; assumption.
Qed.

(** ** What is printed of a command *)

Lemma echoed_nil : echoed [].
Proof. intros pre c cwd r post H. destruct pre; discriminate H. Qed.

Lemma echoed_one e : is_run e = false -> echoed [e].
Proof.
  intros He pre c cwd r post H. destruct pre as [|x pre].
  - injection H as -> _. discriminate He.
  - injection H as _ H. destruct pre; discriminate H.
Qed.

Lemma echoed_pair c cwd r : echoed [echo c; ERun c cwd r].
Proof.
  intros pre c' cwd' r' post H. destruct pre as [|x [|y pre]].
  - discriminate H.
  - injection H as <- <- _ _ _. exists []. reflexivity.
  - injection H as _ _ H. destruct pre; discriminate H.
Qed.

Lemma echoed_app d1 d2 : echoed d1 -> echoed d2 -> echoed (d1 ++ d2).
Proof.
  intros H1 H2 pre c cwd r post E.
  apply List.app_eq_app in E as (l & [[-> E]|[-> E]]).
  - destruct l as [|x l].
    + destruct (H2 [] c cwd r post) as (pre' & Hp); [symmetry; exact E |].
      destruct pre'; discriminate Hp.
    + injection E as <- _. apply (H1 pre c cwd r l). reflexivity.
  - destruct (H2 l c cwd r post E) as (pre' & ->).
    exists (d1 ++ pre'). apply app_assoc.
Qed.

Lemma commands_in t c :
  In c (commands t) -> exists pre cwd r post, t = pre ++ ERun c cwd r :: post.
Proof.
  induction t as [|e t IH]; [intros [] |].
  assert (Hrest : In c (commands t) ->
                  exists pre cwd r post, e :: t = pre ++ ERun c cwd r :: post).
  { intros Hin. destruct (IH Hin) as (pre & cwd & r & post & ->).
    exists (e :: pre), cwd, r, post. reflexivity. }
  destruct e as [l|c' cwd r|p|p]; simpl; try exact Hrest.
  intros [->|Hin]; [| exact (Hrest Hin)].
  exists [], cwd, r, t. reflexivity.
Qed.

Section Echo.
Context {W : Type} (env : Env W) (root : Path).
Implicit Types st : State W.

Lemma echoes_ret {A} (a : A) : echoes (ret a : M W A).
Proof.
  intros st. exists []. simpl. split; [symmetry; apply app_nil_r | apply echoed_nil].
Qed.

Lemma echoes_sys_exit {A} c : echoes (@sys_exit W A c).
Proof.
  intros st. exists []. simpl. split; [symmetry; apply app_nil_r | apply echoed_nil].
Qed.

Lemma echoes_bind {A B} (m : M W A) (k : A -> M W B) :
  echoes m -> (forall a, echoes (k a)) -> echoes (bind m k).
Proof.
  intros Hm Hk st. unfold bind.
  destruct (Hm st) as (d1 & Ht1 & P1).
  destruct (m st) as [[a|c|e] s1]; simpl in *.
  - destruct (Hk a s1) as (d2 & Ht2 & P2). exists (d1 ++ d2).
    split; [rewrite Ht2, Ht1; symmetry; apply app_assoc |].
    apply echoed_app; assumption.
  - exists d1. auto.
  - exists d1. auto.
Qed.

Lemma echoes_for_each {A} (l : list A) (body : A -> M W unit) :
  (forall x, echoes (body x)) -> echoes (for_each l body).
Proof.
  intros Hb. induction l as [|x l IH]; simpl.
  - apply echoes_ret.
  - apply echoes_bind; [apply Hb | intros _; exact IH].
Qed.

Lemma echoes_print line : echoes (print line : M W unit).
Proof.
  intros st. exists [EPrint line]. simpl.
  split; [reflexivity | apply echoed_one; reflexivity].
Qed.

Lemma echoes_modify f : echoes (modify_results f : M W unit).
Proof.
  intros st. exists []. simpl. split; [symmetry; apply app_nil_r | apply echoed_nil].
Qed.

Lemma echoes_glob d pat : echoes (glob env d pat).
Proof.
  intros st. exists []. simpl. split; [symmetry; apply app_nil_r | apply echoed_nil].
Qed.

Lemma echoes_mkdir p : echoes (path_mkdir env p).
Proof.
  intros st. exists [EMkdir p]. unfold path_mkdir.
  destruct (mkdir env p (world st)); simpl;
    (split; [reflexivity | apply echoed_one; reflexivity]).
Qed.

Lemma echoes_zip p : echoes (zip_namelist env p).
Proof.
  intros st. exists [EZipOpen p]. unfold zip_namelist.
  destruct (namelist env p (world st)); simpl;
    (split; [reflexivity | apply echoed_one; reflexivity]).
Qed.

(** [run] echoes its command whether or not it checks the exit status. *)
Lemma echoes_run cmd cwd check : echoes (run env cmd cwd check).
Proof.
  intros st. rewrite run_unfold. simpl.
  destruct (subprocess_run env cmd cwd (world st)) as [[r|] w].
  - destruct (check && negb (returncode r =? 0)%Z); simpl.
    + exists ([echo cmd; ERun cmd cwd (Some r)] ++ [error_line r]).
      split; [reflexivity |].
      apply echoed_app; [apply echoed_pair | apply echoed_one; reflexivity].
    + exists [echo cmd; ERun cmd cwd (Some r)].
      split; [reflexivity | apply echoed_pair].
  - exists [echo cmd; ERun cmd cwd None]. simpl.
    split; [reflexivity | apply echoed_pair].
Qed.

Lemma echoes_main projects args : echoes (main env root projects args).
Proof.
  unfold main, after_pack.
  apply echoes_bind; [apply echoes_mkdir | intros _].
  apply echoes_bind; [| intros _].
  { unfold banner. repeat (apply echoes_bind; [apply echoes_print | intros _]).
    apply echoes_print. }
  apply echoes_bind; [| intros _].
  { unfold stage_restore.
    apply echoes_bind; [apply echoes_print | intros _].
    apply echoes_bind; [apply echoes_run | intros _; apply echoes_ret]. }
  apply echoes_bind; [| intros _].
  { unfold stage_build.
    apply echoes_bind; [apply echoes_print | intros _].
    apply echoes_bind; [apply echoes_run | intros _; apply echoes_ret]. }
  apply echoes_bind; [| intros _].
  { unfold stage_pack.
    apply echoes_bind; [apply echoes_print | intros _].
    apply echoes_bind; [apply echoes_modify | intros _].
    apply echoes_for_each. intros p. unfold pack_project.
    apply echoes_bind; [apply echoes_print | intros _].
    apply echoes_bind; [apply echoes_run | intros _; apply echoes_modify]. }
  apply echoes_bind; [| intros _].
  { unfold stage_verify.
    apply echoes_bind; [apply echoes_print | intros _].
    apply echoes_bind; [apply echoes_glob | intros found].
    apply echoes_for_each. intros n. unfold verify_archive.
    apply echoes_bind; [apply echoes_zip | intros names; apply echoes_print]. }
  apply echoes_bind; [| intros _].
  { unfold stage_sign. destruct (sign args); [| apply echoes_ret].
    apply echoes_bind; [apply echoes_print | intros _].
    apply echoes_bind.
    - destruct (negb (truthy (cert_path args))); [| apply echoes_ret].
      apply echoes_bind; [apply echoes_print | intros _; apply echoes_sys_exit].
    - intros _. apply echoes_bind; [apply echoes_glob | intros found].
      apply echoes_for_each. intros n. unfold sign_archive.
      apply echoes_bind; [apply echoes_run | intros _; apply echoes_modify]. }
  apply echoes_bind; [| intros _].
  { unfold stage_publish. destruct (publish args); [| apply echoes_print].
    apply echoes_bind; [apply echoes_print | intros _].
    apply echoes_bind.
    - destruct (negb (truthy (api_key args))); [| apply echoes_ret].
      apply echoes_bind; [apply echoes_print | intros _; apply echoes_sys_exit].
    - intros _. apply echoes_bind; [apply echoes_glob | intros found].
      apply echoes_for_each. intros n. unfold publish_archive.
      apply echoes_bind; [apply echoes_print | intros _].
      apply echoes_bind; [apply echoes_run | intros _; apply echoes_modify]. }
  unfold summary. repeat (apply echoes_bind; [apply echoes_print | intros _]).
  apply echoes_bind; [| intros _; apply echoes_print].
  intros st. apply (echoes_for_each (results st)). intros r. apply echoes_print.
Qed.

End Echo.

(** X15: every command of a run is echoed in full on the line printed right
    before it starts, so what its words hold is printed too: a run that
    pushes an archive prints the API key, and a run that signs one with a
    certificate password prints the password. *)
Theorem commands_are_echoed_with_their_secrets {W : Type} (env : Env W)
    (root : Path) (projects : list string) (args : Args) (w : W) :
  let t := trace (snd (main env root projects args (initial_state w))) in
  (forall pre c cwd r post,
      t = pre ++ ERun c cwd r :: post ->
      exists pre', pre = pre' ++ [EPrint ("  > " +:+ cmd_text c)]) /\
  (forall key n,
      api_key args = Some key ->
      In (push_cmd root args n) (commands t) ->
      In (EPrint ("  > dotnet nuget push " +:+ archive_path root n +:+
                  " --api-key " +:+ key +:+
                  " --source https://api.nuget.org/v3/index.json --skip-duplicate"))
         t) /\
  (forall cert pw n,
      cert_path args = Some cert ->
      cert_password args = Some pw -> pw <> "" ->
      In (sign_cmd root args n) (commands t) ->
      In (EPrint ("  > dotnet nuget sign " +:+ archive_path root n +:+
                  " --certificate-path " +:+ cert +:+
                  " --timestamper http://timestamp.digicert.com" +:+
                  " --certificate-password " +:+ pw))
         t).
Proof.
  intros t.
  assert (Hecho : echoed t).
  { destruct (echoes_main env root projects args (initial_state w))
      as (d & Hd & He).
    unfold t. rewrite Hd. exact He. }
  assert (Hin : forall c, In c (commands t) -> In (echo c) t).
  { intros c Hc. apply commands_in in Hc as (pre & cwd & r & post & E).
    destruct (Hecho pre c cwd r post E) as (pre' & ->).
    rewrite E. apply in_or_app. left. apply in_or_app. right. left. reflexivity. }
  split; [exact Hecho |]. split.
  - intros key n Hkey Hc. apply Hin in Hc.
    unfold echo, push_cmd in Hc. rewrite Hkey in Hc. exact Hc.
  - intros cert pw n Hcert Hpw Hne Hc. apply Hin in Hc.
    unfold echo, sign_cmd, truthy in Hc. rewrite Hcert, Hpw in Hc.
    apply String.eqb_neq in Hne. rewrite Hne in Hc. exact Hc.
Qed.

(** * Concrete runs *)

(** The end-to-end scenario: two projects, dry run. *)
Example dry_run_of_two_projects :
  let ending := main Runs.ok_env Sim.repo Runs.two Sim.dry_run Runs.start in
  fst ending = Returned tt /\
  commands (trace (snd ending))
  = [restore_cmd; build_cmd;
     pack_cmd Sim.repo Sim.dry_run "src/A/A.csproj";
     pack_cmd Sim.repo Sim.dry_run "src/B/B.csproj"] /\
  zip_opens (trace (snd ending))
  = ["/repo/packages/A.1.0.0.nupkg"; "/repo/packages/B.1.0.0.nupkg"] /\
  results (snd ending)
  = [mkResult "A" true false false; mkResult "B" true false false].
Proof. vm_compute. repeat split; reflexivity. Qed.

(** A dry run of the script over its thirteen projects. *)
Example dry_run_of_the_packages :
  let ending := publish_packages Runs.ok_env Sim.repo Sim.dry_run Runs.start in
  fst ending = Returned tt /\
  List.map name (results (snd ending))
  = ["WorkflowForge";
     "WorkflowForge.Testing";
     "WorkflowForge.Extensions.DependencyInjection";
     "WorkflowForge.Extensions.Logging.Serilog";
     "WorkflowForge.Extensions.Resilience";
     "WorkflowForge.Extensions.Resilience.Polly";
     "WorkflowForge.Extensions.Validation";
     "WorkflowForge.Extensions.Audit";
     "WorkflowForge.Extensions.Persistence";
     "WorkflowForge.Extensions.Persistence.Recovery";
     "WorkflowForge.Extensions.Observability.Performance";
     "WorkflowForge.Extensions.Observability.HealthChecks";
     "WorkflowForge.Extensions.Observability.OpenTelemetry"] /\
  length (zip_opens (trace (snd ending))) = 13.
Proof. vm_compute. repeat split; reflexivity. Qed.

(** A full release marks every record signed and published. *)
Example release_of_two_projects :
  let ending := main Runs.ok_env Sim.repo Runs.two Sim.release Runs.start in
  fst ending = Returned tt /\
  results (snd ending)
  = [mkResult "A" true true true; mkResult "B" true true true].
Proof. vm_compute. repeat split; reflexivity. Qed.

(** An archive can match several records: the archive of
    [WorkflowForge.Testing] also marks [WorkflowForge]. *)
Example archive_marks_two_records :
  match_and_mark k_signed "WorkflowForge.Testing.2.1.0.nupkg"
    [packed_result "WorkflowForge"; packed_result "WorkflowForge.Testing";
     packed_result "WorkflowForge.Extensions.Audit"]
  = [mkResult "WorkflowForge" true true false;
     mkResult "WorkflowForge.Testing" true true false;
     mkResult "WorkflowForge.Extensions.Audit" true false false].
Proof. reflexivity. Qed.

Lemma pack_stage_registry_witness :
  stage_pack Runs.ok_env Sim.repo Runs.two Sim.dry_run Runs.start
  = (Returned tt, snd (stage_pack Runs.ok_env Sim.repo Runs.two Sim.dry_run Runs.start)) /\
  results (snd (stage_pack Runs.ok_env Sim.repo Runs.two Sim.dry_run Runs.start))
  = [mkResult "A" true false false; mkResult "B" true false false].
Proof.
  split; [vm_compute; reflexivity |].
  apply (pack_stage_registry Runs.ok_env Sim.repo Runs.two Sim.dry_run Runs.start).
  vm_compute. reflexivity.
Defined.

Lemma pack_failure_halts_witness :
  let projects := ["src/A/A.csproj"] ++ "src/B/B.csproj" :: ["src/C/C.csproj"] in
  fst (stage_pack Runs.b_fails_env Sim.repo projects Sim.dry_run Runs.start)
  = Exited 1%Z /\
  results (snd (stage_pack Runs.b_fails_env Sim.repo projects Sim.dry_run Runs.start))
  = [mkResult "A" true false false].
Proof.
  intros projects.
  destruct (pack_failure_halts Runs.b_fails_env Sim.repo Sim.dry_run
              ["src/A/A.csproj"] "src/B/B.csproj" ["src/C/C.csproj"]
              Runs.start Runs.after_a Runs.failure (world Runs.after_a))
    as (Hrun & _ & _).
  - vm_compute. reflexivity.
  - vm_compute. reflexivity.
  - simpl. lia.
  - unfold projects. rewrite Hrun. split; reflexivity.
Defined.

Lemma missing_option_is_fatal_witness :
  sign Runs.unconfigured = true /\ truthy (cert_path Runs.unconfigured) = false /\
  publish Runs.unconfigured = true /\ truthy (api_key Runs.unconfigured) = false /\
  (forall a,
      fst (main Runs.ok_env Sim.repo Runs.two Runs.unconfigured Runs.start)
      <> Returned a) /\
  invoked is_sign_cmd
    (trace (snd (main Runs.ok_env Sim.repo Runs.two Runs.unconfigured Runs.start)))
  = [] /\
  invoked is_push_cmd
    (trace (snd (main Runs.ok_env Sim.repo Runs.two Runs.unconfigured Runs.start)))
  = [].
Proof.
  destruct (missing_option_is_fatal Runs.ok_env Sim.repo Runs.two Runs.unconfigured)
    as [Hsign Hpush].
  destruct (Hsign eq_refl eq_refl) as [_ Hs].
  destruct (Hpush eq_refl eq_refl) as [_ Hp].
  destruct (Hs []) as (Hnever & Hnone & _).
  destruct (Hp []) as (_ & Hnone' & _).
  repeat split; try reflexivity; assumption.
Defined.


Lemma run_check_fatal_on_nonzero_witness :
  run Runs.broken_env restore_cmd None true Runs.start
  = (Exited 1%Z,
     mkState []
       [EPrint "  > dotnet restore WorkflowForge.sln";
        ERun restore_cmd None (Some Runs.failure);
        EPrint "  ERROR: error: tool failed"] []) /\
  run Runs.ok_env restore_cmd None true Runs.start
  = (Returned (mkCompleted 0 "" ""),
     mkState []
       [EPrint "  > dotnet restore WorkflowForge.sln";
        ERun restore_cmd None (Some (mkCompleted 0 "" ""))] []) /\
  fst (main Runs.b_fails_env Sim.repo Runs.two Sim.release Runs.start)
  = Exited 1%Z.
Proof.
  destruct (run_check_fatal_on_nonzero Runs.broken_env) as [Hbroken _].
  destruct (run_check_fatal_on_nonzero Runs.ok_env) as [Hok _].
  destruct (run_check_fatal_on_nonzero Runs.b_fails_env) as [_ Hmain].
  split; [| split].
  - destruct (Hbroken restore_cmd None Runs.start Runs.failure [] eq_refl)
      as [Hfail _].
    destruct Hfail as [Hrun _]; [simpl; lia | exact Hrun].
  - destruct (Hok restore_cmd None Runs.start (mkCompleted 0 "" "") [] eq_refl)
      as [_ Hpass].
    destruct Hpass as [Hrun _]; [reflexivity | exact Hrun].
  - refine (proj1 (Hmain Sim.repo Runs.two Sim.release []
                     (firstn 18 (trace (snd (main Runs.b_fails_env Sim.repo Runs.two
                                               Sim.release Runs.start))))
                     (pack_cmd Sim.repo Sim.release "src/B/B.csproj")
                     (Some Sim.repo) Runs.failure
                     [EPrint "  ERROR: error: tool failed"] _ _)).
    + vm_compute. reflexivity.
    + simpl. lia.
Defined.

Lemma missing_readme_only_warns_witness :
  namelist Runs.bare_env (archive_path Sim.repo "Foo.1.0.0.nupkg")
           (world Runs.packed_foo) = Some ["pkg.nuspec"] /\
  has_readme ["pkg.nuspec"] = false /\
  verify_archive Runs.bare_env Sim.repo "Foo.1.0.0.nupkg" Runs.packed_foo
  = (Returned tt,
     mkState (world Runs.packed_foo)
       [EZipOpen "/repo/packages/Foo.1.0.0.nupkg";
        EPrint "  Foo.1.0.0.nupkg: WARNING: no README (1 files)"]
       (results Runs.packed_foo)) /\
  fst (stage_verify Runs.bare_env Sim.repo Runs.packed_foo) = Returned tt /\
  fst (main Runs.ok_env Sim.repo Runs.two Sim.release Runs.start)
  = fst (main (with_namelist Runs.ok_env (namelist Runs.bare_env))
              Sim.repo Runs.two Sim.release Runs.start).
Proof.
  destruct (missing_readme_only_warns Runs.bare_env Sim.repo)
    as (Hone & Hall & _).
  destruct (missing_readme_only_warns Runs.ok_env Sim.repo) as (_ & _ & Htwin).
  split; [reflexivity |]. split; [reflexivity |]. split; [| split].
  - apply (Hone Runs.packed_foo "Foo.1.0.0.nupkg" ["pkg.nuspec"]); reflexivity.
  - destruct (Hall Runs.packed_foo) as (Hv & _ & _).
    + intros n _. simpl. congruence.
    + rewrite Hv. reflexivity.
  - apply (Htwin (namelist Runs.bare_env)).
    intros p w. simpl. split; intros H; discriminate H.
Defined.

Lemma dry_run_publishes_nothing_witness :
  publish Sim.dry_run = false /\
  invoked is_push_cmd
    (trace (snd (main Runs.ok_env Sim.repo Runs.two Sim.dry_run Runs.start))) = [] /\
  (forall nupkg,
      ~ In (push_cmd Sim.repo Sim.dry_run nupkg)
           (commands (trace (snd (main Runs.ok_env Sim.repo Runs.two Sim.dry_run
                                       Runs.start))))) /\
  Forall (fun r => published r = false)
    (results (snd (main Runs.ok_env Sim.repo Runs.two Sim.dry_run Runs.start))).
Proof.
  split; [reflexivity |].
  apply (dry_run_publishes_nothing Runs.ok_env Sim.repo Runs.two Sim.dry_run []).
  reflexivity.
Defined.


Lemma stages_follow_packing_and_sweep_archives_witness :
  let tr := trace (snd (main Runs.ok_env Sim.repo Runs.foo Sim.release Runs.start)) in
  tr = firstn 17 tr ++ EZipOpen "/repo/packages/Foo.1.0.0.nupkg" :: skipn 18 tr /\
  invoked is_pack_cmd (firstn 17 tr)
  = [pack_cmd Sim.repo Sim.release "src/Foo/Foo.csproj"] /\
  sign Sim.release = true /\
  stage_sign Runs.ok_env Sim.repo Sim.release Runs.packed_foo
  = (Returned tt, snd (stage_sign Runs.ok_env Sim.repo Sim.release Runs.packed_foo)) /\
  commands (trace (snd (stage_sign Runs.ok_env Sim.repo Sim.release Runs.packed_foo)))
  = List.map (sign_cmd Sim.repo Sim.release)
             ["Foo.1.0.0.nupkg"; "Foo.1.0.0.snupkg"] /\
  commands (trace (snd (stage_publish Runs.ok_env Sim.repo Sim.release Runs.packed_foo)))
  = List.map (push_cmd Sim.repo Sim.release)
             ["Foo.1.0.0.nupkg"; "Foo.1.0.0.snupkg"] /\
  zip_opens (trace (snd (stage_verify Runs.ok_env Sim.repo Runs.packed_foo)))
  = ["/repo/packages/Foo.1.0.0.nupkg"].
Proof.
  intros tr.
  destruct (stages_follow_packing_and_sweep_archives
              Runs.ok_env Sim.repo Runs.foo Sim.release)
    as (Horder & Hverify & Hsign & Hpush & _).
  assert (Hsplit : tr = firstn 17 tr ++
                        EZipOpen "/repo/packages/Foo.1.0.0.nupkg" :: skipn 18 tr)
    by (vm_compute; reflexivity).
  split; [exact Hsplit |]. split.
  - destruct (Horder [] _ _ _ Hsplit eq_refl) as [Hbefore _]. exact Hbefore.
  - split; [reflexivity |]. split; [vm_compute; reflexivity |]. split; [| split].
    + rewrite (Hsign Runs.packed_foo _ eq_refl); [vm_compute; reflexivity |].
      vm_compute. reflexivity.
    + rewrite (Hpush Runs.packed_foo _ eq_refl); [vm_compute; reflexivity |].
      vm_compute. reflexivity.
    + destruct (Hverify Runs.packed_foo
                  (snd (stage_verify Runs.ok_env Sim.repo Runs.packed_foo)))
        as [_ Hz]; [vm_compute; reflexivity |].
      rewrite Hz. vm_compute. reflexivity.
Defined.

(** C4 as stated fails: in a release of one project whose pack produces a
    package and a symbols package, the symbols package is signed although
    the verifier never opened it. *)
Lemma signed_archive_never_verified :
  let ending := main Runs.ok_env Sim.repo Runs.foo Sim.release Runs.start in
  fst ending = Returned tt /\
  ~ (forall n,
        In (sign_cmd Sim.repo Sim.release n) (commands (trace (snd ending))) ->
        In (archive_path Sim.repo n) (zip_opens (trace (snd ending)))).
Proof.
  intros ending. split; [vm_compute; reflexivity |].
  intros H. specialize (H "Foo.1.0.0.snupkg").
  assert (Hsigned : In (sign_cmd Sim.repo Sim.release "Foo.1.0.0.snupkg")
                       (commands (trace (snd ending)))).
  { vm_compute. do 4 right. left. reflexivity. }
  apply H in Hsigned. vm_compute in Hsigned.
  destruct Hsigned as [E|[]]. discriminate E.
Qed.

(** ** Concrete runs of the further properties *)

Lemma failure_before_packing_witness :
  main Runs.no_dir_env Sim.repo Runs.two Sim.release Runs.start
  = (Raised "OSError", mkState [] [EMkdir (output_dir Sim.repo)] []) /\
  commands (trace (snd (main Runs.broken_env Sim.repo Runs.two Sim.release Runs.start)))
  = [restore_cmd] /\
  commands (trace (snd (main Runs.build_fails_env Sim.repo Runs.two Sim.release
                             Runs.start)))
  = [restore_cmd; build_cmd].
Proof.
  destruct (failure_before_packing Runs.no_dir_env Sim.repo Runs.two Sim.release [])
    as (Hdir & _ & _).
  destruct (failure_before_packing Runs.broken_env Sim.repo Runs.two Sim.release [])
    as (_ & Hrestore & _).
  destruct (failure_before_packing Runs.build_fails_env Sim.repo Runs.two
              Sim.release [])
    as (_ & _ & Hbuild).
  split; [apply Hdir; reflexivity |]. split.
  - destruct (Hrestore [] Runs.failure []) as (_ & Hc & _);
      [reflexivity | reflexivity | simpl; lia | exact Hc].
  - destruct (Hbuild [] (mkCompleted 0 "" "") [] Runs.failure [])
      as (_ & Hc & _);
      [reflexivity | reflexivity | reflexivity | reflexivity | simpl; lia | exact Hc].
Defined.

Lemma unreadable_archive_is_fatal_witness :
  archives Runs.unreadable_env Sim.repo "*.nupkg" (world Runs.packed_two)
  = ["A.1.0.0.nupkg"] ++ "B.1.0.0.nupkg" :: ["C.1.0.0.nupkg"] /\
  fst (after_pack Runs.unreadable_env Sim.repo Sim.release Runs.packed_two)
  = Raised "BadZipFile" /\
  zip_opens (trace (snd (after_pack Runs.unreadable_env Sim.repo Sim.release
                                    Runs.packed_two)))
  = ["/repo/packages/A.1.0.0.nupkg"; "/repo/packages/B.1.0.0.nupkg"] /\
  commands (trace (snd (after_pack Runs.unreadable_env Sim.repo Sim.release
                                   Runs.packed_two))) = [].
Proof.
  assert (Harch : archives Runs.unreadable_env Sim.repo "*.nupkg"
                    (world Runs.packed_two)
                  = ["A.1.0.0.nupkg"] ++ "B.1.0.0.nupkg" :: ["C.1.0.0.nupkg"])
    by (vm_compute; reflexivity).
  split; [exact Harch |].
  destruct (unreadable_archive_is_fatal Runs.unreadable_env Sim.repo
              Runs.packed_two ["A.1.0.0.nupkg"] "B.1.0.0.nupkg" ["C.1.0.0.nupkg"]
              Harch)
    as (_ & Hafter & Hopens).
  - intros m [<-|[]]. vm_compute. discriminate.
  - vm_compute. reflexivity.
  - rewrite (Hafter Sim.release). cbn [fst snd].
    split; [reflexivity |]. split; [| vm_compute; reflexivity].
    rewrite Hopens. vm_compute. reflexivity.
Defined.

Lemma marks_follow_archives_witness :
  stage_sign Runs.ok_env Sim.repo Sim.release Runs.packed_foo
  = (Returned tt, snd (stage_sign Runs.ok_env Sim.repo Sim.release Runs.packed_foo)) /\
  results (snd (stage_sign Runs.ok_env Sim.repo Sim.release Runs.packed_foo))
  = [mkResult "Foo" true true false] /\
  results (snd (stage_publish Runs.ok_env Sim.repo Sim.release Runs.packed_foo))
  = [mkResult "Foo" true false true].
Proof.
  assert (Hs : stage_sign Runs.ok_env Sim.repo Sim.release Runs.packed_foo
               = (Returned tt,
                  snd (stage_sign Runs.ok_env Sim.repo Sim.release Runs.packed_foo)))
    by (vm_compute; reflexivity).
  assert (Hp : stage_publish Runs.ok_env Sim.repo Sim.release Runs.packed_foo
               = (Returned tt,
                  snd (stage_publish Runs.ok_env Sim.repo Sim.release Runs.packed_foo)))
    by (vm_compute; reflexivity).
  split; [exact Hs |]. split.
  - destruct (marks_follow_archives Runs.ok_env Sim.repo Sim.release Runs.packed_foo
                (snd (stage_sign Runs.ok_env Sim.repo Sim.release Runs.packed_foo)))
      as (Hsign & _ & _).
    rewrite (Hsign eq_refl Hs). vm_compute. reflexivity.
  - destruct (marks_follow_archives Runs.ok_env Sim.repo Sim.release Runs.packed_foo
                (snd (stage_publish Runs.ok_env Sim.repo Sim.release Runs.packed_foo)))
      as (_ & Hpush & _).
    rewrite (Hpush eq_refl Hp). vm_compute. reflexivity.
Defined.

Lemma marking_order_is_irrelevant_witness :
  ["A.1.0.0.nupkg"; "B.1.0.0.nupkg"] ≡ₚ ["B.1.0.0.nupkg"; "A.1.0.0.nupkg"] /\
  marked_all k_signed ["A.1.0.0.nupkg"; "B.1.0.0.nupkg"]
             [packed_result "A"; packed_result "B"]
  = marked_all k_signed ["B.1.0.0.nupkg"; "A.1.0.0.nupkg"]
               [packed_result "A"; packed_result "B"].
Proof.
  assert (Hperm : ["A.1.0.0.nupkg"; "B.1.0.0.nupkg"]
                  ≡ₚ ["B.1.0.0.nupkg"; "A.1.0.0.nupkg"]) by apply perm_swap.
  split; [exact Hperm |].
  apply (proj2 marking_order_is_irrelevant). exact Hperm.
Defined.

Lemma longer_name_shares_its_archives_witness :
  name (packed_result "WorkflowForge.Testing")
  = name (packed_result "WorkflowForge") +:+ "." +:+ "Testing" /\
  name_matches (packed_result "WorkflowForge.Testing")
               "WorkflowForge.Testing.2.1.0.nupkg" = true /\
  name_matches (packed_result "WorkflowForge")
               "WorkflowForge.Testing.2.1.0.nupkg" = true.
Proof.
  split; [reflexivity |]. split; [reflexivity |].
  apply (longer_name_shares_its_archives k_signed
           (packed_result "WorkflowForge") (packed_result "WorkflowForge.Testing")
           "WorkflowForge.Testing.2.1.0.nupkg" "Testing"); reflexivity.
Defined.

Lemma record_name_is_file_stem_witness :
  project_name Sim.repo
    ("src/extensions/WorkflowForge.Extensions.Audit" +:+ "/" +:+
     "WorkflowForge.Extensions.Audit" +:+ "." +:+ "csproj")
  = "WorkflowForge.Extensions.Audit".
Proof.
  apply (record_name_is_file_stem Sim.repo
           "src/extensions/WorkflowForge.Extensions.Audit"
           "WorkflowForge.Extensions.Audit" "csproj").
  - discriminate.
  - discriminate.
  - rewrite <- list_elem_of_In. apply (bool_decide_unpack _). vm_compute. exact I.
  - rewrite <- list_elem_of_In. apply (bool_decide_unpack _). vm_compute. exact I.
  - rewrite <- list_elem_of_In. apply (bool_decide_unpack _). vm_compute. exact I.
Defined.

Lemma failure_leaves_partial_marks_witness :
  fst (stage_publish Runs.symbols_fail_env Sim.repo Sim.release Runs.packed_foo)
  = Exited 1%Z /\
  results (snd (stage_publish Runs.symbols_fail_env Sim.repo Sim.release
                              Runs.packed_foo))
  = [mkResult "Foo" true false true] /\
  results (snd (stage_sign Runs.symbols_fail_env Sim.repo Sim.release
                           Runs.packed_foo))
  = [mkResult "Foo" true true false].
Proof.
  set (signed1 := snd (for_each ["Foo.1.0.0.nupkg"]
                         (sign_archive Runs.symbols_fail_env Sim.repo Sim.release)
                         Runs.signing_foo)).
  set (pushed1 := snd (for_each ["Foo.1.0.0.nupkg"]
                         (publish_archive Runs.symbols_fail_env Sim.repo Sim.release)
                         Runs.publishing_foo)).
  assert (Harch : archives Runs.symbols_fail_env Sim.repo "*.*nupkg"
                    (world Runs.packed_foo)
                  = ["Foo.1.0.0.nupkg"] ++ "Foo.1.0.0.snupkg" :: [])
    by (vm_compute; reflexivity).
  assert (Hr : returncode Runs.failure <> 0%Z) by (simpl; lia).
  destruct (failure_leaves_partial_marks Runs.symbols_fail_env Sim.repo Sim.release
              Runs.packed_foo pushed1 ["Foo.1.0.0.nupkg"] "Foo.1.0.0.snupkg" []
              Runs.failure (world pushed1) Harch Hr) as [_ Hpush].
  destruct (failure_leaves_partial_marks Runs.symbols_fail_env Sim.repo Sim.release
              Runs.packed_foo signed1 ["Foo.1.0.0.nupkg"] "Foo.1.0.0.snupkg" []
              Runs.failure (world signed1) Harch Hr) as [Hsign _].
  rewrite Hpush, Hsign;
    try reflexivity; try (vm_compute; reflexivity).
  repeat split; vm_compute; reflexivity.
Defined.

Lemma summary_reports_every_project_witness :
  main Runs.ok_env Sim.repo Runs.two Sim.dry_run Runs.start
  = (Returned tt, snd (main Runs.ok_env Sim.repo Runs.two Sim.dry_run Runs.start)) /\
  List.map name
    (results (snd (main Runs.ok_env Sim.repo Runs.two Sim.dry_run Runs.start)))
  = ["A"; "B"].
Proof.
  assert (H : main Runs.ok_env Sim.repo Runs.two Sim.dry_run Runs.start
              = (Returned tt,
                 snd (main Runs.ok_env Sim.repo Runs.two Sim.dry_run Runs.start)))
    by (vm_compute; reflexivity).
  split; [exact H |].
  destruct (summary_reports_every_project Runs.ok_env Sim.repo Runs.two Sim.dry_run)
    as (_ & _ & Hmain).
  destruct (Hmain _ _ H) as (Hnames & _ & _).
  rewrite Hnames. reflexivity.
Defined.

Lemma run_succeeds_when_tools_do_witness :
  env_succeeds Runs.ok_env /\ well_configured Sim.release /\
  exists fin,
    main Runs.ok_env Sim.repo Runs.two Sim.release Runs.start = (Returned tt, fin) /\
    List.map name (results fin) = ["A"; "B"].
Proof.
  assert (Hgood : env_succeeds Runs.ok_env).
  { split; [| split].
    - intros p w. simpl. discriminate.
    - intros cmd cwd w. simpl. eexists _, _. split; reflexivity.
    - intros p w. simpl. discriminate. }
  assert (Hconf : well_configured Sim.release) by (split; reflexivity).
  split; [exact Hgood |]. split; [exact Hconf |].
  destruct (run_succeeds_when_tools_do Runs.ok_env Sim.repo Runs.two Sim.release []
              Hgood Hconf) as (fin & E & Hnames & _).
  exists fin. split; [exact E | exact Hnames].
Defined.


Lemma summary_row_is_faithful_witness :
  summary_row (mkResult "A" true false false)
  = summary_row (mkResult "A" true false false) /\
  String.length (summary_row (mkResult "A" true false false)) = 73 /\
  packed (mkResult "A" true false false) = true.
Proof.
  destruct (summary_row_is_faithful (mkResult "A" true false false)
              (mkResult "A" true false false)) as (_ & Hlen & Hsame).
  split; [reflexivity |]. split; [rewrite Hlen; reflexivity |].
  destruct (Hsame eq_refl) as (Hp & _). reflexivity.
Defined.

Lemma unsigned_without_sign_flag_witness :
  sign Sim.dry_run = false /\
  invoked is_sign_cmd
    (trace (snd (main Runs.ok_env Sim.repo Runs.two Sim.dry_run Runs.start))) = [].
Proof.
  split; [reflexivity |].
  apply (unsigned_without_sign_flag Runs.ok_env Sim.repo Runs.two Sim.dry_run []).
  reflexivity.
Defined.

Lemma commands_are_echoed_with_their_secrets_witness :
  In (EPrint ("  > dotnet nuget push /repo/packages/Foo.1.0.0.nupkg" +:+
              " --api-key KEY" +:+
              " --source https://api.nuget.org/v3/index.json --skip-duplicate"))
     (trace (snd (main Runs.ok_env Sim.repo Runs.foo Sim.release Runs.start))) /\
  In (EPrint ("  > dotnet nuget sign /repo/packages/Foo.1.0.0.snupkg" +:+
              " --certificate-path cert.pfx" +:+
              " --timestamper http://timestamp.digicert.com" +:+
              " --certificate-password pass word"))
     (trace (snd (main Runs.ok_env Sim.repo Runs.foo Sim.release Runs.start))).
Proof.
  destruct (commands_are_echoed_with_their_secrets Runs.ok_env Sim.repo Runs.foo
              Sim.release []) as (_ & Hkey & Hpw).
  split.
  - apply (Hkey "KEY" "Foo.1.0.0.nupkg"); [reflexivity |].
    vm_compute. do 5 right. left. reflexivity.
  - apply (Hpw "cert.pfx" "pass word" "Foo.1.0.0.snupkg");
      [reflexivity | reflexivity | discriminate |].
    vm_compute. do 4 right. left. reflexivity.
Defined.
